(** * llama_deploy: credential store, step pipeline and bootstrap token

    A shallow embedding of [llama_deploy/tokens.py] and of the step runner,
    the bootstrap-token helper and the deployment driver of
    [llama_deploy/orchestrator.py], with the properties the design document
    states about them.  [pick_free_bind_port] of [llama_deploy/system.py],
    whose source is not available, is modelled from the design document.

    Conventions of the embedding.
    - A Python [str] is a Rocq [string]: a sequence of characters whose code
      points are below 256.  [encode] is the UTF-8 encoding of such a string
      and [isspace] is Python's [str.isspace] on that range.
    - [Optional[str]] is [option string]; Python truthiness of such a value
      ([None] and the empty string are false) is [truthy].
    - [hashlib.sha256] is SHA-256 as FIPS 180-4 defines it, on 32-bit words
      held in [Z] with the wrap-around written out.
    - An f-string that is only displayed, logged or carried by an exception
      is a constructor of [Msg] or [ErrText] holding the interpolated values.
    - Raising is a [Raise] result; the state reached at the raise is kept
      (Python rolls nothing back).  Code is a function from the state to a
      result and a new state ([M]).
    - Files hold their parsed content: [tokens.json] is the list of records
      under its ["tokens"] key, [token_hashes.json] the list under
      ["hashes"]; [json.dumps]/[json.loads] and [asdict]/[_from_dict] are
      inverse on such content.  A [tokens.json] that is present parses
      and holds well-typed records, and writing a file of the secrets
      directory never fails once the directory exists.  File permissions
      are not modelled, and writing to the console or to the log never
      fails.
    - [secrets.token_hex], [secrets.token_urlsafe] and the clock are read
      from the machine: the store's methods take what they return as
      arguments, the orchestrator reads them from streams. *)

From Stdlib Require Import ZArith List String Ascii Bool Lia.
From stdpp Require Import base option list gmap strings.

Import ListNotations.
Local Open Scope string_scope.
Local Open Scope Z_scope.

(* ===================================================================== *)
(** ** hashlib.sha256 (FIPS 180-4) on byte lists *)
(* ===================================================================== *)

Module SHA256.

Definition wrap32 (x : Z) : Z := x mod 2 ^ 32.
Definition add32 (a b : Z) : Z := wrap32 (a + b).
Definition not32 (x : Z) : Z := Z.lxor x 0xffffffff.
Definition rotr (n x : Z) : Z :=
  Z.lor (Z.shiftr x n) (wrap32 (Z.shiftl x (32 - n))).
Definition shr (n x : Z) : Z := Z.shiftr x n.

Definition Ch (x y z : Z) : Z := Z.lxor (Z.land x y) (Z.land (not32 x) z).
Definition Maj (x y z : Z) : Z :=
  Z.lxor (Z.land x y) (Z.lxor (Z.land x z) (Z.land y z)).
Definition Sigma0 (x : Z) : Z := Z.lxor (rotr 2 x) (Z.lxor (rotr 13 x) (rotr 22 x)).
Definition Sigma1 (x : Z) : Z := Z.lxor (rotr 6 x) (Z.lxor (rotr 11 x) (rotr 25 x)).
Definition sigma0 (x : Z) : Z := Z.lxor (rotr 7 x) (Z.lxor (rotr 18 x) (shr 3 x)).
Definition sigma1 (x : Z) : Z := Z.lxor (rotr 17 x) (Z.lxor (rotr 19 x) (shr 10 x)).

(** The round constants and the initial hash value are defined as FIPS
    180-4 defines them (sections 4.2.2 and 5.3.3): the first 32 bits of the
    fractional parts of the cube roots of the first 64 primes, and of the
    square roots of the first 8 primes. *)
Definition is_prime (n : Z) : bool :=
  (2 <=? n)
  && forallb (fun d => negb (n mod Z.of_nat d =? 0)) (seq 2 (Z.to_nat n - 2)).

Definition primes : list Z :=
  List.filter is_prime (map Z.of_nat (seq 2 310)).

(** Integer cube root by bisection on the bits, from bit [n - 1] down. *)
Fixpoint icbrt_bits (n : nat) (x acc : Z) : Z :=
  match n with
  | O => acc
  | S n' =>
      let c := acc + 2 ^ Z.of_nat n' in
      if c * c * c <=? x then icbrt_bits n' x c else icbrt_bits n' x acc
  end.

Definition K : list Z :=
  Eval vm_compute in map (fun p => wrap32 (icbrt_bits 36 (p * 2 ^ 96) 0)) primes.

Definition H0 : list Z :=
  Eval vm_compute in map (fun p => wrap32 (Z.sqrt (p * 2 ^ 64))) (firstn 8 primes).

(** Big-endian bytes of [x], [n] of them. *)
Fixpoint be_bytes (n : nat) (x : Z) : list Z :=
  match n with
  | O => []
  | S n' => (Z.shiftr x (8 * Z.of_nat n')) mod 256 :: be_bytes n' x
  end.

Definition be_word (bs : list Z) : Z :=
  fold_left (fun acc b => acc * 256 + b) bs 0.

(** Message padding: a 1 bit, zeros up to 56 mod 64, the bit length on 8 bytes. *)
Definition pad (msg : list Z) : list Z :=
  let len := Z.of_nat (length msg) in
  let zeros := Z.to_nat ((55 - len) mod 64) in
  msg ++ [0x80] ++ repeat 0 zeros ++ be_bytes 8 (8 * len).

Fixpoint words_of (n : nat) (bs : list Z) : list Z :=
  match n with
  | O => []
  | S n' => be_word (firstn 4 bs) :: words_of n' (skipn 4 bs)
  end.

Fixpoint blocks_of (n : nat) (bs : list Z) : list (list Z) :=
  match n with
  | O => []
  | S n' => words_of 16 (firstn 64 bs) :: blocks_of n' (skipn 64 bs)
  end.

(** Message schedule; [rev_w] holds W[t-1], W[t-2], ... *)
Fixpoint schedule (n : nat) (rev_w : list Z) : list Z :=
  match n with
  | O => rev_w
  | S n' =>
      let w := add32 (add32 (sigma1 (nth 1 rev_w 0)) (nth 6 rev_w 0))
                     (add32 (sigma0 (nth 14 rev_w 0)) (nth 15 rev_w 0)) in
      schedule n' (w :: rev_w)
  end.

Definition round (st : list Z) (kw : Z * Z) : list Z :=
  match st with
  | [a; b; c; d; e; f; g; h] =>
      let t1 := add32 (add32 (add32 h (Sigma1 e)) (add32 (Ch e f g) (fst kw))) (snd kw) in
      let t2 := add32 (Sigma0 a) (Maj a b c) in
      [add32 t1 t2; a; b; c; add32 d t1; e; f; g]
  | _ => st
  end.

Fixpoint zip_add (xs ys : list Z) : list Z :=
  match xs, ys with
  | x :: xs', y :: ys' => add32 x y :: zip_add xs' ys'
  | _, _ => []
  end.

Definition compress (h : list Z) (block : list Z) : list Z :=
  let w := rev (schedule 48 (rev block)) in
  zip_add h (fold_left round (combine K w) h).

Definition digest (msg : list Z) : list Z :=
  let p := pad msg in
  let hs := fold_left compress (blocks_of (Nat.div (length p) 64) p) H0 in
  flat_map (be_bytes 4) hs.

Definition hex_digit (d : Z) : ascii :=
  ascii_of_nat (Z.to_nat (if d <? 10 then 48 + d else 87 + d)).

Fixpoint hex (bs : list Z) : string :=
  match bs with
  | [] => EmptyString
  | b :: bs' => String (hex_digit (b / 16)) (String (hex_digit (b mod 16)) (hex bs'))
  end.

(** [hashlib.sha256(data).hexdigest()] *)
Definition hexdigest (data : list Z) : string := hex (digest data).

End SHA256.

(* ===================================================================== *)
(** ** Python strings *)
(* ===================================================================== *)

Definition newline : string := String (ascii_of_nat 10) EmptyString.

(** [str.isspace] of one character (code points below 256): the ASCII
    controls TAB..CR and FS..US, the space, NEL (0x85) and NBSP (0xA0). *)
Definition isspace (c : ascii) : bool :=
  let n := Z.of_nat (nat_of_ascii c) in
  ((9 <=? n) && (n <=? 13)) || ((28 <=? n) && (n <=? 32)) || (n =? 133) || (n =? 160).

Fixpoint lstrip (s : string) : string :=
  match s with
  | EmptyString => EmptyString
  | String c s' => if isspace c then lstrip s' else s
  end.

Fixpoint rstrip (s : string) : string :=
  match s with
  | EmptyString => EmptyString
  | String c s' =>
      match rstrip s' with
      | EmptyString => if isspace c then EmptyString else String c EmptyString
      | r => String c r
      end
  end.

(** [s.strip()] *)
Definition strip (s : string) : string := rstrip (lstrip s).

(** [bool(s)] for a [str]. *)
Definition str_truthy (s : string) : bool :=
  match s with EmptyString => false | _ => true end.

(** [v is None] *)
Definition is_None {A} (v : option A) : bool :=
  match v with None => true | Some _ => false end.

(** [bool(v)] for an [Optional[str]]. *)
Definition truthy (v : option string) : bool :=
  match v with Some s => str_truthy s | None => false end.

(** [s.encode()]: UTF-8 of code points below 256. *)
Fixpoint encode (s : string) : list Z :=
  match s with
  | EmptyString => []
  | String c s' =>
      let n := Z.of_nat (nat_of_ascii c) in
      (if n <? 128 then [n] else [192 + n / 64; 128 + n mod 64]) ++ encode s'
  end.

(** [hashlib.sha256(s.encode()).hexdigest()] *)
Definition sha256_hex (s : string) : string := SHA256.hexdigest (encode s).

(* ===================================================================== *)
(** ** Exceptions and the state-and-exception monad *)
(* ===================================================================== *)

(** The texts the code raises with; the f-strings keep their arguments. *)
Inductive ErrText : Type :=
  | Token_not_found (token_id : string)
      (* f"Token not found: {token_id}" *)
  | Token_is_already_revoked (token_id : string)
      (* f"Token {token_id} is already revoked." *)
  | Token_was_created_in_hashed_mode (token_id : string)
      (* f"Token '{token_id}' was created in hashed mode ... cannot be recovered." *)
  | Token_value_must_not_be_empty
      (* "Token value must not be empty." *)
  | Text (s : string).

Inductive exn : Type :=
  | KeyError (msg : ErrText)
  | ValueError (msg : ErrText)
  | FileNotFoundError (path : string)
  | AttributeError (msg : ErrText)
  | OtherException (cls : string) (msg : ErrText)   (* any other subclass of Exception *)
  | SystemExit (code : Z)
  | KeyboardInterrupt.

(** [isinstance(e, Exception)]: what [except Exception] catches. *)
Definition is_Exception (e : exn) : bool :=
  match e with
  | SystemExit _ | KeyboardInterrupt => false
  | _ => true
  end.

Inductive Result (A : Type) : Type :=
  | Ok (a : A)
  | Raise (e : exn).
Arguments Ok {A} a.
Arguments Raise {A} e.

Definition M (S A : Type) : Type := S -> Result A * S.

Definition ret {S A} (a : A) : M S A := fun s => (Ok a, s).
Definition raise {S A} (e : exn) : M S A := fun s => (Raise e, s).
Definition bind {S A B} (m : M S A) (k : A -> M S B) : M S B :=
  fun s => match m s with
           | (Ok a, s') => k a s'
           | (Raise e, s') => (Raise e, s')
           end.
Definition modify {S} (f : S -> S) : M S unit := fun s => (Ok tt, f s).

(** [try: body  except Exception as e: handler(e)] *)
Definition try_except {S A} (body : M S A) (handler : exn -> M S A) : M S A :=
  fun s => match body s with
           | (Ok a, s') => (Ok a, s')
           | (Raise e, s') => if is_Exception e then handler e s' else (Raise e, s')
           end.

(** [try: body  finally: fin]: [fin] always runs; when it completes the
    outcome of [body] stands, when it raises its exception replaces it. *)
Definition try_finally {S A} (body : M S A) (fin : M S unit) : M S A :=
  fun s => match body s with
           | (r, s') =>
               match fin s' with
               | (Ok _, s'') => (r, s'')
               | (Raise e, s'') => (Raise e, s'')
               end
           end.

Declare Scope monad_scope.
Delimit Scope monad_scope with monad.
Notation "x <- m ;; k" := (bind m (fun x => k))
  (at level 100, m at next level, right associativity) : monad_scope.
Notation "m ;;; k" := (bind m (fun _ => k))
  (at level 100, right associativity) : monad_scope.
Local Open Scope monad_scope.

(* ===================================================================== *)
(** ** tokens.py: data model *)
(* ===================================================================== *)

Inductive AuthMode : Type := PLAINTEXT | HASHED.

Definition AuthMode_eqb (a b : AuthMode) : bool :=
  match a, b with
  | PLAINTEXT, PLAINTEXT | HASHED, HASHED => true
  | _, _ => false
  end.

Module TokenRecord.
Record t : Type := mk {
  id : string;                  (* "tk_<12 hex chars>" *)
  name : string;
  created_at : string;          (* ISO 8601 UTC *)
  revoked : bool;
  revoked_at : option string;
  value : option string;        (* plaintext; None in hashed mode *)
  hash : option string          (* SHA-256 hex; None in plaintext mode *)
}.

(** [t.revoked = True; t.revoked_at = now] *)
Definition set_revoked (now : string) (r : t) : t :=
  mk (id r) (name r) (created_at r) true (Some now) (value r) (hash r).

(** The [status] property. *)
Definition status (r : t) : string :=
  if revoked r then "REVOKED" else "active".
End TokenRecord.

(** The secrets directory: each file is absent ([None]) or holds its content. *)
Record SecretsDir : Type := mkSecretsDir {
  tokens_json : option (list TokenRecord.t);
  api_keys : option string;
  token_hashes_json : option (list string)
}.

(** [None]: the secrets directory itself does not exist. *)
Definition FS : Type := option SecretsDir.

Definition empty_dir : SecretsDir := mkSecretsDir None None None.

(* ===================================================================== *)
(** ** tokens.py: TokenStore *)
(* ===================================================================== *)

Module TokenStore.

(** [self._dir.mkdir(parents=True, exist_ok=True)] *)
Definition mkdir : M FS unit :=
  modify (fun fs => match fs with None => Some empty_dir | Some d => Some d end).

(** [path.write_text(...)] for the three files; the directory must exist. *)
Definition write_tokens_json (ts : list TokenRecord.t) : M FS unit :=
  fun fs => match fs with
            | None => (Raise (FileNotFoundError "tokens.json"), fs)
            | Some d => (Ok tt, Some (mkSecretsDir (Some ts) (api_keys d) (token_hashes_json d)))
            end.

Definition write_api_keys (text : string) : M FS unit :=
  fun fs => match fs with
            | None => (Raise (FileNotFoundError "api_keys"), fs)
            | Some d => (Ok tt, Some (mkSecretsDir (tokens_json d) (Some text) (token_hashes_json d)))
            end.

Definition write_token_hashes_json (hs : list string) : M FS unit :=
  fun fs => match fs with
            | None => (Raise (FileNotFoundError "token_hashes.json"), fs)
            | Some d => (Ok tt, Some (mkSecretsDir (tokens_json d) (api_keys d) (Some hs)))
            end.

Definition _load : M FS (list TokenRecord.t) :=
  fun fs => match fs with
            | Some (mkSecretsDir (Some ts) _ _) => (Ok ts, fs)
            | _ => (Ok [], fs)                      (* not self._json_path.exists() *)
            end.

Definition _save (tokens : list TokenRecord.t) : M FS unit :=
  mkdir ;;; write_tokens_json tokens.

(** [[t.value for t in tokens if not t.revoked and t.value]] *)
Definition active_values (tokens : list TokenRecord.t) : list string :=
  map (fun t => default EmptyString (TokenRecord.value t))
      (List.filter (fun t => negb (TokenRecord.revoked t) && truthy (TokenRecord.value t)) tokens).

(** [[t.hash for t in tokens if not t.revoked and t.hash]] *)
Definition active_hashes (tokens : list TokenRecord.t) : list string :=
  map (fun t => default EmptyString (TokenRecord.hash t))
      (List.filter (fun t => negb (TokenRecord.revoked t) && truthy (TokenRecord.hash t)) tokens).

Definition _sync_keyfile (tokens : list TokenRecord.t) : M FS unit :=
  let active := active_values tokens in
  write_api_keys (String.concat newline active ++ newline)%string.

Definition _sync_hashfile (tokens : list TokenRecord.t) : M FS unit :=
  let active_hashes := active_hashes tokens in
  write_token_hashes_json active_hashes.

Definition _sync (auth_mode : AuthMode) (tokens : option (list TokenRecord.t)) : M FS unit :=
  tokens <- match tokens with
            | None => _load
            | Some ts => ret ts
            end ;;
  if AuthMode_eqb auth_mode HASHED
  then _sync_hashfile tokens
  else _sync_keyfile tokens.

(** *** Read *)

Definition list_tokens : M FS (list TokenRecord.t) := _load.

Definition active_tokens : M FS (list TokenRecord.t) :=
  ts <- _load ;;
  ret (List.filter (fun t => negb (TokenRecord.revoked t)) ts).

(** The [for t in ...] loop of [show_token]. *)
Fixpoint show_loop (auth_mode : AuthMode) (token_id : string)
    (tokens : list TokenRecord.t) : M FS TokenRecord.t :=
  match tokens with
  | [] => raise (KeyError (Token_not_found token_id))
  | t :: rest =>
      if String.eqb (TokenRecord.id t) token_id then
        if AuthMode_eqb auth_mode HASHED && is_None (TokenRecord.value t)
        then raise (ValueError (Token_was_created_in_hashed_mode token_id))
        else ret t
      else show_loop auth_mode token_id rest
  end.

Definition show_token (auth_mode : AuthMode) (token_id : string) : M FS TokenRecord.t :=
  ts <- _load ;;
  show_loop auth_mode token_id ts.

(** *** Write *)

(** [value or ("sk-" + secrets.token_urlsafe(48))] *)
Definition raw_value_of (value : option string) (urlsafe : string) : string :=
  if truthy value then default EmptyString value else ("sk-" ++ urlsafe)%string.

(** [create_token(name, value)].  [hex] is what [secrets.token_hex(6)]
    returns, [urlsafe] what [secrets.token_urlsafe(48)] returns when it is
    called, [now] the clock's [isoformat()]. *)
Definition create_token (auth_mode : AuthMode) (name : string) (value : option string)
    (hex urlsafe now : string) : M FS TokenRecord.t :=
  let token_id := ("tk_" ++ hex)%string in
  let raw_value := raw_value_of value urlsafe in
  if negb (str_truthy (strip raw_value))
  then raise (ValueError Token_value_must_not_be_empty)
  else
    let '(stored_record, display_record) :=
      if AuthMode_eqb auth_mode HASHED then
        let token_hash := sha256_hex raw_value in
        (TokenRecord.mk token_id name now false None None (Some token_hash),
         TokenRecord.mk token_id name now false None (Some raw_value) (Some token_hash))
      else
        let r := TokenRecord.mk token_id name now false None (Some raw_value) None in
        (r, r) in
    tokens <- _load ;;
    let tokens := (tokens ++ [stored_record])%list in
    _save tokens ;;;
    _sync auth_mode (Some tokens) ;;;
    ret display_record.

(** The [for t in tokens] loop of [revoke_token]; [before] is the part of
    the list already passed. *)
Fixpoint revoke_loop (auth_mode : AuthMode) (token_id now : string)
    (before rest : list TokenRecord.t) : M FS TokenRecord.t :=
  match rest with
  | [] => raise (KeyError (Token_not_found token_id))
  | t :: rest' =>
      if String.eqb (TokenRecord.id t) token_id then
        if TokenRecord.revoked t
        then raise (ValueError (Token_is_already_revoked token_id))
        else
          let t' := TokenRecord.set_revoked now t in
          let tokens := (before ++ t' :: rest')%list in
          _save tokens ;;;
          _sync auth_mode (Some tokens) ;;;
          ret t'
      else revoke_loop auth_mode token_id now (before ++ [t])%list rest'
  end.

Definition revoke_token (auth_mode : AuthMode) (token_id now : string) : M FS TokenRecord.t :=
  tokens <- _load ;;
  revoke_loop auth_mode token_id now [] tokens.

End TokenStore.

(* ===================================================================== *)
(** ** orchestrator.py: values, messages and the world *)
(* ===================================================================== *)

Module TokenRuntime.
Record t : Type := mk {
  value : option string;         (* the record's [value], always set in practice *)
  temporary_id : option string
}.
End TokenRuntime.

(** What a step can return and what [Step.result] can hold. *)
Inductive Value : Type :=
  | VNone
  | VStr (s : string)
  | VTokenRuntime (rt : TokenRuntime.t)
  | VObject (repr : string).           (* any other object, e.g. a resolved ModelSpec *)

(** The fields of the configuration object that the pipeline itself reads;
    the others are only passed on to collaborators. *)
Record Config : Type := mkConfig {
  auth_mode : AuthMode;
  api_token_name : string;
  api_token : option string;
  skip_download : bool;
  configure_ufw : bool;            (* cfg.network.configure_ufw *)
  publish : bool;                  (* cfg.network.publish *)
  use_tls : bool;
  domain : option string
}.

(** The functions of other modules that [run_deploy] calls. *)
Inductive Collaborator : Type :=
  | Require_root_reexec | Detect_ubuntu | Ensure_tqdm | Mkdir (dir : string)
  | Ensure_base_packages | Ensure_unattended_upgrades | Ensure_docker
  | Ensure_swap | Ensure_firewall
  | Resolve_model (role : string)
  | Find_gguf_on_disk (role : string)
  | Write_models_ini | Write_compose | Write_auth_sidecar_script
  | Docker_pull | Docker_compose_up
  | Ensure_local_proxy | Ensure_tls_for_domain
  | Wait_health | Curl_smoke_tests | Sanity_checks
  | Sh (cmd : string).

(** Lines written with [tqdm.write], [print] or [log_line]. *)
Inductive Msg : Type :=
  | SKIP (label : string)                        (* f"[SKIP] {step.label}" *)
  | STEP (label : string)                        (* f"[STEP] {step.label}" *)
  | DONE (label : string) (elapsed : Z)          (* f"[DONE] {step.label} ({elapsed:.1f}s)" *)
  | OK_existing_token (token_id : string)
  | OK_created_smoke_token (token_id : string)
  | OK_created_token (name token_id : string)
  | CLEANUP_revoked (token_id : string)
  | WARN_failed_to_revoke (token_id : string) (e : exn)
  | INFO_logging_to
  | START (now : string)
  | END (now : string)
  | Args
  | FATAL (what : string)
  | SKIP_DL (resolved : Value)
  | Summary (api_token : option string) (first_run : bool).

Section Orchestrator.

(** The rest of the machine (packages, containers, model files, ...). *)
Variable Host : Type.

(** [secrets.token_hex(6)] and [secrets.token_urlsafe(48)] as streams of
    the operating system's entropy, and [datetime.isoformat()] of a clock
    reading. *)
Variable token_hex : nat -> string.
Variable token_urlsafe : nat -> string.
Variable isoformat : Z -> string.

Record Machine : Type := mkMachine {
  secrets : FS;                 (* cfg.secrets_dir *)
  console : list Msg;
  logfile : list Msg;           (* LOG_PATH *)
  clock : Z;
  urandom : nat;                (* entropy already consumed *)
  host : Host
}.

(** The machine together with the objects of one pipeline run: the
    [result] field of every [Step] object, by object identity, and the
    progress bar's counter. *)
Record World : Type := mkWorld {
  machine : Machine;
  results : gmap nat Value;
  progress : nat
}.

Definition lift_machine {A} (m : M Machine A) : M World A :=
  fun w => match m (machine w) with
           | (r, mc) => (r, mkWorld mc (results w) (progress w))
           end.

Definition lift_fs {A} (m : M FS A) : M Machine A :=
  fun mc => match m (secrets mc) with
            | (r, fs) => (r, mkMachine fs (console mc) (logfile mc) (clock mc) (urandom mc) (host mc))
            end.

Definition tqdm_write (msg : Msg) : M Machine unit :=
  modify (fun mc => mkMachine (secrets mc) (console mc ++ [msg]) (logfile mc)
                              (clock mc) (urandom mc) (host mc)).

Definition log_line (msg : Msg) : M Machine unit :=
  modify (fun mc => mkMachine (secrets mc) (console mc) (logfile mc ++ [msg])
                              (clock mc) (urandom mc) (host mc)).

Definition time_time : M Machine Z := fun mc => (Ok (clock mc), mc).

Definition utcnow : M Machine string := fun mc => (Ok (isoformat (clock mc)), mc).

Definition next_entropy : M Machine nat :=
  fun mc => (Ok (urandom mc),
             mkMachine (secrets mc) (console mc) (logfile mc) (clock mc) (S (urandom mc)) (host mc)).

Definition bar_update (n : nat) : M World unit :=
  modify (fun w => mkWorld (machine w) (results w) (progress w + n)%nat).

(** [step.result], [None] until written. *)
Definition result_of (addr : nat) (w : World) : Value :=
  default VNone (results w !! addr).

Definition get_result (addr : nat) : M World Value :=
  fun w => (Ok (result_of addr w), w).

Definition set_result (addr : nat) (v : Value) : M World unit :=
  modify (fun w => mkWorld (machine w) (<[addr := v]> (results w)) (progress w)).

(** [store.create_token(name, value)] with the entropy and the clock of
    the machine: [token_hex] is called first, [token_urlsafe] only when
    [value] is falsy. *)
Definition store_create_token (auth_mode : AuthMode) (name : string)
    (value : option string) : M Machine TokenRecord.t :=
  i <- next_entropy ;;
  j <- (if truthy value then ret O else next_entropy) ;;
  now <- utcnow ;;
  lift_fs (TokenStore.create_token auth_mode name value (token_hex i) (token_urlsafe j) now).

Definition store_revoke_token (auth_mode : AuthMode) (token_id : string)
    : M Machine TokenRecord.t :=
  now <- utcnow ;;
  lift_fs (TokenStore.revoke_token auth_mode token_id now).

(* ===================================================================== *)
(** ** orchestrator.py: Step and run_steps *)
(* ===================================================================== *)

Record Step : Type := mkStep {
  label : string;
  fn : M World Value;
  skip_if : option (M World bool);
  addr : nat                     (* the object whose [result] field is written *)
}.

(** [step.skip_if and step.skip_if()] *)
Definition should_skip (step : Step) : M World bool :=
  match skip_if step with
  | None => ret false
  | Some p => p
  end.

(** One iteration of the loop body of [run_steps]. *)
Definition run_step (step : Step) : M World unit :=
  skip <- should_skip step ;;
  if skip then
    lift_machine (tqdm_write (SKIP (label step))) ;;;
    lift_machine (log_line (SKIP (label step))) ;;;
    bar_update 1
  else
    lift_machine (tqdm_write (STEP (label step))) ;;;
    lift_machine (log_line (STEP (label step))) ;;;
    t0 <- lift_machine time_time ;;
    r <- fn step ;;
    set_result (addr step) r ;;;
    t1 <- lift_machine time_time ;;
    let elapsed := t1 - t0 in
    lift_machine (tqdm_write (DONE (label step) elapsed)) ;;;
    lift_machine (log_line (DONE (label step) elapsed)) ;;;
    bar_update 1.

Fixpoint run_steps (steps : list Step) : M World unit :=
  match steps with
  | [] => ret tt
  | step :: rest => run_step step ;;; run_steps rest
  end.

(** What the runner did at one position of the list. *)
Inductive Visit : Type :=
  | Skipped (i : nat)
  | Executed (i : nat) (v : Value)     (* [fn] was called and returned [v] *)
  | Failed (i : nat) (e : exn).        (* [skip_if] or [fn] raised *)

Definition visit_index (v : Visit) : nat :=
  match v with Skipped i | Executed i _ | Failed i _ => i end.

(** [run_step] observed: the same body, which also reports what it did
    at position [i]. *)
Definition run_step_observed (i : nat) (step : Step) (w : World)
    : Result unit * World * Visit :=
  match should_skip step w with
  | (Raise e, w1) => (Raise e, w1, Failed i e)
  | (Ok true, w1) =>
      let '(r, w2) := (lift_machine (tqdm_write (SKIP (label step))) ;;;
                       lift_machine (log_line (SKIP (label step))) ;;;
                       bar_update 1) w1 in
      (r, w2, Skipped i)
  | (Ok false, w1) =>
      let '(_, w2) := (lift_machine (tqdm_write (STEP (label step))) ;;;
                       lift_machine (log_line (STEP (label step)))) w1 in
      let t0 := clock (machine w2) in
      match fn step w2 with
      | (Raise e, w3) => (Raise e, w3, Failed i e)
      | (Ok v, w3) =>
          let '(r, w4) := (set_result (addr step) v ;;;
                           t1 <- lift_machine time_time ;;
                           lift_machine (tqdm_write (DONE (label step) (t1 - t0))) ;;;
                           lift_machine (log_line (DONE (label step) (t1 - t0))) ;;;
                           bar_update 1) w3 in
          (r, w4, Executed i v)
      end
  end.

(** [run_steps] observed; [i] is the position of the head of [steps] in
    the list the caller passed. *)
Fixpoint run_steps_observed (i : nat) (steps : list Step) (w : World)
    : Result unit * World * list Visit :=
  match steps with
  | [] => (Ok tt, w, [])
  | step :: rest =>
      match run_step_observed i step w with
      | (Ok _, w', v) =>
          let '(r, w'', tr) := run_steps_observed (S i) rest w' in
          (r, w'', v :: tr)
      | (Raise e, w', v) => (Raise e, w', [v])
      end
  end.

(* ===================================================================== *)
(** ** orchestrator.py: bootstrap token *)
(* ===================================================================== *)

Definition _ensure_first_token (cfg : Config) : M Machine TokenRuntime.t :=
  active <- lift_fs TokenStore.active_tokens ;;
  match active with
  | a0 :: _ =>
      tqdm_write (OK_existing_token (TokenRecord.id a0)) ;;;
      if truthy (TokenRecord.value a0)
      then ret (TokenRuntime.mk (TokenRecord.value a0) None)
      else
        smoke <- store_create_token (auth_mode cfg) "__deploy-smoke-test" None ;;
        tqdm_write (OK_created_smoke_token (TokenRecord.id smoke)) ;;;
        ret (TokenRuntime.mk (TokenRecord.value smoke) (Some (TokenRecord.id smoke)))
  | [] =>
      record <- store_create_token (auth_mode cfg) (api_token_name cfg) (api_token cfg) ;;
      tqdm_write (OK_created_token (TokenRecord.name record) (TokenRecord.id record)) ;;;
      ret (TokenRuntime.mk (TokenRecord.value record) None)
  end.

Definition _is_new_token (cfg : Config) : M Machine bool :=
  active <- lift_fs TokenStore.active_tokens ;;
  ret (Nat.eqb (length active) 0).

(* ===================================================================== *)
(** ** orchestrator.py: run_deploy *)
(* ===================================================================== *)

(** The collaborators, by name; [args] are the values read from step
    results when the call is made. *)
Variable external : Collaborator -> Config -> list Value -> M Machine Value.

Definition call (c : Collaborator) (cfg : Config) (args : list Value) : M World Value :=
  lift_machine (external c cfg args).

(** [log.die]: report, log, [sys.exit(1)]. *)
Definition die {A} (what : string) : M Machine A :=
  tqdm_write (FATAL what) ;;;
  log_line (FATAL what) ;;;
  raise (SystemExit 1).

(** [obj.value] where [obj] is a step result. *)
Definition attr_value (obj : Value) : M World (option string) :=
  match obj with
  | VTokenRuntime rt => ret (TokenRuntime.value rt)
  | _ => raise (AttributeError (Text "object has no attribute 'value'"))
  end.

Definition opt_str (v : option string) : Value :=
  match v with Some s => VStr s | None => VNone end.

(** Identities of the Step objects built by [run_deploy]. *)
Definition token_step_addr : nat := 5.
Definition llm_step_addr : nat := 6.
Definition emb_step_addr : nat := 7.

Definition token_step (cfg : Config) : Step :=
  mkStep "Create API token"
         (rt <- lift_machine (_ensure_first_token cfg) ;; ret (VTokenRuntime rt))
         None token_step_addr.

Definition system_steps (cfg : Config) : list Step :=
  [ mkStep "Install base packages" (call Ensure_base_packages cfg []) None 0;
    mkStep "Enable unattended upgrades" (call Ensure_unattended_upgrades cfg []) None 1;
    mkStep "Install / enable Docker" (call Ensure_docker cfg []) None 2;
    mkStep "Ensure swap" (call Ensure_swap cfg []) None 3;
    mkStep "Firewall (UFW) hardening" (call Ensure_firewall cfg [])
           (Some (ret (negb (configure_ufw cfg)))) 4;
    token_step cfg ].

Definition llm_step (cfg : Config) : Step :=
  mkStep "Resolve + download LLM GGUF" (call (Resolve_model "llm") cfg [])
         (Some (ret (skip_download cfg))) llm_step_addr.

Definition emb_step (cfg : Config) : Step :=
  mkStep "Resolve + download embedding GGUF" (call (Resolve_model "emb") cfg [])
         (Some (ret (skip_download cfg))) emb_step_addr.

(** One turn of the loop of [_resolve_from_disk]: [Find_gguf_on_disk]
    stands for the glob, the hash of the first match and [with_resolved];
    it returns [None] when nothing matches. *)
Definition resolve_one_from_disk (cfg : Config) (role : string) (step_addr : nat)
    : M World unit :=
  found <- call (Find_gguf_on_disk role) cfg [] ;;
  match found with
  | VNone => lift_machine (die "--skip-download requested but no matching GGUF found")
  | resolved =>
      set_result step_addr resolved ;;;
      lift_machine (tqdm_write (SKIP_DL resolved))
  end.

Definition _resolve_from_disk (cfg : Config) : M World unit :=
  if negb (skip_download cfg) then ret tt
  else
    resolve_one_from_disk cfg "llm" llm_step_addr ;;;
    resolve_one_from_disk cfg "emb" emb_step_addr.

Definition _write_config (cfg : Config) : M World Value :=
  llm <- get_result llm_step_addr ;;
  emb <- get_result emb_step_addr ;;
  call Write_models_ini cfg [llm; emb] ;;;
  call Write_compose cfg [] ;;;
  (if AuthMode_eqb (auth_mode cfg) HASHED
   then call Write_auth_sidecar_script cfg [] ;;; ret tt
   else ret tt) ;;;
  ret VNone.

Definition _setup_local_proxy (cfg : Config) : M World Value :=
  call Ensure_local_proxy cfg [] ;;; ret VNone.

Definition _setup_tls (cfg : Config) : M World Value :=
  call Ensure_tls_for_domain cfg [] ;;; ret VNone.

Definition _internal_test (cfg : Config) : M World Value :=
  call (Sh "docker pull curlimages/curl:8.5.0") cfg [] ;;;
  runtime <- get_result token_step_addr ;;
  token <- attr_value runtime ;;
  call (Sh "docker run --rm curlimages/curl:8.5.0") cfg [opt_str token] ;;;
  ret VNone.

Definition health_step (cfg : Config) : Step :=
  if publish cfg || AuthMode_eqb (auth_mode cfg) HASHED
  then mkStep "Wait for /health" (call Wait_health cfg []) None 13
  else mkStep "Internal network smoke test" (_internal_test cfg) None 13.

Definition smoke_step (cfg : Config) : Step :=
  if publish cfg || AuthMode_eqb (auth_mode cfg) HASHED
  then mkStep "Smoke tests (OpenAI-compatible routes)"
         (runtime <- get_result token_step_addr ;;
          token <- attr_value runtime ;;
          llm <- get_result llm_step_addr ;;
          emb <- get_result emb_step_addr ;;
          call Curl_smoke_tests cfg [opt_str token; llm; emb])
         None 14
  else mkStep "Sanity checks" (call Sanity_checks cfg []) None 14.

Definition service_steps (cfg : Config) : list Step :=
  [ mkStep "Write models.ini + docker-compose.yml" (_write_config cfg) None 8;
    mkStep "Pull Docker image" (call Docker_pull cfg []) None 9;
    mkStep "Start Docker Compose" (call Docker_compose_up cfg []) None 10;
    mkStep "NGINX local auth proxy (hashed mode)" (_setup_local_proxy cfg)
           (Some (ret (negb (AuthMode_eqb (auth_mode cfg) HASHED) || use_tls cfg))) 11;
    mkStep ("NGINX + Let's Encrypt TLS (" ++ default "None" (domain cfg) ++ ")")
           (_setup_tls cfg) (Some (ret (negb (use_tls cfg)))) 12;
    health_step cfg; smoke_step cfg;
    mkStep "Sanity checks (ports + logs)" (call Sanity_checks cfg []) None 15 ].

(** The body of the [try] of [run_deploy]. *)
Definition deploy_body (cfg : Config) (first_run : bool) : M World unit :=
  modify (fun w => mkWorld (machine w) (results w) 0%nat) ;;;      (* with tqdm(...) as bar *)
  run_steps (system_steps cfg) ;;;
  _resolve_from_disk cfg ;;;
  run_steps [llm_step cfg; emb_step cfg] ;;;
  run_steps (service_steps cfg) ;;;
  runtime <- get_result token_step_addr ;;
  token <- attr_value runtime ;;
  lift_machine (tqdm_write (Summary token first_run)).

(** The [try ... except Exception] inside the [finally]. *)
Definition revoke_temporary (cfg : Config) (temporary_id : string) : M Machine unit :=
  try_except
    (store_revoke_token (auth_mode cfg) temporary_id ;;;
     tqdm_write (CLEANUP_revoked temporary_id))
    (fun e =>
       tqdm_write (WARN_failed_to_revoke temporary_id e) ;;;
       log_line (WARN_failed_to_revoke temporary_id e)).

(** The [finally] of [run_deploy]. *)
Definition deploy_cleanup (cfg : Config) : M World unit :=
  runtime <- get_result token_step_addr ;;
  match runtime with
  | VTokenRuntime rt =>
      if truthy (TokenRuntime.temporary_id rt)
      then lift_machine (revoke_temporary cfg (default EmptyString (TokenRuntime.temporary_id rt)))
      else ret tt
  | _ => ret tt
  end ;;;
  now <- lift_machine utcnow ;;
  lift_machine (log_line (END now)).

(** What [run_deploy] does before its [try]; the result is [first_run]. *)
Definition deploy_prelude (cfg : Config) : M World bool :=
  call Require_root_reexec cfg [] ;;;
  call Detect_ubuntu cfg [] ;;;
  call Ensure_tqdm cfg [] ;;;
  lift_machine (tqdm_write INFO_logging_to) ;;;
  now <- lift_machine utcnow ;;
  lift_machine (log_line (START now)) ;;;
  lift_machine (log_line Args) ;;;
  call (Mkdir "models_dir") cfg [] ;;;
  call (Mkdir "presets_dir") cfg [] ;;;
  call (Mkdir "cache_dir") cfg [] ;;;
  lift_machine (lift_fs TokenStore.mkdir) ;;;
  first_run <- lift_machine (_is_new_token cfg) ;;
  (* the Step objects are built here, every [result] still None *)
  modify (fun w => mkWorld (machine w) ∅ (progress w)) ;;;
  ret first_run.

Definition run_deploy (cfg : Config) : M World unit :=
  first_run <- deploy_prelude cfg ;;
  try_finally (deploy_body cfg first_run) (deploy_cleanup cfg).

End Orchestrator.

Arguments mkMachine {Host}.
Arguments mkWorld {Host}.
Arguments mkStep {Host}.
Arguments secrets {Host}.
Arguments console {Host}.
Arguments logfile {Host}.
Arguments clock {Host}.
Arguments urandom {Host}.
Arguments host {Host}.
Arguments machine {Host}.
Arguments results {Host}.
Arguments progress {Host}.
Arguments label {Host}.
Arguments fn {Host}.
Arguments skip_if {Host}.
Arguments addr {Host}.
Arguments lift_machine {Host A}.
Arguments lift_fs {Host A}.
Arguments tqdm_write {Host}.
Arguments log_line {Host}.
Arguments time_time {Host}.
Arguments utcnow {Host}.
Arguments next_entropy {Host}.
Arguments bar_update {Host}.
Arguments result_of {Host}.
Arguments get_result {Host}.
Arguments set_result {Host}.
Arguments store_create_token {Host}.
Arguments store_revoke_token {Host}.
Arguments should_skip {Host}.
Arguments run_step {Host}.
Arguments run_steps {Host}.
Arguments run_step_observed {Host}.
Arguments run_steps_observed {Host}.
Arguments _ensure_first_token {Host}.
Arguments _is_new_token {Host}.
Arguments attr_value {Host}.
Arguments token_step {Host}.
Arguments deploy_body {Host}.
Arguments revoke_temporary {Host}.
Arguments deploy_cleanup {Host}.
Arguments deploy_prelude {Host}.
Arguments run_deploy {Host}.
Arguments call {Host}.
Arguments system_steps {Host}.
Arguments service_steps {Host}.
Arguments llm_step {Host}.
Arguments emb_step {Host}.
Arguments _resolve_from_disk {Host}.

(* ===================================================================== *)
(** ** system.py: pick_free_bind_port *)
(* ===================================================================== *)

(** Modelled from the spec: [llama_deploy/system.py], which holds
    [pick_free_bind_port] and the bind probe [_is_bind_port_free], is not
    among the sources (only its tests are).  Section 4.4 of the design
    document: scan the ports from [preferred_port] upward, one by one,
    skip every port of [avoid], return the first port for which the probe
    on [host] succeeds; no upper bound.  [fuel] bounds the number of ports
    looked at, and [None] means that the scan has not returned within it. *)
Fixpoint pick_free_bind_port (fuel : nat) (probe : string -> Z -> bool)
    (host : string) (preferred_port : Z) (avoid : gset Z) : option Z :=
  match fuel with
  | O => None
  | S fuel' =>
      if bool_decide (preferred_port ∈ avoid)
      then pick_free_bind_port fuel' probe host (preferred_port + 1) avoid
      else if probe host preferred_port
           then Some preferred_port
           else pick_free_bind_port fuel' probe host (preferred_port + 1) avoid
  end.

(** A port that the allocator may return. *)
Definition port_ok (probe : string -> Z -> bool) (host : string) (avoid : gset Z)
    (p : Z) : Prop :=
  (p ∉ avoid) ∧ (probe host p = true).

(* ===================================================================== *)
(** ** Vocabulary of the statements *)
(* ===================================================================== *)

(** The record collection that [tokens.json] holds; empty when the file or
    the directory is missing. *)
Definition tokens_of (fs : FS) : list TokenRecord.t :=
  match fs with
  | Some d => default [] (tokens_json d)
  | None => []
  end.

Definition tokens_json_missing (fs : FS) : Prop :=
  match fs with
  | Some d => tokens_json d = None
  | None => True
  end.

(** The secrets carried by the non-revoked records, in order, where
    [field] is [value] or [hash]; a record whose field is [None] or the
    empty string contributes nothing. *)
Fixpoint active_secrets (field : TokenRecord.t -> option string)
    (ts : list TokenRecord.t) : list string :=
  match ts with
  | [] => []
  | t :: rest =>
      if TokenRecord.revoked t then active_secrets field rest
      else match field t with
           | Some (String c s) => String c s :: active_secrets field rest
           | _ => active_secrets field rest
           end
  end.

(** One secret per line: each followed by a newline (a lone newline when
    there is none). *)
Fixpoint one_per_line (secrets : list string) : string :=
  match secrets with
  | [] => newline
  | [s] => (s ++ newline)%string
  | s :: rest => (s ++ newline ++ one_per_line rest)%string
  end.

(** Reading a text file back: the pieces between newlines, and the lines
    that are not empty. *)
Fixpoint split_newline (s : string) : string * list string :=
  match s with
  | EmptyString => (EmptyString, [])
  | String c s' =>
      let '(cur, rest) := split_newline s' in
      if Ascii.eqb c (ascii_of_nat 10) then (EmptyString, cur :: rest)
      else (String c cur, rest)
  end.

Definition split_lines (s : string) : list string :=
  let '(cur, rest) := split_newline s in cur :: rest.

Definition file_lines (text : string) : list string :=
  List.filter str_truthy (split_lines text).

Fixpoint newline_free (s : string) : bool :=
  match s with
  | EmptyString => true
  | String c s' => negb (Ascii.eqb c (ascii_of_nat 10)) && newline_free s'
  end.

(** The derived artifact of each mode. *)
Inductive Artifact : Type :=
  | Keyfile (text : string)           (* api_keys *)
  | Hashlist (hashes : list string).  (* token_hashes.json *)

(** What the artifact of [auth_mode] must hold for a record collection. *)
Definition derived (auth_mode : AuthMode) (ts : list TokenRecord.t) : Artifact :=
  match auth_mode with
  | PLAINTEXT => Keyfile (one_per_line (active_secrets TokenRecord.value ts))
  | HASHED => Hashlist (active_secrets TokenRecord.hash ts)
  end.

(** The artifact of [auth_mode] as it is on disk. *)
Definition artifact_of (auth_mode : AuthMode) (fs : FS) : option Artifact :=
  match fs, auth_mode with
  | Some d, PLAINTEXT => option_map Keyfile (api_keys d)
  | Some d, HASHED => option_map Hashlist (token_hashes_json d)
  | None, _ => None
  end.

Definition is_active (t : TokenRecord.t) : bool := negb (TokenRecord.revoked t).

Definition has_id (token_id : string) (t : TokenRecord.t) : bool :=
  String.eqb (TokenRecord.id t) token_id.

(** The first element satisfying [P], with what precedes and follows it. *)
Fixpoint split_first {A} (P : A -> bool) (l : list A) : option (list A * A * list A) :=
  match l with
  | [] => None
  | x :: rest =>
      if P x then Some ([], x, rest)
      else match split_first P rest with
           | Some (l1, y, l2) => Some (x :: l1, y, l2)
           | None => None
           end
  end.

(** The store with [tokens.json] holding the empty collection and the
    other files as they are. *)
Definition with_empty_collection (fs : FS) : FS :=
  let d := default empty_dir fs in
  Some (mkSecretsDir (Some []) (api_keys d) (token_hashes_json d)).

(** What [_save tokens] followed by [_sync auth_mode tokens] leaves on disk. *)
Definition written (auth_mode : AuthMode) (ts : list TokenRecord.t) (fs : FS) : FS :=
  let d := default empty_dir fs in
  match auth_mode with
  | PLAINTEXT =>
      Some (mkSecretsDir (Some ts)
              (Some (String.concat newline (TokenStore.active_values ts) ++ newline)%string)
              (token_hashes_json d))
  | HASHED =>
      Some (mkSecretsDir (Some ts) (api_keys d) (Some (TokenStore.active_hashes ts)))
  end.

(** How position [i] of a run was passed, from the world [w] in which the
    runner reached it to the world [w'] in which it left it: the skip
    predicate was absent or was evaluated, once; when it gave true nothing
    else was called; otherwise [fn] was called, once, and the value it
    returned is what the runner stored in the step's [result]. *)
Definition visited_as {Host} (i : nat) (step : Step Host) (w w' : World Host)
    (v : Visit) : Prop :=
  exists skip w_s,
    should_skip step w = (Ok skip, w_s)
    /\ if skip then v = Skipped i /\ results w' = results w_s
       else exists w_call val w_fn,
           results w_call = results w_s
           /\ fn step w_call = (Ok val, w_fn)
           /\ v = Executed i val
           /\ results w' = <[addr step := val]> (results w_fn)
           /\ result_of (addr step) w' = val.

(** The records appended to [tokens.json] between two states. *)
Definition new_records {Host} (before after : Machine Host) : list TokenRecord.t :=
  drop (length (tokens_of (secrets before))) (tokens_of (secrets after)).

(** [n] invocations of [_ensure_first_token] in a row, nothing else
    happening in between: for each, the state before, the outcome and the
    state after. *)
Fixpoint invocations {Host} (token_hex token_urlsafe : nat -> string)
    (isoformat : Z -> string) (n : nat) (cfg : Config) (mc : Machine Host)
    : list (Machine Host * Result TokenRuntime.t * Machine Host) :=
  match n with
  | O => []
  | S n' =>
      let '(r, mc') := _ensure_first_token token_hex token_urlsafe isoformat cfg mc in
      (mc, r, mc') :: invocations token_hex token_urlsafe isoformat n' cfg mc'
  end.

(** An invocation created a permanent token: a record was appended and
    the caller was not told that it is temporary. *)
Definition created_permanent {Host}
    (inv : Machine Host * Result TokenRuntime.t * Machine Host) : bool :=
  let '(before, r, after) := inv in
  negb (Nat.eqb (length (new_records before after)) 0)
  && match r with
     | Ok rt => is_None (TokenRuntime.temporary_id rt)
     | Raise _ => true
     end.

(** [cfg.api_token] is a value that [create_token] rejects. *)
Definition rejected (cfg : Config) : Prop :=
  truthy (api_token cfg) = true
  /\ str_truthy (strip (default EmptyString (api_token cfg))) = false.

(** [m] leaves the [result] field of the object at [a] as it is,
    whether it returns or raises. *)
Definition preserves_result {Host A} (a : nat) (m : M (World Host) A) : Prop :=
  forall w r w', m w = (r, w') -> results w' !! a = results w !! a.

(** [m] maintains [I], whether it returns or raises. *)
Definition maintains {Host A} (I : World Host -> Prop) (m : M (World Host) A) : Prop :=
  forall w r w', I w -> m w = (r, w') -> I w'.

(** The [result] of the bootstrap-token step is still unset, or it is a
    TokenRuntime that [_ensure_first_token] returned. *)
Definition token_result_genuine {Host} (token_hex token_urlsafe : nat -> string)
    (isoformat : Z -> string) (cfg : Config) (w : World Host) : Prop :=
  results w !! token_step_addr = None
  \/ exists rt (mc mc' : Machine Host),
      results w !! token_step_addr = Some (VTokenRuntime rt)
      /\ _ensure_first_token token_hex token_urlsafe isoformat cfg mc = (Ok rt, mc').

(* ===================================================================== *)
(** ** Data of the worked instances *)
(* ===================================================================== *)

Definition ex_now : string := "2026-01-01T00:00:00+00:00".

Definition ex_token_hex (n : nat) : string :=
  match n with
  | 0%nat => "0123456789ab"
  | 2%nat => "a1b2c3d4e5f6"
  | _ => "ffeeddccbbaa"
  end.

Definition ex_token_urlsafe (n : nat) : string :=
  "AbCdEfGhIjKlMnOpQrStUvWxYz0123456789-_AbCdEfGhIjKlMnOpQrStUvWxYz".

Definition ex_isoformat (t : Z) : string := ex_now.

(** Collaborators that succeed and do nothing. *)
Definition ex_external (c : Collaborator) (cfg : Config) (args : list Value)
    : M (Machine unit) Value :=
  ret VNone.

Definition ex_cfg : Config :=
  mkConfig HASHED "default" None false true true false None.

(** A store left by an earlier hashed-mode deployment: one active record,
    no plaintext. *)
Definition ex_existing : TokenRecord.t :=
  TokenRecord.mk "tk_00000000aaaa" "existing" ex_now false None None
    (Some (sha256_hex "sk-old")).

Definition ex_revoked : TokenRecord.t :=
  TokenRecord.mk "tk_00000000bbbb" "old" ex_now true (Some ex_now) None
    (Some (sha256_hex "sk-older")).

Definition ex_store : FS :=
  Some (mkSecretsDir (Some [ex_existing; ex_revoked]) None (Some [sha256_hex "sk-old"])).

Definition ex_machine (fs : FS) : Machine unit := mkMachine fs [] [] 0 0 tt.

Definition ex_world : World unit := mkWorld (ex_machine ex_store) ∅ 0.

Definition ex_steps : list (Step unit) :=
  [ mkStep "first" (ret (VStr "done")) None 0;
    mkStep "second" (ret VNone) (Some (ret true)) 1;
    mkStep "third" (v <- get_result 0 ;; ret v) (Some (ret false)) 2 ].

(** The probe of [test_pick_free_bind_port_moves_to_next_available]. *)
Definition ex_probe (host : string) (port : Z) : bool := port =? 3002.

(* ===================================================================== *)
(** ** Vocabulary of the further properties: the store *)
(* ===================================================================== *)

(** A successful mutation of the store in [auth_mode], from [fs] to [fs']. *)
Inductive mutation (auth_mode : AuthMode) (fs fs' : FS) : Prop :=
  | by_create_token name value hex urlsafe now r :
      TokenStore.create_token auth_mode name value hex urlsafe now fs = (Ok r, fs') ->
      mutation auth_mode fs fs'
  | by_revoke_token token_id now r :
      TokenStore.revoke_token auth_mode token_id now fs = (Ok r, fs') ->
      mutation auth_mode fs fs'.

(** [b] is [a] as it was, or [a] was active and [b] is [a] revoked. *)
Definition same_or_revoked (a b : TokenRecord.t) : Prop :=
  b = a
  \/ (TokenRecord.revoked a = false /\ exists now, b = TokenRecord.set_revoked now a).

(** [revoked_at] is set exactly when [revoked] is. *)
Definition revocation_consistent (t : TokenRecord.t) : Prop :=
  TokenRecord.revoked t = true <-> TokenRecord.revoked_at t <> None.

Definition other_mode (auth_mode : AuthMode) : AuthMode :=
  match auth_mode with PLAINTEXT => HASHED | HASHED => PLAINTEXT end.

(* ===================================================================== *)
(** ** tokens.py: records as JSON *)
(* ===================================================================== *)

(** What [json.loads] returns and [json.dumps] takes. *)
#[local] Unset Elimination Schemes.
Inductive json : Type :=
  | JNull
  | JBool (b : bool)
  | JNum (n : Z)
  | JStr (s : string)
  | JArr (items : list json)
  | JObj (fields : gmap string json).
#[local] Set Elimination Schemes.

(** A [TokenRecord] instance as Python holds it: the dataclass does not
    check its fields against their annotations, so each holds whatever it
    was given. *)
Module TokenObject.
Record t : Type := mk {
  id : json;
  name : json;
  created_at : json;
  revoked : json;
  revoked_at : json;
  value : json;
  hash : json
}.
End TokenObject.

Definition json_of_optional (v : option string) : json :=
  match v with Some s => JStr s | None => JNull end.

(** A well-typed record as an instance. *)
Definition instance_of (r : TokenRecord.t) : TokenObject.t :=
  TokenObject.mk (JStr (TokenRecord.id r)) (JStr (TokenRecord.name r))
    (JStr (TokenRecord.created_at r)) (JBool (TokenRecord.revoked r))
    (json_of_optional (TokenRecord.revoked_at r))
    (json_of_optional (TokenRecord.value r))
    (json_of_optional (TokenRecord.hash r)).

Definition optional_of_json (j : json) : option (option string) :=
  match j with
  | JNull => Some None
  | JStr s => Some (Some s)
  | _ => None
  end.

(** The well-typed record that an instance is, if it is one. *)
Definition record_of (o : TokenObject.t) : option TokenRecord.t :=
  match TokenObject.id o, TokenObject.name o, TokenObject.created_at o,
        TokenObject.revoked o, optional_of_json (TokenObject.revoked_at o),
        optional_of_json (TokenObject.value o), optional_of_json (TokenObject.hash o) with
  | JStr i, JStr n, JStr c, JBool r, Some ra, Some v, Some h =>
      Some (TokenRecord.mk i n c r ra v h)
  | _, _, _, _, _, _, _ => None
  end.

(** [TokenRecord._to_dict], that is [asdict(self)]. *)
Definition _to_dict (o : TokenObject.t) : gmap string json :=
  <["id" := TokenObject.id o]>
  (<["name" := TokenObject.name o]>
  (<["created_at" := TokenObject.created_at o]>
  (<["revoked" := TokenObject.revoked o]>
  (<["revoked_at" := TokenObject.revoked_at o]>
  (<["value" := TokenObject.value o]>
  (<["hash" := TokenObject.hash o]> ∅)))))).

(** [d[key]] on a dict. *)
Definition subscript (d : gmap string json) (key : string) : Result json :=
  match d !! key with
  | Some v => Ok v
  | None => Raise (KeyError (Text key))
  end.

(** [d.get(key, dflt)] on a dict. *)
Definition dict_get (d : gmap string json) (key : string) (dflt : json) : json :=
  default dflt (d !! key).

(** [TokenRecord._from_dict]: the arguments are evaluated in order, so the
    first missing key among ["id"], ["name"], ["created_at"] is the one the
    [KeyError] names. *)
Definition _from_dict (d : gmap string json) : Result TokenObject.t :=
  match subscript d "id" with
  | Raise e => Raise e
  | Ok i =>
      match subscript d "name" with
      | Raise e => Raise e
      | Ok n =>
          match subscript d "created_at" with
          | Raise e => Raise e
          | Ok c =>
              Ok (TokenObject.mk i n c
                    (dict_get d "revoked" (JBool false))
                    (dict_get d "revoked_at" JNull)
                    (dict_get d "value" JNull)
                    (dict_get d "hash" JNull))
          end
      end
  end.

(** [_from_dict(d)] where [d] is one element of the ["tokens"] value: only
    a dict can be subscripted with a string. *)
Definition from_item (item : json) : Result TokenObject.t :=
  match item with
  | JObj d => _from_dict d
  | _ => Raise (OtherException "TypeError" (Text "indices must be integers"))
  end.

(** The list comprehension of [_load]: it stops at the first element that
    raises. *)
Fixpoint from_items (items : list json) : Result (list TokenObject.t) :=
  match items with
  | [] => Ok []
  | item :: rest =>
      match from_item item with
      | Raise e => Raise e
      | Ok o =>
          match from_items rest with
          | Raise e => Raise e
          | Ok os => Ok (o :: os)
          end
      end
  end.

(** [[TokenRecord._from_dict(d) for d in raw.get("tokens", [])]] where
    [raw] is what [json.loads] returned.  Iterating a dict gives its keys
    and iterating a string its characters, none of which can be
    subscripted with ["id"]; [None], booleans and numbers cannot be
    iterated. *)
Definition load_document (raw : json) : Result (list TokenObject.t) :=
  match raw with
  | JObj d =>
      match dict_get d "tokens" (JArr []) with
      | JArr items => from_items items
      | JObj keys =>
          if bool_decide (keys = ∅) then Ok []
          else Raise (OtherException "TypeError" (Text "string indices must be integers"))
      | JStr s =>
          if str_truthy s
          then Raise (OtherException "TypeError" (Text "string indices must be integers"))
          else Ok []
      | _ => Raise (OtherException "TypeError" (Text "object is not iterable"))
      end
  | _ => Raise (AttributeError (Text "object has no attribute 'get'"))
  end.

(** The argument of [json.dumps] in [_save]. *)
Definition save_document (tokens : list TokenObject.t) : json :=
  JObj {[ "tokens" := JArr (map (fun t => JObj (_to_dict t)) tokens) ]}.

(* ===================================================================== *)
(** ** Vocabulary of the further properties: the pipeline *)
(* ===================================================================== *)

(** [m] leaves the progress bar's counter as it is, whether it returns or
    raises. *)
Definition keeps_progress {Host A} (m : M (World Host) A) : Prop :=
  forall w r w', m w = (r, w') -> progress w' = progress w.

(** The runner got through the position (skipped it or executed it). *)
Definition completed (v : Visit) : bool :=
  match v with
  | Skipped _ | Executed _ _ => true
  | Failed _ _ => false
  end.

(** A step whose predicate and action do not touch the progress bar. *)
Definition bar_free {Host} (step : Step Host) : Prop :=
  keeps_progress (should_skip step) /\ keeps_progress (fn step).


(* ===================================================================== *)
(** ** Data of the further worked instances *)
(* ===================================================================== *)

(** A store left by a plaintext-mode deployment: one active record with
    its plaintext. *)
Definition ex_plain : TokenRecord.t :=
  TokenRecord.mk "tk_00000000cccc" "default" ex_now false None (Some "sk-plain") None.

Definition ex_plain_store : FS :=
  Some (mkSecretsDir (Some [ex_plain]) (Some ("sk-plain" +:+ newline)) None).

(** Collaborators that succeed, with both model files on disk. *)
Definition ex_disk_external (c : Collaborator) (cfg : Config) (args : list Value)
    : M (Machine unit) Value :=
  match c with
  | Find_gguf_on_disk role => ret (VObject role)
  | _ => ret VNone
  end.

(** Plaintext mode, explicit token, [--skip-download], TLS. *)
Definition ex_cfg_skip : Config :=
  mkConfig PLAINTEXT "default" (Some "sk-explicit-token") true true true true
    (Some "example.org").

(** A record's dict as an older version could have written it: the three
    required keys only. *)
Definition ex_dict : gmap string json :=
  {[ "id" := JStr "tk_00000000cccc"; "name" := JStr "default";
     "created_at" := JStr ex_now ]}.

(** Two steps, the second of which raises. *)
Definition ex_failing_steps : list (Step unit) :=
  [ mkStep "first" (ret (VStr "done")) None 0;
    mkStep "second" (raise (OtherException "RuntimeError" (Text "boom"))) None 1;
    mkStep "third" (ret VNone) None 2 ].

(** Only the LLM file is on disk. *)
Definition ex_llm_only_external (c : Collaborator) (cfg : Config) (args : list Value)
    : M (Machine unit) Value :=
  match c with
  | Find_gguf_on_disk role => if String.eqb role "llm" then ret (VObject role) else ret VNone
  | _ => ret VNone
  end.

(** [--api-token " "]: a token that [create_token] rejects. *)
Definition ex_cfg_blank : Config :=
  mkConfig PLAINTEXT "default" (Some " ") false true true false None.
(* ===================================================================== *)
(** * Properties *)
(* ===================================================================== *)

Local Close Scope string_scope.

(** ** SHA-256 test vectors (FIPS 180-4, appendix) *)

Example sha256_constants :
  length SHA256.K = 64%nat
  /\ SHA256.K = map (fun p => SHA256.wrap32 (SHA256.icbrt_bits 36 (p * 2 ^ 96) 0)) SHA256.primes
  /\ firstn 2 SHA256.K = [0x428a2f98; 0x71374491]
  /\ List.last SHA256.K 0 = 0xc67178f2
  /\ firstn 2 SHA256.H0 = [0x6a09e667; 0xbb67ae85]
  /\ List.last SHA256.H0 0 = 0x5be0cd19.
Proof. vm_compute. repeat split. Qed.

Example sha256_empty :
  SHA256.hexdigest [] = "e3b0c44298fc1c149afbf4c8996fb92427ae41e4649b934ca495991b7852b855".
Proof. vm_compute. reflexivity. Qed.

Example sha256_abc :
  sha256_hex "abc" = "ba7816bf8f01cfea414140de5dae2223b00361a396177a9cb410ff61f20015ad".
Proof. vm_compute. reflexivity. Qed.

Example sha256_two_blocks :
  sha256_hex "abcdbcdecdefdefgefghfghighijhijkijkljklmklmnlmnomnopnopq"
  = "248d6a61d20638b8e5c026930c3e6039a33ce45964ff2167f6ecedd419db06c1".
Proof. vm_compute. reflexivity. Qed.

(** ** Strings *)

Example strip_example : strip (" " +:+ newline +:+ "a b" +:+ newline) = "a b".
Proof. reflexivity. Qed.

Lemma lstrip_nonspace c s : isspace c = false -> lstrip (String c s) = String c s.
Proof. intros H. simpl. now rewrite H. Qed.

Lemma rstrip_nonempty c s : isspace c = false -> rstrip (String c s) <> EmptyString.
Proof.
  intros H. simpl. destruct (rstrip s); [rewrite H|]; discriminate.
Qed.

(** A generated value ["sk-" + ...] is never blank. *)
Lemma generated_not_blank urlsafe : str_truthy (strip ("sk-" +:+ urlsafe)) = true.
Proof.
  unfold strip. change ("sk-" +:+ urlsafe) with (String "s" ("k-" +:+ urlsafe)).
  rewrite lstrip_nonspace by reflexivity.
  pose proof (rstrip_nonempty "s" ("k-" +:+ urlsafe) eq_refl) as H.
  destruct (rstrip _); [congruence | reflexivity].
Qed.

Lemma raw_value_absent urlsafe : TokenStore.raw_value_of None urlsafe = ("sk-" ++ urlsafe)%string.
Proof. reflexivity. Qed.

Lemma raw_value_explicit c s urlsafe :
  TokenStore.raw_value_of (Some (String c s)) urlsafe = String c s.
Proof. reflexivity. Qed.

(** ** The store's file operations *)

Lemma load_eq fs : TokenStore._load fs = (Ok (tokens_of fs), fs).
Proof. destruct fs as [[[ts|] k h]|]; reflexivity. Qed.

Lemma save_sync_eq auth_mode ts fs :
  (TokenStore._save ts ;;; TokenStore._sync auth_mode (Some ts)) fs
  = (Ok tt, written auth_mode ts fs).
Proof. destruct fs as [[j k h]|], auth_mode; reflexivity. Qed.

Lemma tokens_of_written auth_mode ts fs : tokens_of (written auth_mode ts fs) = ts.
Proof. destruct auth_mode; reflexivity. Qed.

Lemma active_values_secrets ts :
  TokenStore.active_values ts = active_secrets TokenRecord.value ts.
Proof.
  unfold TokenStore.active_values.
  induction ts as [|t rest IH]; [reflexivity|].
  simpl. destruct (TokenRecord.revoked t); simpl; [exact IH|].
  destruct (TokenRecord.value t) as [[|c v]|] eqn:E; simpl; rewrite ?E; simpl;
    now rewrite ?IH.
Qed.

Lemma active_hashes_secrets ts :
  TokenStore.active_hashes ts = active_secrets TokenRecord.hash ts.
Proof.
  unfold TokenStore.active_hashes.
  induction ts as [|t rest IH]; [reflexivity|].
  simpl. destruct (TokenRecord.revoked t); simpl; [exact IH|].
  destruct (TokenRecord.hash t) as [[|c v]|] eqn:E; simpl; rewrite ?E; simpl;
    now rewrite ?IH.
Qed.

Lemma append_cons c (s t : string) : (String c s ++ t)%string = String c (s ++ t).
Proof. reflexivity. Qed.

Lemma string_app_assoc (a b c : string) : ((a ++ b) ++ c = a ++ (b ++ c))%string.
Proof.
  induction a as [|x a IH]; [reflexivity|].
  now rewrite !append_cons, IH.
Qed.

Lemma join_newline ls : (String.concat newline ls ++ newline)%string = one_per_line ls.
Proof.
  induction ls as [|x [|y rest] IH]; [reflexivity | reflexivity |].
  change (String.concat newline (x :: y :: rest))
    with (x ++ newline ++ String.concat newline (y :: rest))%string.
  change (one_per_line (x :: y :: rest))
    with (x ++ newline ++ one_per_line (y :: rest))%string.
  rewrite <- IH. now rewrite !string_app_assoc.
Qed.

Lemma split_lines_app s t :
  newline_free s = true ->
  split_lines (s +:+ newline +:+ t) = s :: split_lines t.
Proof.
  unfold split_lines. induction s as [|c s IH]; intros H.
  - change ("" +:+ newline +:+ t) with (String (ascii_of_nat 10) t). simpl.
    now destruct (split_newline t).
  - simpl in H. apply andb_true_iff in H as [Hc Hs].
    rewrite append_cons. simpl. specialize (IH Hs).
    destruct (split_newline (s +:+ newline +:+ t)) as [cur rest].
    apply negb_true_iff in Hc. rewrite Hc. now injection IH as -> ->.
Qed.

(** When no secret holds a newline, the lines of the file are the secrets. *)
Lemma file_lines_one_per_line vs :
  Forall (fun v => str_truthy v = true /\ newline_free v = true) vs ->
  file_lines (one_per_line vs) = vs.
Proof.
  unfold file_lines. induction 1 as [|v vs [Hv Hn] Hvs IH]; [reflexivity|].
  destruct vs as [|v' vs'].
  - change (one_per_line [v]) with (v +:+ newline +:+ "").
    rewrite split_lines_app by assumption. simpl. now rewrite Hv.
  - change (one_per_line (v :: v' :: vs')) with (v +:+ newline +:+ one_per_line (v' :: vs')).
    rewrite split_lines_app by assumption.
    cbn [List.filter]. rewrite Hv. now rewrite IH.
Qed.

Lemma artifact_written auth_mode ts fs :
  artifact_of auth_mode (written auth_mode ts fs) = Some (derived auth_mode ts).
Proof.
  destruct auth_mode; simpl.
  - now rewrite join_newline, active_values_secrets.
  - now rewrite active_hashes_secrets.
Qed.

(** ** Searching the record list *)

Lemma split_first_Some {A} (P : A -> bool) l l1 x l2 :
  split_first P l = Some (l1, x, l2) ->
  l = l1 ++ x :: l2 /\ P x = true /\ Forall (fun y => P y = false) l1.
Proof.
  revert l1. induction l as [|a l IH]; intros l1 H; [discriminate|].
  simpl in H. destruct (P a) eqn:Pa.
  - inversion H; subst. auto.
  - destruct (split_first P l) as [[[m1 y] m2]|]; [|discriminate].
    inversion H; subst. destruct (IH m1 eq_refl) as (-> & Hx & Hl).
    repeat split; auto.
Qed.

Lemma split_first_None {A} (P : A -> bool) l :
  split_first P l = None -> Forall (fun y => P y = false) l.
Proof.
  induction l as [|a l IH]; intros H; [constructor|].
  simpl in H. destruct (P a) eqn:Pa; [discriminate|].
  destruct (split_first P l) as [[[m1 y] m2]|]; [discriminate|].
  constructor; auto.
Qed.

Lemma split_first_intro {A} (P : A -> bool) l1 x l2 :
  Forall (fun y => P y = false) l1 -> P x = true ->
  split_first P (l1 ++ x :: l2) = Some (l1, x, l2).
Proof.
  induction 1 as [|a l1 Ha _ IH]; intros Hx; simpl.
  - now rewrite Hx.
  - now rewrite Ha, IH.
Qed.

Lemma split_first_absent {A} (P : A -> bool) l :
  Forall (fun y => P y = false) l -> split_first P l = None.
Proof. induction 1 as [|a l Ha _ IH]; simpl; [reflexivity | now rewrite Ha, IH]. Qed.

(** ** create_token *)

Lemma create_token_rejected auth_mode name value hex urlsafe now fs :
  str_truthy (strip (TokenStore.raw_value_of value urlsafe)) = false ->
  TokenStore.create_token auth_mode name value hex urlsafe now fs
  = (Raise (ValueError Token_value_must_not_be_empty), fs).
Proof. intros H. unfold TokenStore.create_token. now rewrite H. Qed.

Lemma create_token_accepted auth_mode name value hex urlsafe now fs :
  let raw := TokenStore.raw_value_of value urlsafe in
  let token_id := ("tk_" ++ hex)%string in
  let stored :=
    match auth_mode with
    | HASHED => TokenRecord.mk token_id name now false None None (Some (sha256_hex raw))
    | PLAINTEXT => TokenRecord.mk token_id name now false None (Some raw) None
    end in
  let display :=
    match auth_mode with
    | HASHED => TokenRecord.mk token_id name now false None (Some raw) (Some (sha256_hex raw))
    | PLAINTEXT => stored
    end in
  str_truthy (strip raw) = true ->
  TokenStore.create_token auth_mode name value hex urlsafe now fs
  = (Ok display, written auth_mode (tokens_of fs ++ [stored]) fs).
Proof.
  intros raw token_id stored display H. unfold TokenStore.create_token.
  fold raw. rewrite H. subst stored display.
  destruct fs as [[[ts|] k h]|], auth_mode; reflexivity.
Qed.

Lemma active_secrets_app field l1 l2 :
  active_secrets field (l1 ++ l2) = active_secrets field l1 ++ active_secrets field l2.
Proof.
  induction l1 as [|t l1 IH]; [reflexivity|].
  simpl. destruct (TokenRecord.revoked t); [exact IH|].
  destruct (field t) as [[|c v]|]; simpl; now rewrite IH.
Qed.

Lemma active_secrets_revoked field now t rest :
  active_secrets field (TokenRecord.set_revoked now t :: rest) = active_secrets field rest.
Proof. reflexivity. Qed.

(** ** revoke_token and show_token as searches *)

Lemma revoke_loop_eq auth_mode token_id now before rest fs :
  TokenStore.revoke_loop auth_mode token_id now before rest fs =
  match split_first (has_id token_id) rest with
  | None => (Raise (KeyError (Token_not_found token_id)), fs)
  | Some (l1, t, l2) =>
      if TokenRecord.revoked t
      then (Raise (ValueError (Token_is_already_revoked token_id)), fs)
      else (Ok (TokenRecord.set_revoked now t),
            written auth_mode (before ++ l1 ++ TokenRecord.set_revoked now t :: l2) fs)
  end.
Proof.
  revert before. induction rest as [|a rest IH]; intros before; [reflexivity|].
  simpl. unfold has_id at 1. destruct (String.eqb (TokenRecord.id a) token_id).
  - destruct (TokenRecord.revoked a); [reflexivity|].
    destruct fs as [[j k h]|], auth_mode; reflexivity.
  - rewrite IH. destruct (split_first (has_id token_id) rest) as [[[l1 t] l2]|]; [|reflexivity].
    destruct (TokenRecord.revoked t); [reflexivity|].
    now rewrite <- app_assoc.
Qed.

Lemma revoke_token_eq auth_mode token_id now fs :
  TokenStore.revoke_token auth_mode token_id now fs =
  match split_first (has_id token_id) (tokens_of fs) with
  | None => (Raise (KeyError (Token_not_found token_id)), fs)
  | Some (l1, t, l2) =>
      if TokenRecord.revoked t
      then (Raise (ValueError (Token_is_already_revoked token_id)), fs)
      else (Ok (TokenRecord.set_revoked now t),
            written auth_mode (l1 ++ TokenRecord.set_revoked now t :: l2) fs)
  end.
Proof.
  unfold TokenStore.revoke_token, bind. rewrite load_eq. apply revoke_loop_eq.
Qed.

Lemma show_loop_eq auth_mode token_id ts (fs : FS) :
  TokenStore.show_loop auth_mode token_id ts fs =
  match split_first (has_id token_id) ts with
  | None => (Raise (KeyError (Token_not_found token_id)), fs)
  | Some (_, t, _) =>
      if AuthMode_eqb auth_mode HASHED && is_None (TokenRecord.value t)
      then (Raise (ValueError (Token_was_created_in_hashed_mode token_id)), fs)
      else (Ok t, fs)
  end.
Proof.
  induction ts as [|a ts IH]; [reflexivity|].
  simpl. unfold has_id at 1. destruct (String.eqb (TokenRecord.id a) token_id).
  - destruct (AuthMode_eqb auth_mode HASHED && is_None (TokenRecord.value a)); reflexivity.
  - rewrite IH. now destruct (split_first (has_id token_id) ts) as [[[l1 t] l2]|].
Qed.

Lemma active_tokens_eq fs :
  TokenStore.active_tokens fs = (Ok (List.filter is_active (tokens_of fs)), fs).
Proof. unfold TokenStore.active_tokens, bind. now rewrite load_eq. Qed.

Lemma revoke_token_raises_Exception auth_mode token_id now fs e fs' :
  TokenStore.revoke_token auth_mode token_id now fs = (Raise e, fs') ->
  is_Exception e = true.
Proof.
  rewrite revoke_token_eq.
  destruct (split_first (has_id token_id) (tokens_of fs)) as [[[l1 t] l2]|].
  - destruct (TokenRecord.revoked t); intros [= <- _]; reflexivity.
  - intros [= <- _]; reflexivity.
Qed.

(* ===================================================================== *)
(** ** The credential store *)
(* ===================================================================== *)

(** C1.  In hashed mode, for any name and any value that is not rejected
    (explicit, or generated when none is given), [create_token] appends to
    [tokens.json] a record whose [value] is absent and whose [hash] is the
    SHA-256 hex digest of the plaintext, and returns a record carrying that
    plaintext: the digest of the returned value is the persisted hash.  The
    hash list is rewritten and [api_keys] is not touched. *)
Theorem create_token_hashed_persists_hash_only name value hex urlsafe now fs :
  let raw := TokenStore.raw_value_of value urlsafe in
  str_truthy (strip raw) = true ->
  exists display stored fs',
    TokenStore.create_token HASHED name value hex urlsafe now fs = (Ok display, fs')
    /\ tokens_of fs' = tokens_of fs ++ [stored]
    /\ TokenRecord.value stored = None
    /\ TokenRecord.hash stored = Some (sha256_hex raw)
    /\ TokenRecord.value display = Some raw
    /\ option_map sha256_hex (TokenRecord.value display) = TokenRecord.hash stored
    /\ TokenRecord.id display = TokenRecord.id stored
    /\ TokenRecord.name stored = name
    /\ artifact_of HASHED fs' = Some (Hashlist (active_secrets TokenRecord.hash (tokens_of fs')))
    /\ artifact_of PLAINTEXT fs' = artifact_of PLAINTEXT fs.
Proof.
  intros raw H.
  pose proof (create_token_accepted HASHED name value hex urlsafe now fs H) as E.
  cbv zeta in E. fold raw in E.
  eexists _, _, _. split; [exact E|].
  rewrite tokens_of_written, (artifact_written HASHED).
  repeat split. now destruct fs as [[j k h]|].
Qed.

(** The artifact after a mutation.  After every successful [create_token]
    or [revoke_token] the artifact of the store's mode is the one derived
    from the record collection now in [tokens.json], and from nothing
    else: in plaintext mode [api_keys] is the text made of the plaintext
    values of the non-revoked records, each followed by a newline; in
    hashed mode [token_hashes.json] holds the hashes of the non-revoked
    records.  By [file_lines_one_per_line] the lines of [api_keys] are
    those values as long as none of them holds a newline. *)
Theorem mutation_rewrites_artifact auth_mode fs fs' r :
  (exists name value hex urlsafe now,
      TokenStore.create_token auth_mode name value hex urlsafe now fs = (Ok r, fs'))
  \/ (exists token_id now,
      TokenStore.revoke_token auth_mode token_id now fs = (Ok r, fs')) ->
  artifact_of auth_mode fs' = Some (derived auth_mode (tokens_of fs')).
Proof.
  intros [(name & value & hex & urlsafe & now & H) | (token_id & now & H)].
  - destruct (str_truthy (strip (TokenStore.raw_value_of value urlsafe))) eqn:S.
    + rewrite (create_token_accepted _ _ _ _ _ _ _ S) in H.
      injection H as _ <-. now rewrite tokens_of_written, artifact_written.
    + rewrite (create_token_rejected _ _ _ _ _ _ _ S) in H. discriminate.
  - rewrite revoke_token_eq in H.
    destruct (split_first _ _) as [[[l1 t] l2]|]; [|discriminate].
    destruct (TokenRecord.revoked t); [discriminate|].
    injection H as _ <-. now rewrite tokens_of_written, artifact_written.
Qed.

(** C3 (what the code does for a value that holds a newline).
    [create_token] accepts such a value, whatever the name, the identifier
    and the time: the record is active and holds the value, and
    [_sync_keyfile] joins the values with newlines without looking into
    them, so that [api_keys] has two lines for the one record, neither of
    which is its plaintext value.  The file is not "one plaintext value
    per line". *)
Theorem create_token_newline_value_spans_lines name hex urlsafe now :
  exists r fs' text,
    TokenStore.create_token PLAINTEXT name (Some ("sk-a" +:+ newline +:+ "sk-b"))
      hex urlsafe now None = (Ok r, fs')
    /\ TokenRecord.value r = Some ("sk-a" +:+ newline +:+ "sk-b")
    /\ active_secrets TokenRecord.value (tokens_of fs') = ["sk-a" +:+ newline +:+ "sk-b"]
    /\ artifact_of PLAINTEXT fs' = Some (Keyfile text)
    /\ text = "sk-a" +:+ newline +:+ "sk-b" +:+ newline
    /\ file_lines text = ["sk-a"; "sk-b"]
    /\ file_lines text <> active_secrets TokenRecord.value (tokens_of fs').
Proof.
  pose proof (create_token_accepted PLAINTEXT name (Some ("sk-a" +:+ newline +:+ "sk-b"))
                hex urlsafe now None ltac:(vm_compute; reflexivity)) as E.
  cbv zeta in E. eexists _, _, _. split; [exact E|].
  rewrite tokens_of_written, (artifact_written PLAINTEXT).
  split; [reflexivity|]. split; [reflexivity|]. split; [reflexivity|].
  split; [reflexivity|]. split; [reflexivity | discriminate].
Qed.

(** C5 (what the code does for an explicit empty value).  An explicitly
    supplied empty string is not rejected: [value or ...] takes it for an
    absent value, a secret is generated and the token is created. *)
Theorem create_token_empty_value_generates auth_mode name hex urlsafe now fs :
  exists display fs',
    TokenStore.create_token auth_mode name (Some "") hex urlsafe now fs = (Ok display, fs')
    /\ TokenRecord.value display = Some ("sk-" +:+ urlsafe)
    /\ length (tokens_of fs') = S (length (tokens_of fs))
    /\ TokenStore.create_token auth_mode name (Some "") hex urlsafe now fs
       = TokenStore.create_token auth_mode name None hex urlsafe now fs.
Proof.
  pose proof (create_token_accepted auth_mode name (Some "") hex urlsafe now fs
                (generated_not_blank urlsafe)) as E.
  cbv zeta in E. eexists _, _. split; [exact E|].
  rewrite tokens_of_written, length_app, Nat.add_comm.
  repeat split. now destruct auth_mode.
Qed.

(** The rejection that the code does perform: an explicit value that is
    not empty and consists only of whitespace raises [ValueError], and
    nothing is written. *)
Lemma create_token_blank_value_rejected auth_mode name c s hex urlsafe now fs :
  strip (String c s) = "" ->
  TokenStore.create_token auth_mode name (Some (String c s)) hex urlsafe now fs
  = (Raise (ValueError Token_value_must_not_be_empty), fs).
Proof.
  intros H. apply create_token_rejected. rewrite raw_value_explicit. now rewrite H.
Qed.

(** C7.  [revoke_token] on an id that no record has raises [KeyError]; when
    the first record with that id is already revoked it raises
    [ValueError] and the store is unchanged; when it is active, the record
    is marked revoked with [revoked_at] set, in place, and from then on the
    active tokens and the derived artifact are those of the collection
    without that record. *)
Theorem revoke_token_outcomes auth_mode token_id now fs :
  (Forall (fun t => has_id token_id t = false) (tokens_of fs) ->
     TokenStore.revoke_token auth_mode token_id now fs
     = (Raise (KeyError (Token_not_found token_id)), fs))
  /\ (forall l1 t l2,
        tokens_of fs = l1 ++ t :: l2 ->
        Forall (fun x => has_id token_id x = false) l1 ->
        has_id token_id t = true ->
        (TokenRecord.revoked t = true ->
           TokenStore.revoke_token auth_mode token_id now fs
           = (Raise (ValueError (Token_is_already_revoked token_id)), fs))
        /\ (TokenRecord.revoked t = false ->
            exists t' fs',
              TokenStore.revoke_token auth_mode token_id now fs = (Ok t', fs')
              /\ TokenRecord.revoked t' = true
              /\ TokenRecord.revoked_at t' = Some now
              /\ TokenRecord.id t' = TokenRecord.id t
              /\ TokenRecord.value t' = TokenRecord.value t
              /\ TokenRecord.hash t' = TokenRecord.hash t
              /\ tokens_of fs' = l1 ++ t' :: l2
              /\ TokenStore.active_tokens fs' = (Ok (List.filter is_active (l1 ++ l2)), fs')
              /\ ~ In t' (List.filter is_active (l1 ++ l2))
              /\ artifact_of auth_mode fs' = Some (derived auth_mode (l1 ++ l2)))).
Proof.
  split.
  - intros H. rewrite revoke_token_eq. now rewrite (split_first_absent _ _ H).
  - intros l1 t l2 E Hl1 Ht. rewrite revoke_token_eq, E.
    rewrite (split_first_intro _ _ _ _ Hl1 Ht). split; intros R; rewrite R; [reflexivity|].
    eexists _, _. split; [reflexivity|].
    rewrite active_tokens_eq, tokens_of_written, artifact_written.
    repeat split.
    + rewrite !List.filter_app. reflexivity.
    + intros [_ I]%List.filter_In. discriminate.
    + f_equal. destruct auth_mode; simpl;
        now rewrite !active_secrets_app, active_secrets_revoked.
Qed.

(** C8.  [show_token] raises [KeyError] when no record has the id; raises
    [ValueError] when the store is in hashed mode and the first record with
    the id has no stored plaintext; otherwise returns that record as
    stored, plaintext included.  The store is never modified. *)
Theorem show_token_outcomes auth_mode token_id fs :
  (Forall (fun t => has_id token_id t = false) (tokens_of fs) ->
     TokenStore.show_token auth_mode token_id fs
     = (Raise (KeyError (Token_not_found token_id)), fs))
  /\ (forall l1 t l2,
        tokens_of fs = l1 ++ t :: l2 ->
        Forall (fun x => has_id token_id x = false) l1 ->
        has_id token_id t = true ->
        (auth_mode = HASHED -> TokenRecord.value t = None ->
           TokenStore.show_token auth_mode token_id fs
           = (Raise (ValueError (Token_was_created_in_hashed_mode token_id)), fs))
        /\ (auth_mode = PLAINTEXT \/ TokenRecord.value t <> None ->
            TokenStore.show_token auth_mode token_id fs = (Ok t, fs))).
Proof.
  unfold TokenStore.show_token, bind. rewrite load_eq, show_loop_eq. split.
  - intros H. now rewrite (split_first_absent _ _ H).
  - intros l1 t l2 E Hl1 Ht. rewrite E, (split_first_intro _ _ _ _ Hl1 Ht). split.
    + intros -> ->. reflexivity.
    + intros [-> | V]; [reflexivity|].
      destruct (TokenRecord.value t); [|congruence].
      now rewrite andb_false_r.
Qed.

(** C10.  With [tokens.json] missing (fresh secrets directory, or none),
    the store reads as the empty collection: [list_tokens] and
    [active_tokens] return the empty list, [show_token] and [revoke_token]
    raise [KeyError] for every id, and the first [create_token] creates the
    directory, the record file with that one record and the artifact of the
    mode, exactly as it does on a store holding the empty collection. *)
Theorem missing_tokens_json_reads_as_empty auth_mode fs :
  tokens_json_missing fs ->
  TokenStore.list_tokens fs = (Ok [], fs)
  /\ TokenStore.active_tokens fs = (Ok [], fs)
  /\ (forall token_id,
        TokenStore.show_token auth_mode token_id fs
        = (Raise (KeyError (Token_not_found token_id)), fs))
  /\ (forall token_id now,
        TokenStore.revoke_token auth_mode token_id now fs
        = (Raise (KeyError (Token_not_found token_id)), fs))
  /\ (forall name value hex urlsafe now,
        str_truthy (strip (TokenStore.raw_value_of value urlsafe)) = true ->
        exists display stored d',
          TokenStore.create_token auth_mode name value hex urlsafe now fs
          = (Ok display, Some d')
          /\ tokens_json d' = Some [stored]
          /\ artifact_of auth_mode (Some d') = Some (derived auth_mode [stored])
          /\ TokenStore.create_token auth_mode name value hex urlsafe now
               (with_empty_collection fs)
             = (Ok display, Some d')).
Proof.
  intros Hm.
  assert (tokens_of fs = []) as T.
  { destruct fs as [[j k h]|]; [simpl in Hm; subst|]; reflexivity. }
  repeat split.
  - unfold TokenStore.list_tokens. now rewrite load_eq, T.
  - now rewrite active_tokens_eq, T.
  - intros token_id. unfold TokenStore.show_token, bind.
    now rewrite load_eq, show_loop_eq, T.
  - intros token_id now. now rewrite revoke_token_eq, T.
  - intros name value hex urlsafe now S.
    pose proof (create_token_accepted auth_mode name value hex urlsafe now fs S) as E.
    pose proof (create_token_accepted auth_mode name value hex urlsafe now
                  (with_empty_collection fs) S) as E0.
    cbv zeta in E, E0. rewrite T in E. simpl app in E.
    change (tokens_of (with_empty_collection fs)) with (@nil TokenRecord.t) in E0.
    simpl app in E0.
    destruct auth_mode, fs as [[j k h]|]; simpl in *; subst;
      eexists _, _, _; (split; [exact E|]); (split; [reflexivity|]);
      (split; [|exact E0]);
      now rewrite ?join_newline, ?active_values_secrets, ?active_hashes_secrets.
Qed.

(* ===================================================================== *)
(** ** The port allocator *)
(* ===================================================================== *)

Lemma pick_free_bind_port_sound fuel probe host P avoid p :
  pick_free_bind_port fuel probe host P avoid = Some p ->
  P <= p /\ port_ok probe host avoid p
  /\ forall q, P <= q < p -> ~ port_ok probe host avoid q.
Proof.
  revert P. induction fuel as [|fuel IH]; intros P H; [discriminate|].
  simpl in H. destruct (bool_decide (P ∈ avoid)) eqn:A.
  - apply bool_decide_eq_true in A. destruct (IH _ H) as (Hle & Hok & Hmin).
    split; [lia|]. split; [exact Hok|]. intros q Hq [Hq1 Hq2].
    destruct (Z.eq_dec q P) as [->|]; [contradiction|].
    apply (Hmin q); [lia | split; assumption].
  - apply bool_decide_eq_false in A. destruct (probe host P) eqn:B.
    + injection H as <-. split; [lia|]. split; [split; assumption|]. intros q Hq. lia.
    + destruct (IH _ H) as (Hle & Hok & Hmin).
      split; [lia|]. split; [exact Hok|]. intros q Hq [Hq1 Hq2].
      destruct (Z.eq_dec q P) as [->|]; [congruence|].
      apply (Hmin q); [lia | split; assumption].
Qed.

Lemma pick_free_bind_port_complete fuel probe host P avoid q :
  P <= q -> port_ok probe host avoid q -> (Z.to_nat (q - P) < fuel)%nat ->
  exists p, pick_free_bind_port fuel probe host P avoid = Some p.
Proof.
  revert P. induction fuel as [|fuel IH]; intros P Hle Hok Hf; [lia|].
  simpl. destruct Hok as [Hq1 Hq2].
  destruct (bool_decide (P ∈ avoid)) eqn:A; [apply bool_decide_eq_true in A|].
  - apply IH; [|split; assumption|].
    + destruct (Z.eq_dec q P) as [->|]; [contradiction | lia].
    + destruct (Z.eq_dec q P) as [->|]; [contradiction | lia].
  - destruct (probe host P) eqn:B; [eauto|].
    apply IH; [|split; assumption|];
      (destruct (Z.eq_dec q P) as [->|]; [congruence | lia]).
Qed.

(** C9.  Whenever some port at or above the preferred one is outside the
    avoid set and free according to the probe, [pick_free_bind_port]
    returns, and what it returns is the smallest such port; the result
    depends only on its arguments and on the probe. *)
Theorem pick_free_bind_port_smallest probe host P avoid q :
  P <= q -> port_ok probe host avoid q ->
  exists p,
    (forall fuel, (Z.to_nat (q - P) < fuel)%nat ->
       pick_free_bind_port fuel probe host P avoid = Some p)
    /\ P <= p /\ (p ∉ avoid) /\ probe host p = true
    /\ (forall r, P <= r -> (r ∉ avoid) -> probe host r = true -> p <= r)
    /\ (forall fuel p', pick_free_bind_port fuel probe host P avoid = Some p' -> p' = p).
Proof.
  intros Hle Hok.
  destruct (pick_free_bind_port_complete (S (Z.to_nat (q - P))) probe host P avoid q
              Hle Hok ltac:(lia)) as [p Hp].
  destruct (pick_free_bind_port_sound _ _ _ _ _ _ Hp) as (HPp & [Hp1 Hp2] & Hmin).
  assert (forall fuel p', pick_free_bind_port fuel probe host P avoid = Some p' -> p' = p)
    as Huniq.
  { intros fuel p' Hp'.
    destruct (pick_free_bind_port_sound _ _ _ _ _ _ Hp') as (HPp' & Hok' & Hmin').
    destruct (Z.lt_trichotomy p' p) as [L | [E | L]]; [|exact E|].
    - exfalso. apply (Hmin p'); [lia | exact Hok'].
    - exfalso. apply (Hmin' p); [lia | split; assumption]. }
  exists p. repeat split; try assumption.
  - intros fuel Hf.
    destruct (pick_free_bind_port_complete fuel probe host P avoid q Hle Hok Hf) as [p' Hp'].
    now rewrite Hp', (Huniq _ _ Hp').
  - intros r Hr Hr1 Hr2. destruct (Z.le_gt_cases p r) as [|L]; [assumption|].
    exfalso. apply (Hmin r); [lia | split; assumption].
Qed.

(* ===================================================================== *)
(** ** The step runner *)
(* ===================================================================== *)

Ltac run_tail :=
  unfold bind, lift_machine, tqdm_write, log_line, bar_update, set_result,
    time_time, modify; simpl.

Section RunSteps.

Context {Host : Type}.
Implicit Types (w : World Host) (step : Step Host) (steps : list (Step Host)).

(** The observed runner is the runner. *)
Lemma run_step_observed_erase i step w :
  fst (run_step_observed i step w) = run_step step w.
Proof.
  unfold run_step_observed, run_step, bind.
  destruct (should_skip step w) as [[[|]|e] w1]; simpl; try reflexivity.
  destruct (fn step _) as [[v|e] w3]; reflexivity.
Qed.

Lemma run_steps_observed_erase i steps w :
  fst (run_steps_observed i steps w) = run_steps steps w.
Proof.
  revert i w. induction steps as [|step rest IH]; intros i w; [reflexivity|].
  simpl. unfold bind. rewrite <- run_step_observed_erase with (i := i).
  destruct (run_step_observed i step w) as [[[[]|e] w1] v]; simpl; [|reflexivity].
  rewrite <- (IH (S i) w1).
  now destruct (run_steps_observed (S i) rest w1) as [[r w2] tr].
Qed.

(** Running a list is running a prefix and then, unless it raised, the rest. *)
Lemma run_steps_app l1 l2 w :
  run_steps (l1 ++ l2) w =
  match run_steps l1 w with
  | (Ok _, w1) => run_steps l2 w1
  | (Raise e, w1) => (Raise e, w1)
  end.
Proof.
  revert w. induction l1 as [|step l1 IH]; intros w; [reflexivity|].
  simpl. unfold bind. destruct (run_step step w) as [[[]|e] w1]; [apply IH | reflexivity].
Qed.

Lemma run_steps_observed_app i l1 l2 w :
  run_steps_observed i (l1 ++ l2) w =
  match run_steps_observed i l1 w with
  | (Ok _, w1, tr1) =>
      let '(r, w2, tr2) := run_steps_observed (i + length l1) l2 w1 in
      (r, w2, tr1 ++ tr2)
  | (Raise e, w1, tr1) => (Raise e, w1, tr1)
  end.
Proof.
  revert i w. induction l1 as [|step l1 IH]; intros i w.
  - simpl. rewrite Nat.add_0_r. now destruct (run_steps_observed i l2 w) as [[r w2] tr2].
  - simpl. destruct (run_step_observed i step w) as [[[[]|e] w1] v]; [|reflexivity].
    rewrite IH. replace (S i + length l1)%nat with (i + S (length l1))%nat by lia.
    destruct (run_steps_observed (S i) l1 w1) as [[[[]|e] w2] tr1]; [|reflexivity].
    now destruct (run_steps_observed _ l2 w2) as [[r w3] tr2].
Qed.

Lemma run_step_observed_index i step w :
  visit_index (snd (run_step_observed i step w)) = i.
Proof.
  unfold run_step_observed.
  destruct (should_skip step w) as [[[|]|e] ws]; [run_tail; reflexivity | | reflexivity].
  run_tail. destruct (fn step _) as [[val|e] w3]; reflexivity.
Qed.

Lemma run_step_observed_raise i step w e w' v :
  run_step_observed i step w = (Raise e, w', v) -> v = Failed i e.
Proof.
  unfold run_step_observed.
  destruct (should_skip step w) as [[[|]|e1] ws].
  - run_tail. discriminate.
  - run_tail. destruct (fn step _) as [[val|e1] w3]; [discriminate|].
    now intros [= <- _ <-].
  - now intros [= <- _ <-].
Qed.

(** A run that returns visited every position, in order, once. *)
Lemma run_steps_observed_indices i steps w w' tr :
  run_steps_observed i steps w = (Ok tt, w', tr) ->
  map visit_index tr = seq i (length steps).
Proof.
  revert i w tr. induction steps as [|step rest IH]; intros i w tr H; simpl in H.
  - now injection H as _ <-.
  - pose proof (run_step_observed_index i step w) as Hi.
    destruct (run_step_observed i step w) as [[[[]|e] w1] v] eqn:E; [|discriminate].
    destruct (run_steps_observed (S i) rest w1) as [[r w2] tr2] eqn:E2.
    injection H as -> -> <-. simpl. f_equal; [exact Hi | now apply (IH _ _ _ E2)].
Qed.

(** A run that raised stopped at the position that raised. *)
Lemma run_steps_fail_fast i steps w e w' tr :
  run_steps_observed i steps w = (Raise e, w', tr) ->
  exists k, (k < length steps)%nat
    /\ map visit_index tr = seq i (S k)
    /\ List.last tr (Skipped 0) = Failed (i + k) e.
Proof.
  revert i w tr. induction steps as [|step rest IH]; intros i w tr H; simpl in H;
    [discriminate|].
  pose proof (run_step_observed_index i step w) as Hi.
  destruct (run_step_observed i step w) as [[[[]|e1] w1] v] eqn:E.
  - destruct (run_steps_observed (S i) rest w1) as [[r w2] tr2] eqn:E2.
    injection H as -> -> <-. destruct (IH _ _ _ E2) as (k & Hk & Hidx & Hlast).
    exists (S k). split; [simpl; lia|]. split.
    + simpl. f_equal; [exact Hi | exact Hidx].
    + destruct tr2 as [|v2 tr2]; [discriminate|].
      change (List.last (v :: v2 :: tr2) (Skipped 0)) with (List.last (v2 :: tr2) (Skipped 0)).
      rewrite Hlast. f_equal. lia.
  - injection H as -> -> <-. exists 0%nat. split; [simpl; lia|].
    apply run_step_observed_raise in E. subst v. simpl. now rewrite Nat.add_0_r.
Qed.

(** One position, passed without raising. *)
Lemma run_step_observed_visit i step w w' v :
  run_step_observed i step w = (Ok tt, w', v) -> visited_as i step w w' v.
Proof.
  unfold run_step_observed, visited_as. intros H.
  destruct (should_skip step w) as [[[|]|e] ws]; [| |discriminate].
  - exists true, ws. split; [reflexivity|].
    revert H. run_tail. intros [= <- <-]. split; reflexivity.
  - exists false, ws. split; [reflexivity|].
    revert H. run_tail.
    match goal with |- context [fn step ?wc] => set (w_call := wc) end.
    destruct (fn step w_call) as [[val|e] w3] eqn:E3; [|discriminate].
    intros [= <- <-].
    exists w_call, val, w3. split; [reflexivity|]. split; [exact E3|].
    split; [reflexivity|]. split; [reflexivity|].
    unfold result_of. simpl. now rewrite lookup_insert_eq.
Qed.

(** C4.  In a run of [run_steps] that returns, every position of the list
    is visited exactly once and in list order; and for every step whose
    skip predicate is absent or evaluates to false when the runner reaches
    it, [fn] is called once and, when the runner has passed that position,
    the step's [result] holds exactly the value [fn] returned. *)
Theorem run_steps_in_order_once_each steps w w' :
  run_steps steps w = (Ok tt, w') ->
  exists tr,
    run_steps_observed 0 steps w = (Ok tt, w', tr)
    /\ map visit_index tr = seq 0 (length steps)
    /\ forall i step, steps !! i = Some step ->
         exists w_i w_i' v,
           run_steps (take i steps) w = (Ok tt, w_i)
           /\ run_step step w_i = (Ok tt, w_i')
           /\ run_steps (take (S i) steps) w = (Ok tt, w_i')
           /\ run_steps (drop (S i) steps) w_i' = (Ok tt, w')
           /\ tr !! i = Some v
           /\ visited_as i step w_i w_i' v.
Proof.
  intros H. pose proof (run_steps_observed_erase 0 steps w) as Er. rewrite H in Er.
  destruct (run_steps_observed 0 steps w) as [[r w2] tr] eqn:O. simpl in Er.
  injection Er as -> ->. exists tr. split; [reflexivity|].
  split; [eapply run_steps_observed_indices; eassumption|].
  intros i step Hi.
  pose proof (take_drop_middle steps i step Hi) as D.
  pose proof (lookup_lt_Some _ _ _ Hi) as Hlt.
  assert (length (take i steps) = i) as Li by (rewrite length_take; lia).
  rewrite <- D, run_steps_observed_app, Li in O. simpl in O.
  destruct (run_steps_observed 0 (take i steps) w) as [[[[]|e] w_i] tr1] eqn:O1;
    [|discriminate].
  simpl in O.
  destruct (run_step_observed i step w_i) as [[[[]|e] w_i'] v] eqn:Ov; [|discriminate].
  destruct (run_steps_observed (S i) (drop (S i) steps) w_i') as [[r2 w3] tr2] eqn:O2.
  injection O as -> -> <-.
  pose proof (run_steps_observed_erase 0 (take i steps) w) as E1. rewrite O1 in E1.
  pose proof (run_step_observed_erase i step w_i) as Ev. rewrite Ov in Ev.
  pose proof (run_steps_observed_erase (S i) (drop (S i) steps) w_i') as E2.
  rewrite O2 in E2. simpl in E1, Ev, E2.
  exists w_i, w_i', v. repeat split; auto.
  - rewrite (take_S_r _ _ _ Hi), run_steps_app, <- E1. simpl. unfold bind.
    now rewrite <- Ev.
  - apply run_steps_observed_indices in O1.
    assert (length tr1 = i) as L1.
    { rewrite <- (length_map visit_index), O1, length_seq. exact Li. }
    rewrite <- L1. apply list_lookup_middle. reflexivity.
  - now apply run_step_observed_visit.
Qed.

End RunSteps.

(* ===================================================================== *)
(** ** Bootstrap token resolution *)
(* ===================================================================== *)

Section Bootstrap.

Context {Host : Type}.
Variables (token_hex token_urlsafe : nat -> string) (isoformat : Z -> string).
Implicit Types (mc : Machine Host) (cfg : Config).

Local Abbreviation ensure := (_ensure_first_token token_hex token_urlsafe isoformat).
Local Abbreviation runs_of := (invocations token_hex token_urlsafe isoformat).
Local Abbreviation active_of mc := (List.filter is_active (tokens_of (secrets mc))).

Lemma store_create_token_eq auth_mode name value mc :
  store_create_token token_hex token_urlsafe isoformat auth_mode name value mc =
  let i := urandom mc in
  let j := if truthy value then O else S i in
  match TokenStore.create_token auth_mode name value (token_hex i) (token_urlsafe j)
          (isoformat (clock mc)) (secrets mc) with
  | (r, fs) =>
      (r, mkMachine fs (console mc) (logfile mc) (clock mc)
            (if truthy value then S i else S (S i)) (host mc))
  end.
Proof.
  unfold store_create_token, bind, next_entropy, utcnow, lift_fs, ret.
  destruct (truthy value); simpl;
    now destruct (TokenStore.create_token _ _ _ _ _ _ _) as [r fs].
Qed.

Lemma raw_value_truthy value urlsafe :
  truthy value = true -> TokenStore.raw_value_of value urlsafe = default "" value.
Proof. unfold TokenStore.raw_value_of. now intros ->. Qed.

Lemma raw_value_falsy value urlsafe :
  truthy value = false -> TokenStore.raw_value_of value urlsafe = "sk-" +:+ urlsafe.
Proof. unfold TokenStore.raw_value_of. now intros ->. Qed.

Lemma new_records_same mc mc' :
  secrets mc' = secrets mc -> new_records mc mc' = [].
Proof. unfold new_records. intros ->. apply drop_all. Qed.

Lemma new_records_appended mc mc' rec :
  tokens_of (secrets mc') = tokens_of (secrets mc) ++ [rec] -> new_records mc mc' = [rec].
Proof. unfold new_records. intros ->. now rewrite drop_app_length. Qed.

(** One invocation. *)
Lemma ensure_once cfg mc r mc' :
  ensure cfg mc = (r, mc') ->
  tokens_of (secrets mc') = tokens_of (secrets mc) ++ new_records mc mc'
  /\ ((secrets mc' = secrets mc
       /\ new_records mc mc' = []
       /\ (active_of mc = [] -> (exists e, r = Raise e) /\ rejected cfg))
      \/ (exists rec rt,
            new_records mc mc' = [rec]
            /\ TokenRecord.revoked rec = false
            /\ r = Ok rt
            /\ ((active_of mc = [] /\ TokenRuntime.temporary_id rt = None /\ ~ rejected cfg)
                \/ (active_of mc <> []
                    /\ TokenRuntime.temporary_id rt = Some (TokenRecord.id rec)
                    /\ TokenRecord.name rec = "__deploy-smoke-test")))).
Proof.
  unfold _ensure_first_token. unfold bind at 1. unfold lift_fs at 1.
  rewrite active_tokens_eq.
  destruct (active_of mc) as [|a0 rest] eqn:A.
  - (* no active token: the configured token is created *)
    replace (mkMachine (secrets mc) (console mc) (logfile mc) (clock mc) (urandom mc) (host mc))
      with mc by now destruct mc.
    unfold bind at 1. rewrite store_create_token_eq. cbv zeta.
    set (raw := TokenStore.raw_value_of (api_token cfg)
                  (token_urlsafe (if truthy (api_token cfg) then O else S (urandom mc)))).
    destruct (str_truthy (strip raw)) eqn:Hs.
    + rewrite (create_token_accepted _ _ _ _ _ _ _ Hs). fold raw.
      unfold bind, tqdm_write, modify, ret. simpl. intros [= <- <-]. simpl.
      rewrite tokens_of_written.
      match goal with |- context [tokens_of (secrets mc) ++ [?x]] => set (rec := x) end.
      match goal with
      | |- context [new_records mc ?m] =>
          assert (new_records mc m = [rec]) as N
            by (apply new_records_appended; simpl; now rewrite tokens_of_written)
      end.
      rewrite N. split; [reflexivity|]. right.
      eexists rec, _. split; [reflexivity|]. split; [subst rec; now destruct (auth_mode cfg)|].
      split; [reflexivity|]. left. split; [reflexivity|]. split; [reflexivity|].
      intros [T Hr]. subst raw. rewrite raw_value_truthy in Hs by assumption. congruence.
    + rewrite (create_token_rejected _ _ _ _ _ _ _ Hs).
      intros [= <- <-]. simpl.
      rewrite new_records_same by reflexivity. rewrite app_nil_r.
      split; [reflexivity|]. left. split; [reflexivity|]. split; [reflexivity|].
      intros _. split; [eauto|].
      destruct (truthy (api_token cfg)) eqn:T.
      * split; [exact T|]. subst raw. now rewrite raw_value_truthy in Hs.
      * subst raw. rewrite raw_value_falsy in Hs by assumption.
        now rewrite generated_not_blank in Hs.
  - (* an active token exists *)
    unfold bind at 1. unfold tqdm_write at 1, modify at 1. cbv beta iota.
    destruct (truthy (TokenRecord.value a0)).
    + intros [= <- <-]. simpl. rewrite new_records_same by reflexivity.
      rewrite app_nil_r. split; [reflexivity|]. left.
      split; [reflexivity|]. split; [reflexivity|]. discriminate.
    + unfold bind at 1. rewrite store_create_token_eq. cbv zeta. simpl truthy. cbv iota.
      rewrite (create_token_accepted _ _ None _ _ _ _ (generated_not_blank _)).
      unfold bind, tqdm_write, modify, ret. simpl. intros [= <- <-]. simpl.
      rewrite tokens_of_written.
      match goal with |- context [tokens_of (secrets mc) ++ [?x]] => set (rec := x) end.
      match goal with
      | |- context [new_records mc ?m] =>
          assert (new_records mc m = [rec]) as N
            by (apply new_records_appended; simpl; now rewrite tokens_of_written)
      end.
      rewrite N. split; [reflexivity|]. right.
      eexists rec, _. split; [reflexivity|]. split; [subst rec; now destruct (auth_mode cfg)|].
      split; [reflexivity|]. right. split; [discriminate|].
      subst rec. now destruct (auth_mode cfg).
Qed.


Lemma active_of_grows mc mc' :
  tokens_of (secrets mc') = tokens_of (secrets mc) ++ new_records mc mc' ->
  active_of mc <> [] -> active_of mc' <> [].
Proof.
  intros -> H. rewrite List.filter_app. intros E. apply app_eq_nil in E as [E _]. auto.
Qed.

Lemma ensure_keeps_active cfg mc r mc' :
  ensure cfg mc = (r, mc') -> active_of mc <> [] ->
  active_of mc' <> [] /\ created_permanent (mc, r, mc') = false.
Proof.
  intros E A. destruct (ensure_once _ _ _ _ E) as [T C].
  split; [now apply (active_of_grows mc)|].
  unfold created_permanent.
  destruct C as [(_ & -> & _) | (rec & rt & -> & _ & -> & [[A0 _] | (_ & -> & _)])];
    [reflexivity | contradiction | reflexivity].
Qed.

Lemma ensure_rejected cfg mc r mc' :
  ensure cfg mc = (r, mc') -> active_of mc = [] -> rejected cfg ->
  secrets mc' = secrets mc /\ created_permanent (mc, r, mc') = false.
Proof.
  intros E A R. destruct (ensure_once _ _ _ _ E) as [T C].
  unfold created_permanent.
  destruct C as [(-> & -> & _) | (rec & rt & _ & _ & _ & [(_ & _ & N) | (A1 & _)])];
    [split; reflexivity | contradiction | contradiction].
Qed.

Lemma runs_with_active_token cfg n : forall mc,
  active_of mc <> [] ->
  Forall (fun inv => created_permanent inv = false) (runs_of n cfg mc).
Proof.
  induction n as [|n IH]; intros mc A; [constructor|].
  simpl. destruct (ensure cfg mc) as [r mc'] eqn:E.
  destruct (ensure_keeps_active _ _ _ _ E A) as [A' P].
  constructor; [exact P | now apply IH].
Qed.

Lemma runs_with_rejected_token cfg n : forall mc,
  active_of mc = [] -> rejected cfg ->
  Forall (fun inv => created_permanent inv = false) (runs_of n cfg mc).
Proof.
  induction n as [|n IH]; intros mc A R; [constructor|].
  simpl. destruct (ensure cfg mc) as [r mc'] eqn:E.
  destruct (ensure_rejected _ _ _ _ E A R) as [Sm P].
  constructor; [exact P|]. apply IH; [now rewrite Sm | exact R].
Qed.

(** After the first invocation no permanent token is created any more. *)
Lemma runs_tail_not_permanent cfg n mc :
  Forall (fun inv => created_permanent inv = false) (tail (runs_of n cfg mc)).
Proof.
  destruct n as [|n]; [constructor|].
  simpl. destruct (ensure cfg mc) as [r mc'] eqn:E. simpl.
  destruct (ensure_once _ _ _ _ E) as [T C].
  destruct (active_of mc) as [|a0 rest] eqn:A.
  - destruct C as [(Sm & _ & R) | (rec & rt & N & Hrec & _)].
    + apply runs_with_rejected_token; [now rewrite Sm | now apply R].
    + apply runs_with_active_token. rewrite T, N, List.filter_app. simpl.
      unfold is_active at 2. rewrite Hrec. simpl. intros H.
      apply app_eq_nil in H as [_ H]. discriminate.
  - apply runs_with_active_token. apply (active_of_grows mc); [exact T|].
    rewrite A. discriminate.
Qed.

(** What each invocation leaves in the store. *)
Lemma runs_each cfg n : forall mc,
  Forall (fun '(before, r, after) =>
            tokens_of (secrets after) = tokens_of (secrets before) ++ new_records before after
            /\ (new_records before after = []
                \/ exists rec rt,
                    new_records before after = [rec] /\ r = Ok rt
                    /\ (created_permanent (before, r, after) = false ->
                        TokenRuntime.temporary_id rt = Some (TokenRecord.id rec)
                        /\ TokenRecord.name rec = "__deploy-smoke-test")))
         (runs_of n cfg mc).
Proof.
  induction n as [|n IH]; intros mc; [constructor|].
  simpl. destruct (ensure cfg mc) as [r mc'] eqn:E.
  constructor; [|apply IH].
  destruct (ensure_once _ _ _ _ E) as [T C]. split; [exact T|].
  destruct C as [(_ & N & _) | (rec & rt & N & _ & -> & D)]; [now left|].
  right. exists rec, rt. split; [exact N|]. split; [reflexivity|].
  unfold created_permanent. rewrite N. simpl.
  destruct D as [(_ & -> & _) | (_ & -> & ->)]; [discriminate | auto].
Qed.

(** C6.  In any number of invocations of [_ensure_first_token] in a row,
    from any store and for any configuration, at most one creates a
    permanent token, and only the first one can, which it does only when
    the store has no active token (as on an empty store); whatever an
    invocation after the first creates is a temporary token, named as such
    and reported through [temporary_id]. *)
Theorem ensure_first_token_idempotent cfg n mc :
  let runs := runs_of n cfg mc in
  (length (List.filter created_permanent runs) <= 1)%nat
  /\ Forall (fun inv => created_permanent inv = false) (tail runs)
  /\ (forall inv, head runs = Some inv -> created_permanent inv = true ->
        TokenStore.active_tokens (secrets mc) = (Ok [], secrets mc))
  /\ Forall (fun '(before, r, after) =>
               tokens_of (secrets after) = tokens_of (secrets before) ++ new_records before after
               /\ (new_records before after = []
                   \/ exists rec rt,
                       new_records before after = [rec] /\ r = Ok rt
                       /\ (created_permanent (before, r, after) = false ->
                           TokenRuntime.temporary_id rt = Some (TokenRecord.id rec)
                           /\ TokenRecord.name rec = "__deploy-smoke-test")))
            runs.
Proof.
  intros runs. pose proof (runs_tail_not_permanent cfg n mc) as Tl. fold runs in Tl.
  split; [|split; [exact Tl|split; [|apply runs_each]]].
  - destruct runs as [|inv tl]; [simpl; lia|]. simpl in Tl. simpl.
    assert (List.filter created_permanent tl = []) as ->.
    { clear -Tl. induction Tl as [|x l Hx _ IH]; simpl; [reflexivity | now rewrite Hx]. }
    destruct (created_permanent inv); simpl; lia.
  - subst runs. destruct n as [|n]; [discriminate|].
    simpl. destruct (ensure cfg mc) as [r mc'] eqn:E. simpl.
    intros inv [= <-] P. rewrite active_tokens_eq.
    destruct (active_of mc) as [|a0 rest] eqn:A; [reflexivity|].
    assert (active_of mc <> []) as A' by (rewrite A; discriminate).
    destruct (ensure_keeps_active _ _ _ _ E A') as [_ P']. congruence.
Qed.

End Bootstrap.

(* ===================================================================== *)
(** ** The deployment driver *)
(* ===================================================================== *)

Section Deploy.

Context {Host : Type}.
Variables (token_hex token_urlsafe : nat -> string) (isoformat : Z -> string).
Variable external : Collaborator -> Config -> list Value -> M (Machine Host) Value.
Implicit Types (w : World Host) (mc : Machine Host) (cfg : Config).
Implicit Types (step : Step Host) (steps : list (Step Host)).

Local Abbreviation prelude := (deploy_prelude isoformat external).
Local Abbreviation body := (deploy_body token_hex token_urlsafe isoformat external).
Local Abbreviation cleanup := (deploy_cleanup isoformat).
Local Abbreviation deploy := (run_deploy token_hex token_urlsafe isoformat external).

(** *** Which step writes which result *)

Lemma preserves_ret {A} a (x : A) : preserves_result a (@ret (World Host) A x).
Proof. intros w r w' [= _ <-]. reflexivity. Qed.

Lemma preserves_raise {A} a e : preserves_result a (@raise (World Host) A e).
Proof. intros w r w' [= _ <-]. reflexivity. Qed.

Lemma preserves_lift_machine {A} a (m : M (Machine Host) A) :
  preserves_result a (lift_machine m).
Proof.
  intros w r w'. unfold lift_machine. destruct (m (machine w)) as [r0 mc].
  intros [= _ <-]. reflexivity.
Qed.

Lemma preserves_call a c cfg args : preserves_result a (call external c cfg args).
Proof. apply preserves_lift_machine. Qed.

Lemma preserves_get_result a b : preserves_result a (@get_result Host b).
Proof. intros w r w' [= _ <-]. reflexivity. Qed.

Lemma preserves_attr_value a v : preserves_result a (@attr_value Host v).
Proof. destruct v; intros w r w' [= _ <-]; reflexivity. Qed.

Lemma preserves_bar_update a n : preserves_result a (@bar_update Host n).
Proof. intros w r w' [= _ <-]. reflexivity. Qed.

Lemma preserves_set_result a b v : a <> b -> preserves_result a (@set_result Host b v).
Proof. intros N w r w' [= _ <-]. simpl. now rewrite lookup_insert_ne. Qed.

Lemma preserves_bind {A B} a (m : M (World Host) A) (k : A -> M (World Host) B) :
  preserves_result a m -> (forall x, preserves_result a (k x)) ->
  preserves_result a (bind m k).
Proof.
  intros Hm Hk w r w'. unfold bind. destruct (m w) as [[x|e] w1] eqn:E.
  - intros H. rewrite (Hk _ _ _ _ H). exact (Hm _ _ _ E).
  - intros [= _ <-]. exact (Hm _ _ _ E).
Qed.

Lemma preserves_if {A} a (b : bool) (m1 m2 : M (World Host) A) :
  preserves_result a m1 -> preserves_result a m2 ->
  preserves_result a (if b then m1 else m2).
Proof. now destruct b. Qed.

Create HintDb frame.
#[local] Hint Resolve preserves_ret preserves_raise preserves_lift_machine preserves_call
  preserves_get_result preserves_attr_value preserves_bar_update preserves_if : frame.
#[local] Hint Extern 2 (@preserves_result _ _ _ (bind _ _)) =>
  apply preserves_bind; [|intro] : frame.
#[local] Hint Extern 1 (@preserves_result _ _ _ (set_result _ _)) =>
  apply preserves_set_result; discriminate : frame.
#[local] Hint Extern 1 (@preserves_result _ _ _ (should_skip _)) =>
  unfold should_skip; simpl : frame.

Lemma preserves_run_step a step :
  addr step <> a ->
  preserves_result a (should_skip step) -> preserves_result a (fn step) ->
  preserves_result a (run_step step).
Proof.
  intros N Hs Hf. unfold run_step.
  apply preserves_bind; [exact Hs|]. intros [|]; [auto 20 with frame|].
  do 3 (apply preserves_bind; [auto with frame | intro]).
  apply preserves_bind; [exact Hf | intro].
  apply preserves_bind; [apply preserves_set_result; congruence | intro].
  auto 20 with frame.
Qed.

Lemma preserves_run_steps a steps :
  Forall (fun step => preserves_result a (run_step step)) steps ->
  preserves_result a (run_steps steps).
Proof.
  induction 1 as [|step rest Hs _ IH]; simpl; [apply preserves_ret|].
  apply preserves_bind; auto.
Qed.

Lemma maintains_bind {A B} I (m : M (World Host) A) (k : A -> M (World Host) B) :
  maintains I m -> (forall x, maintains I (k x)) -> maintains I (bind m k).
Proof.
  intros Hm Hk w r w' Hw. unfold bind. destruct (m w) as [[x|e] w1] eqn:E.
  - intros H. exact (Hk _ _ _ _ (Hm _ _ _ Hw E) H).
  - intros [= _ <-]. exact (Hm _ _ _ Hw E).
Qed.

Lemma maintains_run_steps I steps :
  Forall (fun step => maintains I (run_step step)) steps -> maintains I (run_steps steps).
Proof.
  induction 1 as [|step rest Hs _ IH]; simpl.
  - intros w r w' Hw [= _ <-]. exact Hw.
  - apply maintains_bind; auto.
Qed.

Local Abbreviation genuine := (token_result_genuine token_hex token_urlsafe isoformat).

Lemma preserves_maintains {A} cfg (m : M (World Host) A) :
  preserves_result token_step_addr m -> maintains (genuine cfg) m.
Proof.
  intros Hm w r w' Hw E. unfold token_result_genuine in *.
  now rewrite (Hm _ _ _ E).
Qed.

(** The bootstrap-token step stores what [_ensure_first_token] returned. *)
Lemma token_step_maintains cfg :
  maintains (Host := Host) (genuine cfg)
    (run_step (token_step token_hex token_urlsafe isoformat cfg)).
Proof.
  intros w r w' Hw. unfold run_step, token_step, should_skip. simpl.
  run_tail.
  destruct (_ensure_first_token _ _ _ cfg _) as [[rt|e] mc'] eqn:E; simpl.
  - intros [= _ <-]. right. eexists rt, _, mc'. split; [|exact E].
    simpl. apply lookup_insert_eq.
  - intros [= _ <-]. exact Hw.
Qed.

Ltac other_step :=
  apply preserves_maintains, preserves_run_step;
  [discriminate | auto 20 with frame | simpl; auto 30 with frame].

Lemma deploy_body_maintains cfg first_run : maintains (genuine cfg) (body cfg first_run).
Proof.
  unfold deploy_body.
  apply maintains_bind; [apply preserves_maintains; intros w r w' [= _ <-]; reflexivity|].
  intros _. apply maintains_bind.
  { apply maintains_run_steps. unfold system_steps.
    repeat (constructor; [first [apply token_step_maintains | other_step]|]).
    constructor. }
  intros _. apply maintains_bind.
  { apply preserves_maintains. unfold _resolve_from_disk, resolve_one_from_disk.
    apply preserves_if; [auto with frame|].
    apply preserves_bind; [|intro];
      (apply preserves_bind; [auto with frame|intros v; destruct v; auto 20 with frame]). }
  intros _. apply maintains_bind.
  { apply maintains_run_steps. repeat (constructor; [other_step|]). constructor. }
  intros _. apply maintains_bind.
  { apply maintains_run_steps. unfold service_steps, health_step, smoke_step.
    destruct (publish cfg || AuthMode_eqb (auth_mode cfg) HASHED);
      repeat (constructor;
              [apply preserves_maintains, preserves_run_step;
               [discriminate | auto 20 with frame
               | simpl; unfold _write_config, _setup_local_proxy, _setup_tls, _internal_test;
                 auto 40 with frame]|]);
      constructor. }
  intros _. apply preserves_maintains. auto 20 with frame.
Qed.

Lemma prelude_resets cfg w first_run w0 :
  prelude cfg w = (Ok first_run, w0) -> results w0 = ∅.
Proof.
  unfold deploy_prelude. unfold bind.
  repeat match goal with
         | |- context [match ?m ?x with _ => _ end] =>
             lazymatch m with
             | call _ _ _ _ => destruct (m x) as [[?|?] ?]; [|discriminate]
             | lift_machine _ => destruct (m x) as [[?|?] ?]; [|discriminate]
             end
         end.
  unfold modify, ret. intros [= _ <-]. reflexivity.
Qed.

(** The Step objects other than the bootstrap-token step, and everything
    that follows the first phase, leave the token step's result alone. *)
Lemma first_five_preserve cfg :
  preserves_result token_step_addr
    (run_steps (take 5 (system_steps token_hex token_urlsafe isoformat external cfg))).
Proof.
  apply preserves_run_steps. simpl.
  repeat (constructor;
          [apply preserves_run_step; [discriminate | auto 20 with frame | simpl; auto 30 with frame]|]).
  constructor.
Qed.

Lemma after_system_steps_preserve cfg first_run :
  preserves_result token_step_addr
    (_resolve_from_disk external cfg ;;;
     run_steps [llm_step external cfg; emb_step external cfg] ;;;
     run_steps (service_steps external cfg) ;;;
     runtime <- get_result token_step_addr ;;
     token <- attr_value runtime ;;
     lift_machine (tqdm_write (Summary token first_run))).
Proof.
  apply preserves_bind.
  { unfold _resolve_from_disk, resolve_one_from_disk.
    apply preserves_if; [auto with frame|].
    apply preserves_bind; [|intro];
      (apply preserves_bind; [auto with frame|intros v; destruct v; auto 20 with frame]). }
  intros _. apply preserves_bind.
  { apply preserves_run_steps.
    repeat (constructor;
            [apply preserves_run_step;
             [discriminate | auto 20 with frame | simpl; auto 30 with frame]|]).
    constructor. }
  intros _. apply preserves_bind.
  { apply preserves_run_steps. unfold service_steps, health_step, smoke_step.
    destruct (publish cfg || AuthMode_eqb (auth_mode cfg) HASHED);
      repeat (constructor;
              [apply preserves_run_step;
               [discriminate | auto 20 with frame
               | simpl; unfold _write_config, _setup_local_proxy, _setup_tls, _internal_test;
                 auto 40 with frame]|]);
      constructor. }
  intros _. auto 20 with frame.
Qed.

(** What the [finally] finds in the token step's [result]: the value the
    step returned if the runner executed it, and [None] otherwise. *)
Lemma deploy_body_token_result cfg first_run w0 r_body w_body r w_sys tr :
  results w0 !! token_step_addr = None ->
  body cfg first_run w0 = (r_body, w_body) ->
  run_steps_observed 0 (system_steps token_hex token_urlsafe isoformat external cfg)
    (mkWorld (machine w0) (results w0) 0) = (r, w_sys, tr) ->
  result_of token_step_addr w_body
  = match tr !! 5%nat with Some (Executed _ v) => v | _ => VNone end.
Proof.
  intros R0 Hb Ho.
  set (w00 := mkWorld (machine w0) (results w0) 0) in *.
  set (sys := system_steps token_hex token_urlsafe isoformat external cfg) in *.
  set (tok := @token_step Host token_hex token_urlsafe isoformat cfg) in *.
  (* the first phase *)
  assert (results w_sys !! token_step_addr
          = match tr !! 5%nat with Some (Executed _ v) => Some v | _ => None end) as Hsys.
  { change sys with (take 5 sys ++ [tok]) in Ho.
    rewrite run_steps_observed_app in Ho.
    pose proof (run_steps_observed_erase 0 (take 5 sys) w00) as E5.
    destruct (run_steps_observed 0 (take 5 sys) w00) as [[[[]|e] w5] tr5] eqn:O5.
    - pose proof (first_five_preserve cfg _ _ _ (eq_sym E5)) as P5. simpl in P5.
      apply run_steps_observed_indices in O5 as L5.
      apply (f_equal (@length nat)) in L5. rewrite length_map, length_seq in L5.
      change (length (take 5 sys)) with 5%nat in L5, Ho. simpl in Ho.
      pose proof (run_step_observed_erase 5 tok w5) as E6.
      destruct (run_step_observed 5 tok w5) as [[[[]|e] w6] v] eqn:O6.
      + injection Ho as _ <- <-.
        apply run_step_observed_visit in O6 as (skip & ws & Hsk & Hv).
        injection Hsk as <- <-. destruct Hv as (wc & val & wf & _ & _ & -> & Hres & _).
        rewrite lookup_app_r, L5 by lia. simpl.
        rewrite Hres. apply lookup_insert_eq.
      + injection Ho as _ <- <-.
        apply run_step_observed_raise in O6 as ->.
        rewrite lookup_app_r, L5 by lia. simpl.
        simpl in E6. symmetry in E6. revert E6.
        unfold run_step, tok, token_step, should_skip. simpl. run_tail.
        destruct (_ensure_first_token _ _ _ cfg _) as [[rt|e1] mc']; simpl;
          [discriminate|].
        intros [= _ <-]. simpl. now rewrite P5.
    - injection Ho as _ <- <-.
      pose proof (first_five_preserve cfg _ _ _ (eq_sym E5)) as P5. simpl in P5.
      destruct (run_steps_fail_fast _ _ _ _ _ _ O5) as (k & Hk & Hidx & _).
      apply (f_equal (@length nat)) in Hidx. rewrite length_map, length_seq in Hidx.
      change (length (take 5 sys)) with 5%nat in Hk.
      rewrite (lookup_ge_None_2 tr5 5) by lia. now rewrite P5. }
  (* what follows it *)
  assert (results w_body !! token_step_addr = results w_sys !! token_step_addr) as Hrest.
  { pose proof (run_steps_observed_erase 0 sys w00) as Es. rewrite Ho in Es.
    cbn [fst] in Es.
    revert Hb. unfold deploy_body. unfold bind at 1. unfold modify at 1.
    unfold bind at 1. fold w00. fold sys. rewrite <- Es.
    destruct r as [[]|e]; [|now intros [= _ <-]].
    intros Hb. exact (after_system_steps_preserve cfg first_run _ _ _ Hb). }
  unfold result_of. rewrite Hrest, Hsys.
  now destruct (tr !! 5%nat) as [[| |]|].
Qed.

Lemma store_revoke_token_eq auth_mode token_id mc :
  store_revoke_token isoformat auth_mode token_id mc =
  match TokenStore.revoke_token auth_mode token_id (isoformat (clock mc)) (secrets mc) with
  | (r, fs) => (r, mkMachine fs (console mc) (logfile mc) (clock mc) (urandom mc) (host mc))
  end.
Proof. reflexivity. Qed.

(** The guarded revocation never raises: it ends with the token revoked
    and a CLEANUP line, or with the store as [revoke_token] left it and a
    warning on the console and in the log. *)
Lemma revoke_temporary_eq cfg tid mc :
  revoke_temporary isoformat cfg tid mc =
  match TokenStore.revoke_token (auth_mode cfg) tid (isoformat (clock mc)) (secrets mc) with
  | (Ok _, fs) =>
      (Ok tt, mkMachine fs (console mc ++ [CLEANUP_revoked tid]) (logfile mc)
                (clock mc) (urandom mc) (host mc))
  | (Raise e, fs) =>
      (Ok tt, mkMachine fs (console mc ++ [WARN_failed_to_revoke tid e])
                (logfile mc ++ [WARN_failed_to_revoke tid e])
                (clock mc) (urandom mc) (host mc))
  end.
Proof.
  unfold revoke_temporary, try_except, bind. rewrite store_revoke_token_eq.
  destruct (TokenStore.revoke_token _ _ _ _) as [[t|e] fs] eqn:E; [reflexivity|].
  now rewrite (revoke_token_raises_Exception _ _ _ _ _ _ E).
Qed.

(** C2.  Once [run_deploy] has entered its [try], whatever the outcome of
    the pipeline (normal return or any exception): that outcome is the
    outcome of [run_deploy]; the [finally] finds in the bootstrap-token
    step's result what [_ensure_first_token] returned when the runner
    executed that step (and [None] if it never did); and if that is a
    TokenRuntime with [temporary_id] set, [revoke_token] is run on that id
    before [run_deploy] returns or propagates, and when the revocation
    raises, the failure is written as a warning to the console and to the
    log and changes nothing to the outcome. *)
Theorem run_deploy_revokes_temporary_token cfg w first_run w0 r_body w_body :
  prelude cfg w = (Ok first_run, w0) ->
  body cfg first_run w0 = (r_body, w_body) ->
  exists w',
    deploy cfg w = (r_body, w')
    /\ (forall r w_sys tr,
          run_steps_observed 0 (system_steps token_hex token_urlsafe isoformat external cfg)
            (mkWorld (machine w0) (results w0) 0) = (r, w_sys, tr) ->
          result_of token_step_addr w_body
          = match tr !! 5%nat with Some (Executed _ v) => v | _ => VNone end)
    /\ genuine cfg w_body
    /\ forall rt tid,
         result_of token_step_addr w_body = VTokenRuntime rt ->
         TokenRuntime.temporary_id rt = Some tid -> tid <> "" ->
         let now := isoformat (clock (machine w_body)) in
         exists r_rev,
           TokenStore.revoke_token (auth_mode cfg) tid now (secrets (machine w_body))
           = (r_rev, secrets (machine w'))
           /\ match r_rev with
              | Ok t' =>
                  TokenRecord.revoked t' = true
                  /\ console (machine w')
                     = console (machine w_body) ++ [CLEANUP_revoked tid]
                  /\ logfile (machine w') = logfile (machine w_body) ++ [END now]
              | Raise e =>
                  console (machine w')
                  = console (machine w_body) ++ [WARN_failed_to_revoke tid e]
                  /\ logfile (machine w')
                     = logfile (machine w_body) ++ [WARN_failed_to_revoke tid e; END now]
              end.
Proof.
  intros Hp Hb.
  assert (results w0 !! token_step_addr = None) as R0
    by now rewrite (prelude_resets _ _ _ _ Hp).
  assert ((forall r w_sys tr,
             run_steps_observed 0 (system_steps token_hex token_urlsafe isoformat external cfg)
               (mkWorld (machine w0) (results w0) 0) = (r, w_sys, tr) ->
             result_of token_step_addr w_body
             = match tr !! 5%nat with Some (Executed _ v) => v | _ => VNone end)
          /\ genuine cfg w_body) as G.
  { split.
    - intros r w_sys tr. now apply deploy_body_token_result with (first_run := first_run) (r_body := r_body).
    - apply (deploy_body_maintains cfg first_run w0 r_body w_body); [now left | exact Hb]. }
  cut (exists w',
    deploy cfg w = (r_body, w')
    /\ forall rt tid,
         result_of token_step_addr w_body = VTokenRuntime rt ->
         TokenRuntime.temporary_id rt = Some tid -> tid <> "" ->
         let now := isoformat (clock (machine w_body)) in
         exists r_rev,
           TokenStore.revoke_token (auth_mode cfg) tid now (secrets (machine w_body))
           = (r_rev, secrets (machine w'))
           /\ match r_rev with
              | Ok t' =>
                  TokenRecord.revoked t' = true
                  /\ console (machine w')
                     = console (machine w_body) ++ [CLEANUP_revoked tid]
                  /\ logfile (machine w') = logfile (machine w_body) ++ [END now]
              | Raise e =>
                  console (machine w')
                  = console (machine w_body) ++ [WARN_failed_to_revoke tid e]
                  /\ logfile (machine w')
                     = logfile (machine w_body) ++ [WARN_failed_to_revoke tid e; END now]
              end).
  { intros (w' & H1 & H2). exists w'. destruct G as [G1 G2]. auto. }
  clear G R0.
  unfold run_deploy, bind. rewrite Hp. unfold try_finally. rewrite Hb.
  unfold deploy_cleanup, bind, get_result.
  destruct (result_of token_step_addr w_body) as [| s | rt | o] eqn:R;
    try (eexists; split; [reflexivity | intros; discriminate]).
  destruct (TokenRuntime.temporary_id rt) as [tid|] eqn:T;
    [|eexists; split; [reflexivity | intros ? ? [= <-] T0 ?; congruence]].
  destruct tid as [|c tid'];
    [eexists; split; [reflexivity | intros ? ? [= <-] T0 ?; congruence]|].
  change (truthy (Some (String c tid'))) with true.
  change (default "" (Some (String c tid'))) with (String c tid'). cbv iota.
  unfold lift_machine at 1. rewrite revoke_temporary_eq.
  destruct (TokenStore.revoke_token _ _ _ _) as [[t'|e] fs] eqn:E.
  - eexists. split; [reflexivity|]. intros rt0 tid0 [= <-] T0 _.
    rewrite T in T0. injection T0 as <-. cbv zeta. simpl.
    exists (Ok t'). split; [exact E|]. split; [|split; reflexivity].
    rewrite revoke_token_eq in E.
    destruct (split_first _ _) as [[[l1 t] l2]|]; [|discriminate].
    destruct (TokenRecord.revoked t); [discriminate|]. now injection E as <- _.
  - eexists. split; [reflexivity|]. intros rt0 tid0 [= <-] T0 _.
    rewrite T in T0. injection T0 as <-. cbv zeta. simpl.
    exists (Raise e). split; [exact E|]. simpl. split; [reflexivity|].
    now rewrite <- app_assoc.
Qed.

End Deploy.

(* ===================================================================== *)
(** * Further properties of the credential store *)
(* ===================================================================== *)

Lemma accepted_nonempty raw :
  str_truthy (strip raw) = true -> exists c s, raw = String c s.
Proof. destruct raw as [|c s]; [discriminate | eauto]. Qed.

Lemma artifact_other_written auth_mode ts fs :
  artifact_of (other_mode auth_mode) (written auth_mode ts fs)
  = artifact_of (other_mode auth_mode) fs.
Proof. destruct auth_mode, fs as [[j k h]|]; reflexivity. Qed.

(** The two shapes of a successful mutation. *)
Lemma mutation_cases auth_mode fs fs' :
  mutation auth_mode fs fs' ->
  (exists stored,
      fs' = written auth_mode (tokens_of fs ++ [stored]) fs
      /\ TokenRecord.revoked stored = false
      /\ TokenRecord.revoked_at stored = None
      /\ (auth_mode = HASHED -> TokenRecord.value stored = None))
  \/ (exists l1 t l2 now,
         tokens_of fs = l1 ++ t :: l2
         /\ TokenRecord.revoked t = false
         /\ fs' = written auth_mode (l1 ++ TokenRecord.set_revoked now t :: l2) fs).
Proof.
  intros [name value hex urlsafe now r H | token_id now r H].
  - left. destruct (str_truthy (strip (TokenStore.raw_value_of value urlsafe))) eqn:Hs.
    + rewrite (create_token_accepted _ _ _ _ _ _ _ Hs) in H. injection H as _ <-.
      eexists. split; [reflexivity|]. destruct auth_mode; repeat split; congruence.
    + rewrite (create_token_rejected _ _ _ _ _ _ _ Hs) in H. discriminate.
  - right. rewrite revoke_token_eq in H.
    destruct (split_first _ _) as [[[l1 t] l2]|] eqn:Sp; [|discriminate].
    destruct (TokenRecord.revoked t) eqn:R; [discriminate|]. injection H as _ <-.
    apply split_first_Some in Sp as (E & _ & _). exists l1, t, l2, now. auto.
Qed.

(** X1.  [create_token] in plaintext mode: the record returned is the record
    persisted, it carries the plaintext and no hash, the plaintext is the
    last line of [api_keys], and [token_hashes.json] is not touched. *)
Theorem create_token_plaintext_persists_value name value hex urlsafe now fs :
  let raw := TokenStore.raw_value_of value urlsafe in
  str_truthy (strip raw) = true ->
  exists r fs',
    TokenStore.create_token PLAINTEXT name value hex urlsafe now fs = (Ok r, fs')
    /\ tokens_of fs' = tokens_of fs ++ [r]
    /\ TokenRecord.value r = Some raw
    /\ TokenRecord.hash r = None
    /\ TokenRecord.revoked r = false
    /\ artifact_of PLAINTEXT fs'
       = Some (Keyfile (one_per_line (active_secrets TokenRecord.value (tokens_of fs) ++ [raw])))
    /\ artifact_of HASHED fs' = artifact_of HASHED fs.
Proof.
  intros raw H.
  pose proof (create_token_accepted PLAINTEXT name value hex urlsafe now fs H) as E.
  cbv zeta in E. fold raw in E. eexists _, _. split; [exact E|].
  rewrite tokens_of_written, (artifact_written PLAINTEXT).
  split; [reflexivity|]. split; [reflexivity|]. split; [reflexivity|].
  split; [reflexivity|]. split.
  - simpl. rewrite active_secrets_app. simpl.
    destruct (accepted_nonempty raw H) as (c & s & ->). reflexivity.
  - apply (artifact_other_written PLAINTEXT).
Qed.

(** X2.  [create_token] without a value succeeds on every store whose
    [tokens.json] is missing or loads (the embedding holds the parsed
    records; a file that is present and does not parse makes [_load] raise
    and is not a store here), also without secrets directory: the secret
    is generated, prefixed ["sk-"], and the identifier is ["tk_"] and the
    hex drawn. *)
Theorem create_token_generated_succeeds auth_mode name hex urlsafe now fs :
  exists r fs',
    TokenStore.create_token auth_mode name None hex urlsafe now fs = (Ok r, fs')
    /\ TokenRecord.id r = "tk_" +:+ hex
    /\ TokenRecord.name r = name
    /\ TokenRecord.created_at r = now
    /\ TokenRecord.value r = Some ("sk-" +:+ urlsafe)
    /\ TokenRecord.revoked r = false
    /\ length (tokens_of fs') = S (length (tokens_of fs)).
Proof.
  pose proof (create_token_accepted auth_mode name None hex urlsafe now fs
                (generated_not_blank urlsafe)) as E.
  cbv zeta in E. eexists _, _. split; [exact E|].
  rewrite tokens_of_written, length_app, Nat.add_comm.
  destruct auth_mode; repeat split.
Qed.


(** X4.  Records are never deleted, reordered or edited: after a successful
    mutation every record that was there is still at its place, as it was
    or, for the one revoked, revoked; revocation is never undone. *)
Theorem mutation_keeps_records auth_mode fs fs' :
  mutation auth_mode fs fs' ->
  (length (tokens_of fs) <= length (tokens_of fs'))%nat
  /\ Forall2 same_or_revoked (tokens_of fs)
       (take (length (tokens_of fs)) (tokens_of fs'))
  /\ (forall i t t', tokens_of fs !! i = Some t -> tokens_of fs' !! i = Some t' ->
        TokenRecord.id t' = TokenRecord.id t
        /\ TokenRecord.name t' = TokenRecord.name t
        /\ TokenRecord.created_at t' = TokenRecord.created_at t
        /\ TokenRecord.value t' = TokenRecord.value t
        /\ TokenRecord.hash t' = TokenRecord.hash t
        /\ (TokenRecord.revoked t = true -> t' = t)).
Proof.
  intros Hm.
  assert (Forall2 same_or_revoked (tokens_of fs)
            (take (length (tokens_of fs)) (tokens_of fs'))
          /\ (length (tokens_of fs) <= length (tokens_of fs'))%nat) as [F L].
  { destruct (mutation_cases _ _ _ Hm)
      as [(stored & -> & _) | (l1 & t & l2 & now & E & R & ->)];
      rewrite tokens_of_written.
    - split; [|rewrite length_app; lia].
      rewrite take_app_length. apply Forall2_same_length_lookup_2; [reflexivity|].
      intros i x y Hx Hy. left. congruence.
    - rewrite E. split; [|rewrite !length_app; simpl; lia].
      replace (length (l1 ++ t :: l2)) with (length (l1 ++ TokenRecord.set_revoked now t :: l2))
        by (rewrite !length_app; reflexivity).
      rewrite firstn_all. apply Forall2_app.
      + apply Forall2_same_length_lookup_2; [reflexivity|].
        intros i x y Hx Hy. left. congruence.
      + constructor; [right; eauto|].
        apply Forall2_same_length_lookup_2; [reflexivity|].
        intros i x y Hx Hy. left. congruence. }
  split; [exact L|]. split; [exact F|].
  intros i t t' Ht Ht'.
  assert (take (length (tokens_of fs)) (tokens_of fs') !! i = Some t') as Ht2.
  { rewrite lookup_take_lt; [exact Ht'|]. now apply lookup_lt_Some in Ht. }
  destruct (Forall2_lookup_lr _ _ _ _ _ _ F Ht Ht2) as [-> | (R & now & ->)].
  - repeat split.
  - repeat split. congruence.
Qed.

(** X5.  [revoked] and [revoked_at] stay consistent: if they are in every
    record (both set or both unset), they still are after a mutation. *)
Theorem mutation_keeps_revocation_consistent auth_mode fs fs' :
  Forall revocation_consistent (tokens_of fs) ->
  mutation auth_mode fs fs' ->
  Forall revocation_consistent (tokens_of fs').
Proof.
  intros Hc Hm.
  destruct (mutation_cases _ _ _ Hm)
    as [(stored & -> & R & Ra & _) | (l1 & t & l2 & now & E & R & ->)];
    rewrite tokens_of_written.
  - apply Forall_app. split; [exact Hc|]. constructor; [|constructor].
    unfold revocation_consistent. rewrite R, Ra. split; [discriminate | congruence].
  - rewrite E in Hc. apply Forall_app in Hc as [H1 H2].
    apply Forall_app. split; [exact H1|].
    inversion H2; subst. constructor; [|assumption].
    unfold revocation_consistent. simpl. split; [discriminate | reflexivity].
Qed.

(** X6.  In hashed mode no plaintext reaches [tokens.json]: if no record holds
    one, none does after a successful [create_token] or [revoke_token],
    whatever value the caller passed. *)
Theorem hashed_mode_persists_no_plaintext fs fs' :
  Forall (fun t => TokenRecord.value t = None) (tokens_of fs) ->
  mutation HASHED fs fs' ->
  Forall (fun t => TokenRecord.value t = None) (tokens_of fs').
Proof.
  intros Hv Hm.
  destruct (mutation_cases _ _ _ Hm)
    as [(stored & -> & _ & _ & V) | (l1 & t & l2 & now & E & R & ->)];
    rewrite tokens_of_written.
  - apply Forall_app. split; [exact Hv|]. constructor; [auto | constructor].
  - rewrite E in Hv. apply Forall_app in Hv as [H1 H2].
    apply Forall_app. split; [exact H1|].
    inversion H2; subst. constructor; assumption.
Qed.

(** X7.  Each mode writes only its own derived file: a mutation in plaintext
    mode leaves [token_hashes.json] as it is (absent, if it was), one in
    hashed mode leaves [api_keys] as it is. *)
Theorem mutation_leaves_other_artifact auth_mode fs fs' :
  mutation auth_mode fs fs' ->
  artifact_of (other_mode auth_mode) fs' = artifact_of (other_mode auth_mode) fs.
Proof.
  intros Hm.
  destruct (mutation_cases _ _ _ Hm)
    as [(stored & -> & _) | (l1 & t & l2 & now & E & R & ->)];
    apply artifact_other_written.
Qed.

(** X8.  Revocation is terminal: once [revoke_token] has succeeded for an id,
    revoking that id again raises [ValueError] (already revoked), in
    either mode, and writes nothing. *)
Theorem revoke_token_twice auth_mode token_id now fs t fs' :
  TokenStore.revoke_token auth_mode token_id now fs = (Ok t, fs') ->
  forall auth_mode' now',
    TokenStore.revoke_token auth_mode' token_id now' fs'
    = (Raise (ValueError (Token_is_already_revoked token_id)), fs').
Proof.
  intros H auth_mode' now'. rewrite revoke_token_eq in H.
  destruct (split_first _ _) as [[[l1 x] l2]|] eqn:Sp; [|discriminate].
  destruct (TokenRecord.revoked x) eqn:R; [discriminate|]. injection H as <- <-.
  apply split_first_Some in Sp as (_ & Hx & Hl1).
  rewrite revoke_token_eq, tokens_of_written.
  now rewrite (split_first_intro (has_id token_id) l1 (TokenRecord.set_revoked now x) l2 Hl1 Hx).
Qed.

(** X9.  A token just created, under an identifier no record had: in plaintext
    mode [show_token] returns it with its plaintext; in hashed mode
    [show_token] raises [ValueError], the plaintext is gone. *)
Theorem create_then_show auth_mode name value hex urlsafe now fs r fs' :
  Forall (fun t => has_id ("tk_" +:+ hex) t = false) (tokens_of fs) ->
  TokenStore.create_token auth_mode name value hex urlsafe now fs = (Ok r, fs') ->
  match auth_mode with
  | PLAINTEXT =>
      TokenStore.show_token PLAINTEXT (TokenRecord.id r) fs' = (Ok r, fs')
      /\ TokenRecord.value r = Some (TokenStore.raw_value_of value urlsafe)
  | HASHED =>
      TokenStore.show_token HASHED (TokenRecord.id r) fs'
      = (Raise (ValueError (Token_was_created_in_hashed_mode (TokenRecord.id r))), fs')
  end.
Proof.
  intros Hfresh H.
  destruct (str_truthy (strip (TokenStore.raw_value_of value urlsafe))) eqn:Hs;
    [|rewrite (create_token_rejected _ _ _ _ _ _ _ Hs) in H; discriminate].
  rewrite (create_token_accepted _ _ _ _ _ _ _ Hs) in H. injection H as <- <-.
  destruct auth_mode; unfold TokenStore.show_token, bind;
    rewrite load_eq, show_loop_eq, tokens_of_written; simpl TokenRecord.id.
  - erewrite split_first_intro; [| exact Hfresh | apply String.eqb_refl].
    split; reflexivity.
  - erewrite split_first_intro; [| exact Hfresh | apply String.eqb_refl].
    reflexivity.
Qed.

(** X10.  Creating a token under a fresh identifier and revoking it gives
    back the active tokens there were before, and leaves the artifact of
    the mode as derived from the records there were before: the file
    there was before whenever that file was in step with [tokens.json]
    (as after any mutation in this mode), a rebuilt one when it was absent
    or stale. *)
Theorem create_then_revoke auth_mode name value hex urlsafe now now' fs r fs' :
  Forall (fun t => has_id ("tk_" +:+ hex) t = false) (tokens_of fs) ->
  TokenStore.create_token auth_mode name value hex urlsafe now fs = (Ok r, fs') ->
  exists t' fs'',
    TokenStore.revoke_token auth_mode (TokenRecord.id r) now' fs' = (Ok t', fs'')
    /\ TokenRecord.id t' = TokenRecord.id r
    /\ TokenRecord.revoked_at t' = Some now'
    /\ length (tokens_of fs'') = S (length (tokens_of fs))
    /\ fst (TokenStore.active_tokens fs'') = fst (TokenStore.active_tokens fs)
    /\ artifact_of auth_mode fs'' = Some (derived auth_mode (tokens_of fs))
    /\ (artifact_of auth_mode fs = Some (derived auth_mode (tokens_of fs)) ->
        artifact_of auth_mode fs'' = artifact_of auth_mode fs).
Proof.
  intros Hfresh H.
  destruct (str_truthy (strip (TokenStore.raw_value_of value urlsafe))) eqn:Hs;
    [|rewrite (create_token_rejected _ _ _ _ _ _ _ Hs) in H; discriminate].
  rewrite (create_token_accepted _ _ _ _ _ _ _ Hs) in H. injection H as <- <-.
  rewrite revoke_token_eq, tokens_of_written.
  assert (forall P Q : Prop, P -> (P -> Q) -> P /\ Q) as both by tauto.
  destruct auth_mode; simpl TokenRecord.id;
    (erewrite split_first_intro; [| exact Hfresh | apply String.eqb_refl]);
    simpl TokenRecord.revoked; cbv iota;
    eexists _, _; (split; [reflexivity|]);
    rewrite !active_tokens_eq, tokens_of_written, artifact_written;
    (split; [reflexivity|]); (split; [reflexivity|]);
    (split; [rewrite length_app; simpl; lia|]);
    (split; [simpl; now rewrite List.filter_app, app_nil_r|]);
    (apply both; [simpl; now rewrite active_secrets_app, app_nil_r|]);
    intros D Hsync; now rewrite D, Hsync.
Qed.

(** X11.  [_sync()] without a list rebuilds the artifact of the mode from what
    [tokens.json] holds, whatever the artifact held before, and touches
    nothing else; without a secrets directory it raises
    [FileNotFoundError]. *)
Theorem sync_from_disk auth_mode fs :
  match fs with
  | Some d =>
      exists fs',
        TokenStore._sync auth_mode None fs = (Ok tt, fs')
        /\ tokens_of fs' = tokens_of fs
        /\ artifact_of auth_mode fs' = Some (derived auth_mode (tokens_of fs))
        /\ artifact_of (other_mode auth_mode) fs' = artifact_of (other_mode auth_mode) fs
        /\ TokenStore._sync auth_mode None fs' = (Ok tt, fs')
  | None =>
      exists path,
        TokenStore._sync auth_mode None fs = (Raise (FileNotFoundError path), None)
  end.
Proof.
  destruct fs as [[[ts|] k h]|]; [| |destruct auth_mode; eexists; reflexivity];
    destruct auth_mode; eexists; (split; [reflexivity|]);
    (split; [reflexivity|]);
    (split; [simpl;
             now rewrite ?join_newline, ?active_values_secrets, ?active_hashes_secrets|]);
    split; reflexivity.
Qed.

(* ===================================================================== *)
(** * Further properties: records as JSON *)
(* ===================================================================== *)

Lemma from_dict_of_to_dict o : _from_dict (_to_dict o) = Ok o.
Proof. destruct o; reflexivity. Qed.

Lemma record_of_instance_of r : record_of (instance_of r) = Some r.
Proof. destruct r as [i n c rv ra v h]. destruct ra, v, h; reflexivity. Qed.

(** X12.  [_from_dict] undoes [_to_dict], for every instance, whatever its
    fields hold; and a well-typed record is read back from its dict. *)
Theorem from_dict_to_dict :
  (forall o, _from_dict (_to_dict o) = Ok o)
  /\ (forall r, record_of (instance_of r) = Some r).
Proof. split; [apply from_dict_of_to_dict | apply record_of_instance_of]. Qed.

(** X13.  [_from_dict] on incomplete dicts: the first of ["id"], ["name"],
    ["created_at"] that is missing raises a [KeyError] naming it; with the
    three present and no other field, the instance is an active record
    without secret (the defaults of the dataclass); keys that are not
    fields are ignored. *)
Theorem from_dict_incomplete (d : gmap string json) :
  (d !! "id" = None -> _from_dict d = Raise (KeyError (Text "id")))
  /\ (d !! "id" <> None -> d !! "name" = None ->
        _from_dict d = Raise (KeyError (Text "name")))
  /\ (d !! "id" <> None -> d !! "name" <> None -> d !! "created_at" = None ->
        _from_dict d = Raise (KeyError (Text "created_at")))
  /\ (forall i n c,
        d !! "id" = Some (JStr i) -> d !! "name" = Some (JStr n) ->
        d !! "created_at" = Some (JStr c) ->
        d !! "revoked" = None -> d !! "revoked_at" = None ->
        d !! "value" = None -> d !! "hash" = None ->
        _from_dict d = Ok (instance_of (TokenRecord.mk i n c false None None None)))
  /\ (forall key v,
        key ∉ ["id"; "name"; "created_at"; "revoked"; "revoked_at"; "value"; "hash"] ->
        _from_dict (<[key := v]> d) = _from_dict d).
Proof.
  unfold _from_dict, subscript, dict_get. repeat split.
  - now intros ->.
  - intros H ->. now destruct (d !! "id").
  - intros H1 H2 ->. now destruct (d !! "id"), (d !! "name").
  - intros i n c -> -> -> -> -> -> ->. reflexivity.
  - intros key v Hk.
    rewrite !lookup_insert_ne; [reflexivity|..];
      intros ->; apply Hk; set_solver.
Qed.

Lemma from_items_to_dict os :
  from_items (map (fun t => JObj (_to_dict t)) os) = Ok os.
Proof.
  induction os as [|o os IH]; [reflexivity|].
  simpl. now rewrite from_dict_of_to_dict, IH.
Qed.

(** X14.  What [_load] reads is what [_save] wrote: the document built from a
    list of records loads as that list, record for record. *)
Theorem load_save_round_trip ts :
  load_document (save_document (map instance_of ts)) = Ok (map instance_of ts)
  /\ map record_of (map instance_of ts) = map Some ts.
Proof.
  split.
  - unfold load_document, save_document, dict_get. rewrite lookup_singleton_eq. simpl.
    apply from_items_to_dict.
  - rewrite map_map. apply map_ext. intros r.
    apply record_of_instance_of.
Qed.

Lemma from_items_stops l1 x l2 os e :
  from_items l1 = Ok os -> from_item x = Raise e ->
  from_items (l1 ++ x :: l2) = Raise e.
Proof.
  revert os. induction l1 as [|a l1 IH]; intros os H1 Hx; simpl.
  - now rewrite Hx.
  - simpl in H1. destruct (from_item a); [|discriminate].
    destruct (from_items l1) eqn:E; [|discriminate].
    now rewrite (IH _ eq_refl Hx).
Qed.

(** X15.  Loading a document: without a ["tokens"] key it is the empty
    collection; one record that cannot be read (not a dict, or a required
    key missing) makes the whole load raise, whatever follows it. *)
Theorem load_document_bad_record (d : gmap string json) :
  (d !! "tokens" = None -> load_document (JObj d) = Ok [])
  /\ (forall l1 x l2 os e,
        d !! "tokens" = Some (JArr (l1 ++ x :: l2)) ->
        from_items l1 = Ok os -> from_item x = Raise e ->
        load_document (JObj d) = Raise e).
Proof.
  unfold load_document, dict_get. split.
  - now intros ->.
  - intros l1 x l2 os e -> H1 Hx. simpl. eapply from_items_stops; eassumption.
Qed.

(* ===================================================================== *)
(** * Further properties of the step runner *)
(* ===================================================================== *)

Section Progress.

Context {Host : Type}.
Implicit Types (w : World Host) (step : Step Host) (steps : list (Step Host)).

Lemma run_step_observed_progress i step w r w' v :
  bar_free step ->
  run_step_observed i step w = (r, w', v) ->
  progress w' = (progress w + if completed v then 1 else 0)%nat.
Proof.
  intros [Hs Hf]. unfold run_step_observed.
  destruct (should_skip step w) as [[[|]|e] ws] eqn:Es.
  - run_tail. intros [= _ <- <-]. simpl. rewrite (Hs _ _ _ Es). reflexivity.
  - run_tail.
    match goal with |- context [fn step ?wc] => set (w_call := wc) end.
    destruct (fn step w_call) as [[val|e] w3] eqn:E3.
    + intros [= _ <- <-]. simpl. rewrite (Hf _ _ _ E3). subst w_call. simpl.
      now rewrite (Hs _ _ _ Es).
    + intros [= _ <- <-]. simpl. rewrite (Hf _ _ _ E3). subst w_call. simpl.
      rewrite (Hs _ _ _ Es). lia.
  - intros [= _ <- <-]. simpl. rewrite (Hs _ _ _ Es). lia.
Qed.

Lemma run_steps_observed_progress i steps w r w' tr :
  Forall bar_free steps ->
  run_steps_observed i steps w = (r, w', tr) ->
  progress w' = (progress w + length (List.filter completed tr))%nat.
Proof.
  intros HF. revert i w r w' tr.
  induction HF as [|step rest Hs _ IH]; intros i w r w' tr H; simpl in H.
  - injection H as _ <- <-. simpl. lia.
  - destruct (run_step_observed i step w) as [[[[]|e] w1] v] eqn:E.
    + destruct (run_steps_observed (S i) rest w1) as [[r2 w2] tr2] eqn:E2.
      injection H as _ <- <-.
      rewrite (IH _ _ _ _ _ E2), (run_step_observed_progress _ _ _ _ _ _ Hs E).
      simpl. destruct (completed v); simpl; lia.
    + injection H as _ <- <-.
      rewrite (run_step_observed_progress _ _ _ _ _ _ Hs E).
      simpl. destruct (completed v); simpl; lia.
Qed.

Lemma run_step_observed_completed i step w w' v :
  run_step_observed i step w = (Ok tt, w', v) -> completed v = true.
Proof.
  intros E. destruct v as [| |j e]; try reflexivity.
  unfold run_step_observed in E.
  destruct (should_skip step w) as [[[|]|e1] ws];
    [revert E; run_tail; discriminate | | discriminate].
  revert E. run_tail. destruct (fn step _) as [[val|e1] w3]; discriminate.
Qed.

Lemma completed_all i steps w w' tr :
  run_steps_observed i steps w = (Ok tt, w', tr) ->
  List.filter completed tr = tr /\ length tr = length steps.
Proof.
  revert i w tr. induction steps as [|step rest IH]; intros i w tr H; simpl in H.
  - injection H as _ <-. split; reflexivity.
  - destruct (run_step_observed i step w) as [[[[]|e] w1] v] eqn:E; [|discriminate].
    destruct (run_steps_observed (S i) rest w1) as [[r2 w2] tr2] eqn:E2.
    injection H as -> -> <-. destruct (IH _ _ _ E2) as [F L].
    simpl. rewrite (run_step_observed_completed _ _ _ _ _ E), F, L. split; reflexivity.
Qed.

Lemma completed_but_last i steps w e w' tr :
  run_steps_observed i steps w = (Raise e, w', tr) ->
  S (length (List.filter completed tr)) = length tr.
Proof.
  revert i w tr. induction steps as [|step rest IH]; intros i w tr H; simpl in H;
    [discriminate|].
  destruct (run_step_observed i step w) as [[[[]|e1] w1] v] eqn:E.
  - destruct (run_steps_observed (S i) rest w1) as [[r2 w2] tr2] eqn:E2.
    injection H as -> -> <-. simpl.
    rewrite (run_step_observed_completed _ _ _ _ _ E). simpl.
    now rewrite (IH _ _ _ E2).
  - injection H as -> -> <-. apply run_step_observed_raise in E. now subst v.
Qed.

Lemma run_steps_progress_returns steps w w' :
  Forall bar_free steps ->
  run_steps steps w = (Ok tt, w') ->
  progress w' = (progress w + length steps)%nat.
Proof.
  intros HF H. pose proof (run_steps_observed_erase 0 steps w) as Er. rewrite H in Er.
  destruct (run_steps_observed 0 steps w) as [[r0 w0] tr] eqn:O. simpl in Er.
  injection Er as -> ->.
  rewrite (run_steps_observed_progress _ _ _ _ _ _ HF O).
  destruct (completed_all _ _ _ _ _ O) as [F L]. now rewrite F, L.
Qed.

(** X16.  The progress bar counts steps, not executions: when the steps leave
    the bar alone, a run that returns has advanced it by the length of the
    list, however many steps were skipped; a run that raises has advanced
    it by the number of steps before the one that raised. *)
Theorem run_steps_advances_progress steps w r w' :
  Forall bar_free steps ->
  run_steps steps w = (r, w') ->
  match r with
  | Ok _ => progress w' = (progress w + length steps)%nat
  | Raise e =>
      exists k tr, (k < length steps)%nat
        /\ run_steps_observed 0 steps w = (Raise e, w', tr)
        /\ List.last tr (Skipped 0) = Failed k e
        /\ progress w' = (progress w + k)%nat
  end.
Proof.
  intros HF H. pose proof (run_steps_observed_erase 0 steps w) as Er. rewrite H in Er.
  destruct (run_steps_observed 0 steps w) as [[r0 w0] tr] eqn:O. simpl in Er.
  injection Er as -> ->.
  pose proof (run_steps_observed_progress _ _ _ _ _ _ HF O) as P.
  destruct r as [[]|e].
  - destruct (completed_all _ _ _ _ _ O) as [F L]. now rewrite P, F, L.
  - destruct (run_steps_fail_fast _ _ _ _ _ _ O) as (k & Hk & Hidx & Hlast).
    exists k, tr. split; [exact Hk|]. split; [reflexivity|]. split; [exact Hlast|].
    rewrite P. f_equal.
    pose proof (completed_but_last _ _ _ _ _ _ O) as C.
    apply (f_equal (@length nat)) in Hidx. rewrite length_map, length_seq in Hidx. lia.
Qed.

End Progress.

(* ===================================================================== *)
(** * Further properties of the deployment pipeline *)
(* ===================================================================== *)

Section Pipeline.

Context {Host : Type}.
Variables (token_hex token_urlsafe : nat -> string) (isoformat : Z -> string).
Variable external : Collaborator -> Config -> list Value -> M (Machine Host) Value.
Implicit Types (w : World Host) (mc : Machine Host) (cfg : Config).
Implicit Types (step : Step Host) (steps : list (Step Host)).

Local Abbreviation body := (deploy_body token_hex token_urlsafe isoformat external).
Local Abbreviation cleanup := (deploy_cleanup isoformat).
Local Abbreviation ensure := (_ensure_first_token token_hex token_urlsafe isoformat).

(** *** The progress bar *)

Lemma keeps_progress_ret {A} (x : A) : keeps_progress (@ret (World Host) A x).
Proof. intros w r w' [= _ <-]. reflexivity. Qed.

Lemma keeps_progress_raise {A} e : keeps_progress (@raise (World Host) A e).
Proof. intros w r w' [= _ <-]. reflexivity. Qed.

Lemma keeps_progress_lift_machine {A} (m : M (Machine Host) A) :
  keeps_progress (lift_machine m).
Proof.
  intros w r w'. unfold lift_machine. destruct (m (machine w)) as [r0 mc].
  intros [= _ <-]. reflexivity.
Qed.

Lemma keeps_progress_call c cfg args : keeps_progress (call external c cfg args).
Proof. apply keeps_progress_lift_machine. Qed.

Lemma keeps_progress_get_result b : keeps_progress (@get_result Host b).
Proof. intros w r w' [= _ <-]. reflexivity. Qed.

Lemma keeps_progress_attr_value v : keeps_progress (@attr_value Host v).
Proof. destruct v; intros w r w' [= _ <-]; reflexivity. Qed.

Lemma keeps_progress_set_result b v : keeps_progress (@set_result Host b v).
Proof. intros w r w' [= _ <-]. reflexivity. Qed.

Lemma keeps_progress_bind {A B} (m : M (World Host) A) (k : A -> M (World Host) B) :
  keeps_progress m -> (forall x, keeps_progress (k x)) -> keeps_progress (bind m k).
Proof.
  intros Hm Hk w r w'. unfold bind. destruct (m w) as [[x|e] w1] eqn:E.
  - intros H. rewrite (Hk _ _ _ _ H). exact (Hm _ _ _ E).
  - intros [= _ <-]. exact (Hm _ _ _ E).
Qed.

Lemma keeps_progress_if {A} (b : bool) (m1 m2 : M (World Host) A) :
  keeps_progress m1 -> keeps_progress m2 -> keeps_progress (if b then m1 else m2).
Proof. now destruct b. Qed.

Create HintDb bar.
#[local] Hint Resolve keeps_progress_ret keeps_progress_raise keeps_progress_lift_machine
  keeps_progress_call keeps_progress_get_result keeps_progress_attr_value
  keeps_progress_set_result keeps_progress_if : bar.
#[local] Hint Extern 2 (@keeps_progress _ _ (bind _ _)) =>
  apply keeps_progress_bind; [|intro] : bar.

Ltac bar_free_steps :=
  repeat (constructor;
          [split; [unfold should_skip; simpl; auto with bar
                  | simpl; unfold _write_config, _setup_local_proxy, _setup_tls,
                      _internal_test; auto 40 with bar]|]);
  try constructor.

Lemma system_steps_bar_free cfg :
  Forall bar_free (system_steps token_hex token_urlsafe isoformat external cfg).
Proof. unfold system_steps, token_step. bar_free_steps. Qed.

Lemma model_steps_bar_free cfg :
  Forall bar_free [llm_step external cfg; emb_step external cfg].
Proof. unfold llm_step, emb_step. bar_free_steps. Qed.

Lemma service_steps_bar_free cfg : Forall bar_free (service_steps external cfg).
Proof.
  unfold service_steps, health_step, smoke_step.
  destruct (publish cfg || AuthMode_eqb (auth_mode cfg) HASHED); bar_free_steps.
Qed.

Lemma resolve_from_disk_keeps_progress cfg :
  keeps_progress (_resolve_from_disk external cfg).
Proof.
  unfold _resolve_from_disk, resolve_one_from_disk.
  apply keeps_progress_if; [auto with bar|].
  apply keeps_progress_bind; [|intro];
    (apply keeps_progress_bind; [auto with bar|intros v; destruct v; auto 20 with bar]).
Qed.

(** X17.  When the pipeline of [run_deploy] completes, the progress bar stands
    at its total, the sixteen steps of [all_steps], whatever the
    configuration made it skip. *)
Theorem deploy_body_fills_progress_bar cfg first_run w0 w_body :
  body cfg first_run w0 = (Ok tt, w_body) ->
  progress w_body
  = length (system_steps token_hex token_urlsafe isoformat external cfg
            ++ [llm_step external cfg; emb_step external cfg]
            ++ service_steps external cfg)
  /\ progress w_body = 16%nat.
Proof.
  intros H. assert (progress w_body = 16%nat) as P; [|split; [rewrite P; reflexivity | exact P]].
  revert H. unfold deploy_body. unfold bind at 1. unfold modify at 1.
  set (w1 := mkWorld (machine w0) (results w0) 0).
  unfold bind at 1.
  destruct (run_steps _ w1) as [[[]|e] w2] eqn:E1; [|discriminate].
  apply (run_steps_progress_returns _ _ _ (system_steps_bar_free cfg)) in E1.
  unfold bind at 1.
  destruct (_resolve_from_disk external cfg w2) as [[[]|e] w3] eqn:E2; [|discriminate].
  apply resolve_from_disk_keeps_progress in E2.
  unfold bind at 1.
  destruct (run_steps _ w3) as [[[]|e] w4] eqn:E3; [|discriminate].
  apply (run_steps_progress_returns _ _ _ (model_steps_bar_free cfg)) in E3.
  unfold bind at 1.
  destruct (run_steps _ w4) as [[[]|e] w5] eqn:E4; [|discriminate].
  apply (run_steps_progress_returns _ _ _ (service_steps_bar_free cfg)) in E4.
  intros H.
  assert (progress w_body = progress w5) as E5.
  { revert H. apply (keeps_progress_bind _ _ (keeps_progress_get_result _)).
    intros v. auto 20 with bar. }
  rewrite E5, E4, E3, E2, E1. reflexivity.
Qed.

(** *** Which steps run *)

(** A step that was executed had its predicate absent or false. *)
Lemma executed_not_skipped i steps w r w' tr k j v :
  run_steps_observed i steps w = (r, w', tr) ->
  tr !! k = Some (Executed j v) ->
  exists step wk ws,
    steps !! k = Some step /\ j = (i + k)%nat
    /\ should_skip step wk = (Ok false, ws).
Proof.
  revert i w r w' tr k.
  induction steps as [|step rest IH]; intros i w r w' tr k H Hk; simpl in H.
  - injection H as _ _ <-. discriminate.
  - destruct (run_step_observed i step w) as [[r1 w1] v1] eqn:E.
    assert (forall val, v1 = Executed j val ->
              j = i /\ exists ws, should_skip step w = (Ok false, ws)) as Hhead.
    { intros val ->. unfold run_step_observed in E.
      destruct (should_skip step w) as [[[|]|e] ws]; [revert E; run_tail; discriminate
        | | discriminate].
      split; [|eauto]. revert E. run_tail.
      destruct (fn step _) as [[val'|e] w3]; [|discriminate]. now intros [= _ _ ->]. }
    destruct r1 as [[]|e].
    + destruct (run_steps_observed (S i) rest w1) as [[r2 w2] tr2] eqn:E2.
      injection H as _ _ <-. destruct k as [|k'].
      * simpl in Hk. injection Hk as ->. destruct (Hhead v eq_refl) as [-> [ws Hs]].
        exists step, w, ws. split; [reflexivity|]. split; [lia | exact Hs].
      * simpl in Hk. destruct (IH _ _ _ _ _ _ E2 Hk) as (s & wk & ws & Hl & -> & Hs).
        exists s, wk, ws. split; [exact Hl|]. split; [lia | exact Hs].
    + injection H as _ _ <-. destruct k as [|k']; [|discriminate].
      simpl in Hk. injection Hk as ->. destruct (Hhead v eq_refl) as [-> [ws Hs]].
      exists step, w, ws. split; [reflexivity|]. split; [lia | exact Hs].
Qed.

(** X18.  The local auth proxy and the TLS proxy are never both set up: in a
    run of the service steps, the first is executed only in hashed mode
    without TLS, the second only with TLS. *)
Theorem local_proxy_and_tls_exclusive cfg w r w' tr :
  run_steps_observed 0 (service_steps external cfg) w = (r, w', tr) ->
  (forall v, tr !! 3%nat = Some (Executed 3 v) ->
     auth_mode cfg = HASHED /\ use_tls cfg = false)
  /\ (forall v, tr !! 4%nat = Some (Executed 4 v) -> use_tls cfg = true)
  /\ ~ (exists v3 v4, tr !! 3%nat = Some (Executed 3 v3)
                      /\ tr !! 4%nat = Some (Executed 4 v4)).
Proof.
  intros H.
  assert (forall v, tr !! 3%nat = Some (Executed 3 v) ->
            auth_mode cfg = HASHED /\ use_tls cfg = false) as H3.
  { intros v Hv. destruct (executed_not_skipped _ _ _ _ _ _ _ _ _ H Hv)
      as (s & wk & ws & Hl & _ & Hs).
    simpl in Hl. injection Hl as <-. unfold should_skip in Hs. simpl in Hs.
    injection Hs as Hs _. apply orb_false_iff in Hs as [Ha Ht].
    split; [|exact Ht]. now destruct (auth_mode cfg). }
  assert (forall v, tr !! 4%nat = Some (Executed 4 v) -> use_tls cfg = true) as H4.
  { intros v Hv. destruct (executed_not_skipped _ _ _ _ _ _ _ _ _ H Hv)
      as (s & wk & ws & Hl & _ & Hs).
    simpl in Hl. injection Hl as <-. unfold should_skip in Hs. simpl in Hs.
    injection Hs as Hs _. now apply negb_false_iff in Hs. }
  split; [exact H3|]. split; [exact H4|].
  intros (v3 & v4 & Hv3 & Hv4). destruct (H3 _ Hv3) as [_ F]. rewrite (H4 _ Hv4) in F.
  discriminate.
Qed.

(** *** Reusing the models on disk *)

Lemma resolve_one_from_disk_eq cfg role a w :
  resolve_one_from_disk Host external cfg role a w =
  match external (Find_gguf_on_disk role) cfg [] (machine w) with
  | (Raise e, mc) => (Raise e, mkWorld mc (results w) (progress w))
  | (Ok VNone, mc) =>
      (Raise (SystemExit 1),
       mkWorld (snd (log_line (FATAL "--skip-download requested but no matching GGUF found")
                       (snd (tqdm_write
                               (FATAL "--skip-download requested but no matching GGUF found")
                               mc))))
         (results w) (progress w))
  | (Ok v, mc) =>
      (Ok tt, mkWorld (snd (tqdm_write (SKIP_DL v) mc)) (<[a := v]> (results w)) (progress w))
  end.
Proof.
  unfold resolve_one_from_disk, call, bind, lift_machine.
  destruct (external _ cfg [] (machine w)) as [[v|e] mc]; [|reflexivity].
  destruct v; reflexivity.
Qed.

(** X19.  [_resolve_from_disk]: nothing happens unless [skip_download] is set;
    when it is and no file matches for the first model, the run dies
    ([SystemExit(1)], a FATAL line on the console and in the log) before
    the second model is looked for; when only the second is missing, it
    dies with the first result already stored. *)
Theorem resolve_from_disk_outcomes cfg w :
  (skip_download cfg = false -> _resolve_from_disk external cfg w = (Ok tt, w))
  /\ (forall mc1,
        skip_download cfg = true ->
        external (Find_gguf_on_disk "llm") cfg [] (machine w) = (Ok VNone, mc1) ->
        exists w',
          _resolve_from_disk external cfg w = (Raise (SystemExit 1), w')
          /\ results w' = results w
          /\ List.last (console (machine w')) INFO_logging_to
             = FATAL "--skip-download requested but no matching GGUF found"
          /\ List.last (logfile (machine w')) INFO_logging_to
             = FATAL "--skip-download requested but no matching GGUF found"
          /\ host (machine w') = host mc1)
  /\ (forall v1 mc1 mc2,
        skip_download cfg = true ->
        external (Find_gguf_on_disk "llm") cfg [] (machine w) = (Ok v1, mc1) ->
        v1 <> VNone ->
        external (Find_gguf_on_disk "emb") cfg [] (snd (tqdm_write (SKIP_DL v1) mc1))
        = (Ok VNone, mc2) ->
        exists w',
          _resolve_from_disk external cfg w = (Raise (SystemExit 1), w')
          /\ result_of llm_step_addr w' = v1
          /\ results w' !! emb_step_addr = results w !! emb_step_addr).
Proof.
  unfold _resolve_from_disk. repeat split.
  - now intros ->.
  - intros mc1 -> E. change (negb true) with false. cbv iota.
    unfold bind. rewrite resolve_one_from_disk_eq, E.
    eexists. split; [reflexivity|]. simpl.
    repeat split; now rewrite ?last_last.
  - intros v1 mc1 mc2 -> E1 N1 E2. change (negb true) with false. cbv iota.
    unfold bind. rewrite resolve_one_from_disk_eq, E1.
    destruct v1 as [|s|rt|o]; [congruence| | |];
      rewrite resolve_one_from_disk_eq; cbn [machine results progress]; rewrite E2;
      (eexists; split; [reflexivity|]); cbn [machine results progress];
      (split; [unfold result_of; cbn [results]; now rewrite lookup_insert_eq
              | now rewrite lookup_insert_ne by discriminate]).
Qed.

(** X20.  With [skip_download] set and both models on disk, the model phase
    downloads nothing: the two download steps are skipped (two SKIP lines,
    the bar advanced by two), and the results that the later steps read
    are the ones found on disk. *)
Theorem skip_download_uses_disk cfg w v1 mc1 v2 mc2 :
  skip_download cfg = true ->
  external (Find_gguf_on_disk "llm") cfg [] (machine w) = (Ok v1, mc1) ->
  v1 <> VNone ->
  external (Find_gguf_on_disk "emb") cfg [] (snd (tqdm_write (SKIP_DL v1) mc1))
  = (Ok v2, mc2) ->
  v2 <> VNone ->
  exists w',
    (_resolve_from_disk external cfg ;;;
     run_steps [llm_step external cfg; emb_step external cfg]) w = (Ok tt, w')
    /\ result_of llm_step_addr w' = v1
    /\ result_of emb_step_addr w' = v2
    /\ progress w' = (progress w + 2)%nat
    /\ host (machine w') = host mc2
    /\ secrets (machine w') = secrets mc2
    /\ console (machine w')
       = console mc2 ++ [SKIP_DL v2; SKIP "Resolve + download LLM GGUF";
                         SKIP "Resolve + download embedding GGUF"]
    /\ logfile (machine w')
       = logfile mc2 ++ [SKIP "Resolve + download LLM GGUF";
                         SKIP "Resolve + download embedding GGUF"].
Proof.
  intros Hs E1 N1 E2 N2.
  unfold _resolve_from_disk. rewrite Hs. change (negb true) with false. cbv iota.
  unfold bind at 1. unfold bind at 1. rewrite resolve_one_from_disk_eq, E1.
  destruct v1 as [|s1|rt1|o1]; [congruence| | |];
    rewrite resolve_one_from_disk_eq; cbn [machine results progress]; rewrite E2;
    (destruct v2 as [|s2|rt2|o2]; [congruence| | |]);
    unfold run_steps, run_step, llm_step, emb_step, should_skip; simpl skip_if;
    rewrite Hs; run_tail; unfold ret; simpl;
    (eexists; split; [reflexivity|]); simpl; unfold result_of; simpl;
    rewrite <- !app_assoc; simpl;
    repeat split; try lia;
    try (rewrite lookup_insert_ne by discriminate; now rewrite lookup_insert_eq);
    try (now rewrite lookup_insert_eq).
Qed.

(** *** The bootstrap token *)

Local Abbreviation active_of mc := (List.filter is_active (tokens_of (secrets mc))).

(** X21.  [_is_new_token] reads only: it tells whether the store has no
    active token.  When it does not, [_ensure_first_token], called next,
    creates no permanent token.  When it does, [_ensure_first_token]
    creates the permanent token and reports no temporary id, unless
    [cfg.api_token] is a non-empty blank string: then it raises the
    [ValueError] of [create_token] and creates nothing. *)
Theorem is_new_token_agrees_with_bootstrap cfg mc :
  _is_new_token cfg mc
  = (Ok (match active_of mc with [] => true | _ :: _ => false end), mc)
  /\ forall r mc',
       ensure cfg mc = (r, mc') ->
       (active_of mc <> [] -> created_permanent (mc, r, mc') = false)
       /\ (active_of mc = [] -> forall rt, r = Ok rt ->
             created_permanent (mc, r, mc') = true
             /\ TokenRuntime.temporary_id rt = None)
       /\ (active_of mc = [] -> ~ rejected cfg ->
             exists rt, r = Ok rt
                        /\ created_permanent (mc, r, mc') = true
                        /\ TokenRuntime.temporary_id rt = None)
       /\ (active_of mc = [] -> rejected cfg ->
             r = Raise (ValueError Token_value_must_not_be_empty)
             /\ secrets mc' = secrets mc
             /\ console mc' = console mc
             /\ created_permanent (mc, r, mc') = false).
Proof.
  split.
  - unfold _is_new_token, bind, lift_fs. rewrite active_tokens_eq. unfold ret.
    destruct mc as [fs co lo cl ur ho]. simpl.
    destruct (List.filter is_active (tokens_of fs)); reflexivity.
  - intros r mc' E.
    assert (active_of mc = [] -> forall rt, r = Ok rt ->
              created_permanent (mc, r, mc') = true
              /\ TokenRuntime.temporary_id rt = None) as Hok.
    { intros A rt ->.
      destruct (ensure_once _ _ _ _ _ _ _ E) as [T C].
      destruct C as [(_ & _ & R) | (rec & rt' & N & _ & [= <-] & D)].
      - destruct (R A) as [[e He] _]. discriminate.
      - destruct D as [(_ & Ht & _) | (A' & _)]; [|contradiction].
        unfold created_permanent. rewrite N, Ht. split; reflexivity. }
    split; [|split; [exact Hok|split]].
    + intros A. now destruct (ensure_keeps_active _ _ _ _ _ _ _ E A).
    + intros A NR.
      destruct (ensure_once _ _ _ _ _ _ _ E) as [T C].
      destruct C as [(_ & _ & R) | (rec & rt & _ & _ & -> & _)].
      * destruct (R A) as [_ Rj]. contradiction.
      * exists rt. split; [reflexivity|]. now apply Hok.
    + intros A [Tr Bl]. revert E.
      unfold _ensure_first_token. unfold bind at 1. unfold lift_fs at 1.
      rewrite active_tokens_eq, A.
      replace (mkMachine (secrets mc) (console mc) (logfile mc) (clock mc) (urandom mc)
                 (host mc)) with mc by now destruct mc.
      unfold bind at 1. rewrite store_create_token_eq. cbv zeta. rewrite Tr.
      rewrite create_token_rejected by (now rewrite raw_value_truthy).
      intros [= <- <-]. split; [reflexivity|]. split; [reflexivity|].
      split; [reflexivity|]. unfold created_permanent.
      now rewrite new_records_same.
Qed.

(** X22.  First deployment with an explicit token: on a store without active
    token, [_ensure_first_token] returns exactly the configured value and
    no temporary id, and the store then has one active token, under the
    configured name; in plaintext mode it holds that value. *)
Theorem bootstrap_honors_explicit_token cfg mc v :
  active_of mc = [] ->
  api_token cfg = Some v ->
  str_truthy (strip v) = true ->
  exists mc' rec,
    ensure cfg mc = (Ok (TokenRuntime.mk (Some v) None), mc')
    /\ fst (TokenStore.active_tokens (secrets mc')) = Ok [rec]
    /\ TokenRecord.name rec = api_token_name cfg
    /\ TokenRecord.id rec = "tk_" +:+ token_hex (urandom mc)
    /\ match auth_mode cfg with
       | PLAINTEXT => TokenRecord.value rec = Some v /\ TokenRecord.hash rec = None
       | HASHED => TokenRecord.value rec = None
                   /\ TokenRecord.hash rec = Some (sha256_hex v)
       end.
Proof.
  intros A Hv Hs.
  destruct (accepted_nonempty v Hs) as (c & s & ->).
  unfold _ensure_first_token. unfold bind at 1. unfold lift_fs at 1.
  rewrite active_tokens_eq, A.
  replace (mkMachine (secrets mc) (console mc) (logfile mc) (clock mc) (urandom mc) (host mc))
    with mc by now destruct mc.
  unfold bind at 1. rewrite store_create_token_eq, Hv. cbv zeta.
  change (truthy (Some (String c s))) with true. cbv iota.
  rewrite (create_token_accepted _ _ (Some (String c s)) _ _ _ _ Hs).
  rewrite raw_value_explicit.
  destruct (auth_mode cfg); unfold bind, tqdm_write, modify, ret;
    cbn [secrets console logfile clock urandom host];
    eexists _, _; (split; [reflexivity|]);
    cbn [secrets console logfile clock urandom host];
    rewrite active_tokens_eq, tokens_of_written, List.filter_app, A;
    (split; [reflexivity|]); repeat split.
Qed.

(** X23.  Redeployment over a store whose first active token has its plaintext:
    [_ensure_first_token] returns that plaintext and creates nothing; the
    store and the entropy are untouched. *)
Theorem bootstrap_reuses_plaintext cfg mc a0 rest :
  active_of mc = a0 :: rest ->
  truthy (TokenRecord.value a0) = true ->
  exists mc',
    ensure cfg mc = (Ok (TokenRuntime.mk (TokenRecord.value a0) None), mc')
    /\ secrets mc' = secrets mc
    /\ urandom mc' = urandom mc
    /\ console mc' = console mc ++ [OK_existing_token (TokenRecord.id a0)].
Proof.
  intros A T. unfold _ensure_first_token. unfold bind at 1. unfold lift_fs at 1.
  rewrite active_tokens_eq, A. unfold bind, tqdm_write, modify. rewrite T.
  eexists. split; [reflexivity|]. repeat split.
Qed.

(** X24.  Redeployment where the first active token has no plaintext: a
    token named [__deploy-smoke-test] is created, its generated secret is
    what is returned, together with its id; and when that id is new to the
    store, the guarded revocation of the cleanup succeeds and gives back
    the active tokens there were, with the artifact as derived from the
    records there were: the file there was before whenever it was in step
    with [tokens.json], a rebuilt one when it was absent or stale. *)
Theorem bootstrap_temporary_token_is_reverted cfg mc a0 rest :
  active_of mc = a0 :: rest ->
  truthy (TokenRecord.value a0) = false ->
  Forall (fun t => has_id ("tk_" +:+ token_hex (urandom mc)) t = false)
    (tokens_of (secrets mc)) ->
  let tid := "tk_" +:+ token_hex (urandom mc) in
  exists mc' mc'',
    ensure cfg mc
    = (Ok (TokenRuntime.mk (Some ("sk-" +:+ token_urlsafe (S (urandom mc)))) (Some tid)), mc')
    /\ (exists rec, new_records mc mc' = [rec]
                    /\ TokenRecord.name rec = "__deploy-smoke-test"
                    /\ TokenRecord.id rec = tid
                    /\ In rec (active_of mc'))
    /\ revoke_temporary isoformat cfg tid mc' = (Ok tt, mc'')
    /\ fst (TokenStore.active_tokens (secrets mc''))
       = fst (TokenStore.active_tokens (secrets mc))
    /\ artifact_of (auth_mode cfg) (secrets mc'')
       = Some (derived (auth_mode cfg) (tokens_of (secrets mc)))
    /\ List.last (console mc'') INFO_logging_to = CLEANUP_revoked tid
    /\ (artifact_of (auth_mode cfg) (secrets mc)
        = Some (derived (auth_mode cfg) (tokens_of (secrets mc))) ->
        artifact_of (auth_mode cfg) (secrets mc'')
        = artifact_of (auth_mode cfg) (secrets mc)).
Proof.
  intros A T Hfresh tid.
  unfold _ensure_first_token. unfold bind at 1. unfold lift_fs at 1.
  rewrite active_tokens_eq, A. unfold bind at 1. unfold tqdm_write at 1, modify at 1.
  cbv beta iota. rewrite T. unfold bind at 1. rewrite store_create_token_eq. cbv zeta.
  change (truthy None) with false. cbv iota.
  cbn [secrets console logfile clock urandom host].
  pose proof (create_token_accepted (auth_mode cfg) "__deploy-smoke-test" None
                (token_hex (urandom mc)) (token_urlsafe (S (urandom mc)))
                (isoformat (clock mc)) (secrets mc) (generated_not_blank _)) as Ec.
  cbv zeta in Ec. rewrite Ec. clear Ec. rewrite raw_value_absent.
  unfold bind, tqdm_write, modify, ret. cbn [secrets console logfile clock urandom host].
  match goal with |- context [written _ (_ ++ [?s]) _] => set (stored := s) end.
  assert (TokenRecord.id stored = tid /\ TokenRecord.name stored = "__deploy-smoke-test"
          /\ TokenRecord.revoked stored = false) as (Hid & Hname & Hrev)
    by (subst stored; destruct (auth_mode cfg); repeat split).
  eexists _, _. split.
  { f_equal. f_equal. subst stored. destruct (auth_mode cfg); reflexivity. }
  split.
  { exists stored.
    split; [apply new_records_appended; cbn [secrets]; now rewrite tokens_of_written|].
    split; [exact Hname|]. split; [exact Hid|].
    cbn [secrets]. rewrite tokens_of_written, List.filter_app. apply in_or_app. right.
    cbn [List.filter]. unfold is_active at 1. rewrite Hrev. now left. }
  assert (TokenStore.revoke_token (auth_mode cfg) tid (isoformat (clock mc))
            (written (auth_mode cfg) (tokens_of (secrets mc) ++ [stored]) (secrets mc))
          = (Ok (TokenRecord.set_revoked (isoformat (clock mc)) stored),
             written (auth_mode cfg)
               (tokens_of (secrets mc) ++ [TokenRecord.set_revoked (isoformat (clock mc)) stored])
               (written (auth_mode cfg) (tokens_of (secrets mc) ++ [stored]) (secrets mc))))
    as Er.
  { rewrite revoke_token_eq, tokens_of_written.
    erewrite split_first_intro; [| exact Hfresh | unfold has_id; rewrite Hid; apply String.eqb_refl].
    now rewrite Hrev. }
  rewrite revoke_temporary_eq. cbn [secrets console logfile clock urandom host].
  rewrite Er. split; [reflexivity|].
  cbn [secrets console logfile clock urandom host].
  rewrite !active_tokens_eq, tokens_of_written, artifact_written.
  assert (derived (auth_mode cfg)
            (tokens_of (secrets mc) ++ [TokenRecord.set_revoked (isoformat (clock mc)) stored])
          = derived (auth_mode cfg) (tokens_of (secrets mc))) as D
    by (destruct (auth_mode cfg); cbn [derived];
        now rewrite active_secrets_app, active_secrets_revoked, app_nil_r).
  rewrite D. split; [|split; [reflexivity|split]].
  - cbn [fst]. f_equal. rewrite List.filter_app. cbn [List.filter].
    unfold is_active at 2. cbn. now rewrite app_nil_r.
  - now rewrite last_last.
  - now intros ->.
Qed.

(** *** The cleanup *)

(** X25.  The [finally] of [run_deploy] absorbs every failure of the
    revocation (unknown id, token already revoked): whatever the
    bootstrap step left as its result and whatever the store holds, it
    returns normally, ends by logging END, and leaves the step results,
    the bar and the number of records as they are. *)
Theorem deploy_cleanup_absorbs_revocation_failures cfg w :
  exists w',
    cleanup cfg w = (Ok tt, w')
    /\ results w' = results w
    /\ progress w' = progress w
    /\ List.last (logfile (machine w')) INFO_logging_to
       = END (isoformat (clock (machine w)))
    /\ length (tokens_of (secrets (machine w')))
       = length (tokens_of (secrets (machine w))).
Proof.
  unfold deploy_cleanup, bind, get_result.
  assert (forall tid,
            exists mc', revoke_temporary isoformat cfg tid (machine w) = (Ok tt, mc')
              /\ clock mc' = clock (machine w)
              /\ length (tokens_of (secrets mc')) = length (tokens_of (secrets (machine w))))
    as Hrev.
  { intros tid. rewrite revoke_temporary_eq, revoke_token_eq.
    destruct (split_first _ _) as [[[l1 t] l2]|] eqn:Sp;
      [|eexists; split; [reflexivity|]; split; reflexivity].
    destruct (TokenRecord.revoked t); (eexists; split; [reflexivity|]);
      (split; [reflexivity|]); [reflexivity|].
    simpl. rewrite tokens_of_written. apply split_first_Some in Sp as (-> & _).
    rewrite !length_app. reflexivity. }
  destruct (result_of token_step_addr w) as [| s | rt | o];
    try (eexists; split; [reflexivity|]; simpl; repeat split; now rewrite last_last).
  destruct (truthy (TokenRuntime.temporary_id rt));
    [|eexists; split; [reflexivity|]; simpl; repeat split; now rewrite last_last].
  unfold lift_machine at 1.
  destruct (Hrev (default "" (TokenRuntime.temporary_id rt))) as (mc' & -> & Hc & Hl).
  eexists. split; [reflexivity|]. simpl. rewrite Hc.
  repeat split; [now rewrite last_last | exact Hl].
Qed.

(** X26.  The cleanup revokes nothing unless the bootstrap step reported a
    temporary token: with a permanent or reused token (no [temporary_id]),
    or with the step never run, the store and the console are left as they
    are, and only the END line is logged. *)
Theorem deploy_cleanup_spares_permanent_tokens cfg w :
  (forall rt, result_of token_step_addr w = VTokenRuntime rt ->
              truthy (TokenRuntime.temporary_id rt) = false) ->
  exists w',
    cleanup cfg w = (Ok tt, w')
    /\ secrets (machine w') = secrets (machine w)
    /\ console (machine w') = console (machine w)
    /\ logfile (machine w') = logfile (machine w) ++ [END (isoformat (clock (machine w)))].
Proof.
  intros H. unfold deploy_cleanup, bind, get_result.
  destruct (result_of token_step_addr w) as [| s | rt | o];
    try (eexists; split; [reflexivity|]; repeat split).
  rewrite (H rt eq_refl). eexists; split; [reflexivity|]; repeat split.
Qed.

End Pipeline.

(* ===================================================================== *)
(** * Worked instances *)
(* ===================================================================== *)

Example sha256_secret_token :
  sha256_hex "sk-secret-token"
  = "53dbc9ff53863c3e68e75bc84adec682c8e85b4e3ea21456215010425b1039db".
Proof. vm_compute. reflexivity. Qed.

(** Hashed mode, explicit value, fresh secrets directory. *)
Lemma create_token_hashed_persists_hash_only_witness :
  str_truthy (strip (TokenStore.raw_value_of (Some "sk-secret-token") "")) = true
  /\ exists display stored fs',
       TokenStore.create_token HASHED "app" (Some "sk-secret-token")
         "0123456789ab" "" ex_now None = (Ok display, fs')
       /\ tokens_of fs' = [stored]
       /\ TokenRecord.value stored = None
       /\ TokenRecord.hash stored = Some (sha256_hex "sk-secret-token")
       /\ TokenRecord.value display = Some "sk-secret-token".
Proof.
  split; [reflexivity|].
  destruct (create_token_hashed_persists_hash_only "app" (Some "sk-secret-token")
              "0123456789ab" "" ex_now None eq_refl)
    as (display & stored & fs' & H & T & V & Hh & Vd & _).
  exists display, stored, fs'. repeat split; assumption.
Defined.

(** Plaintext mode, explicit value, fresh secrets directory. *)
Lemma mutation_rewrites_artifact_witness :
  exists r fs',
    TokenStore.create_token PLAINTEXT "app" (Some "sk-explicit-token")
      "0123456789ab" "" ex_now None = (Ok r, fs')
    /\ artifact_of PLAINTEXT fs' = Some (derived PLAINTEXT (tokens_of fs'))
    /\ artifact_of PLAINTEXT fs' = Some (Keyfile ("sk-explicit-token" +:+ newline)).
Proof.
  eexists _, _. split; [vm_compute; reflexivity|]. split; [|vm_compute; reflexivity].
  eapply (mutation_rewrites_artifact PLAINTEXT None). left.
  exists "app", (Some "sk-explicit-token"), "0123456789ab", "", ex_now.
  vm_compute. reflexivity.
Defined.

(** The failing input of C5, evaluated. *)
Example create_token_empty_value_example :
  TokenStore.create_token PLAINTEXT "app" (Some "") "0123456789ab" "URLSAFE" ex_now None
  = (Ok (TokenRecord.mk "tk_0123456789ab" "app" ex_now false None (Some "sk-URLSAFE") None),
     Some (mkSecretsDir
             (Some [TokenRecord.mk "tk_0123456789ab" "app" ex_now false None
                      (Some "sk-URLSAFE") None])
             (Some ("sk-URLSAFE" +:+ newline)) None)).
Proof. reflexivity. Qed.

Example create_token_blank_value_example :
  TokenStore.create_token PLAINTEXT "app" (Some "  ") "0123456789ab" "URLSAFE" ex_now None
  = (Raise (ValueError Token_value_must_not_be_empty), None).
Proof. reflexivity. Qed.

(** Revoking the active record of [ex_store], then once more. *)
Lemma revoke_token_outcomes_witness :
  exists t' fs',
    TokenStore.revoke_token HASHED "tk_00000000aaaa" ex_now ex_store = (Ok t', fs')
    /\ TokenRecord.revoked t' = true
    /\ TokenStore.active_tokens fs' = (Ok [], fs')
    /\ artifact_of HASHED fs' = Some (Hashlist [])
    /\ TokenStore.revoke_token HASHED "tk_00000000bbbb" ex_now ex_store
       = (Raise (ValueError (Token_is_already_revoked "tk_00000000bbbb")), ex_store)
    /\ TokenStore.revoke_token HASHED "tk_none" ex_now ex_store
       = (Raise (KeyError (Token_not_found "tk_none")), ex_store).
Proof.
  destruct (revoke_token_outcomes HASHED "tk_00000000aaaa" ex_now ex_store) as [_ H].
  destruct (H [] ex_existing [ex_revoked] eq_refl ltac:(constructor) eq_refl) as [_ H2].
  destruct (H2 eq_refl) as (t' & fs' & E & R & _ & _ & _ & _ & _ & A & _ & D).
  destruct (revoke_token_outcomes HASHED "tk_00000000bbbb" ex_now ex_store) as [_ Hb].
  destruct (Hb [ex_existing] ex_revoked [] eq_refl
              ltac:(repeat constructor) eq_refl) as [Hb1 _].
  destruct (revoke_token_outcomes HASHED "tk_none" ex_now ex_store) as [Hn _].
  exists t', fs'. split; [exact E|]. split; [exact R|]. split; [exact A|].
  split; [exact D|]. split; [exact (Hb1 eq_refl)|].
  apply Hn. repeat constructor.
Defined.

(** A hashed-mode record cannot be shown; nothing is shown for an unknown id. *)
Lemma show_token_outcomes_witness :
  TokenStore.show_token HASHED "tk_00000000aaaa" ex_store
  = (Raise (ValueError (Token_was_created_in_hashed_mode "tk_00000000aaaa")), ex_store)
  /\ TokenStore.show_token PLAINTEXT "tk_00000000bbbb" ex_store = (Ok ex_revoked, ex_store)
  /\ TokenStore.show_token HASHED "tk_none" ex_store
     = (Raise (KeyError (Token_not_found "tk_none")), ex_store).
Proof.
  destruct (show_token_outcomes HASHED "tk_00000000aaaa" ex_store) as [_ H].
  destruct (H [] ex_existing [ex_revoked] eq_refl ltac:(constructor) eq_refl) as [H1 _].
  destruct (show_token_outcomes PLAINTEXT "tk_00000000bbbb" ex_store) as [_ Hb].
  destruct (Hb [ex_existing] ex_revoked [] eq_refl
              ltac:(repeat constructor) eq_refl) as [_ Hb2].
  destruct (show_token_outcomes HASHED "tk_none" ex_store) as [Hn _].
  split; [exact (H1 eq_refl eq_refl)|]. split; [exact (Hb2 (or_introl eq_refl))|].
  apply Hn. repeat constructor.
Defined.

(** No secrets directory at all. *)
Lemma missing_tokens_json_reads_as_empty_witness :
  tokens_json_missing None
  /\ TokenStore.list_tokens None = (Ok [], None)
  /\ TokenStore.active_tokens None = (Ok [], None)
  /\ TokenStore.show_token HASHED "tk_0123456789ab" None
     = (Raise (KeyError (Token_not_found "tk_0123456789ab")), None)
  /\ exists display stored d',
       TokenStore.create_token HASHED "app" None "0123456789ab" "URLSAFE" ex_now None
       = (Ok display, Some d')
       /\ tokens_json d' = Some [stored]
       /\ token_hashes_json d' = Some [sha256_hex "sk-URLSAFE"].
Proof.
  split; [exact I|].
  destruct (missing_tokens_json_reads_as_empty HASHED None I) as (L & A & Sh & _ & C).
  split; [exact L|]. split; [exact A|]. split; [apply Sh|].
  destruct (C "app" None "0123456789ab" "URLSAFE" ex_now (generated_not_blank _))
    as (display & stored & d' & E & T & _ & _).
  exists display, stored, d'. split; [exact E|]. split; [exact T|].
  vm_compute in E. injection E as _ <-. vm_compute. reflexivity.
Defined.

(** Ports 3000 and 3001 taken, 3002 free; and 3000, 3001 to be avoided. *)
Lemma pick_free_bind_port_smallest_witness :
  pick_free_bind_port 3 ex_probe "0.0.0.0" 3000 ∅ = Some 3002
  /\ pick_free_bind_port 3 (fun _ _ => true) "127.0.0.1" 3000 {[3000; 3001]} = Some 3002.
Proof.
  assert (port_ok ex_probe "0.0.0.0" ∅ 3002) as Ok1.
  { split; [apply not_elem_of_empty | reflexivity]. }
  assert (port_ok (fun _ _ => true) "127.0.0.1" {[3000; 3001]} 3002) as Ok2.
  { split; [|reflexivity]. intros [H|H]%elem_of_union; apply elem_of_singleton in H; lia. }
  split.
  - destruct (pick_free_bind_port_smallest ex_probe "0.0.0.0" 3000 ∅ 3002 ltac:(lia) Ok1)
      as (p & Hp & _ & _ & _ & _ & Hu).
    rewrite (Hp 3%nat) by (vm_compute; lia).
    f_equal. symmetry. apply (Hu 3%nat). vm_compute. reflexivity.
  - destruct (pick_free_bind_port_smallest (fun _ _ => true) "127.0.0.1" 3000
                {[3000; 3001]} 3002 ltac:(lia) Ok2)
      as (p & Hp & _ & _ & _ & _ & Hu).
    rewrite (Hp 3%nat) by (vm_compute; lia).
    f_equal. symmetry. apply (Hu 3%nat). vm_compute. reflexivity.
Defined.

(** Three steps: one executed, one skipped, one reading the first one's
    result. *)
Lemma run_steps_in_order_once_each_witness :
  exists w' tr,
    run_steps ex_steps ex_world = (Ok tt, w')
    /\ run_steps_observed 0 ex_steps ex_world = (Ok tt, w', tr)
    /\ map visit_index tr = [0; 1; 2]%nat
    /\ result_of 0 w' = VStr "done" /\ result_of 1 w' = VNone
    /\ result_of 2 w' = VStr "done".
Proof.
  assert (run_steps ex_steps ex_world = (Ok tt, snd (run_steps ex_steps ex_world))) as H
    by (vm_compute; reflexivity).
  destruct (run_steps_in_order_once_each ex_steps ex_world _ H) as (tr & O & Ix & _).
  eexists _, tr. split; [exact H|]. split; [exact O|]. split; [exact Ix|].
  vm_compute. repeat split.
Defined.

(** Bootstrap, three times in a row, on an empty hashed-mode store: one
    permanent token, then temporary ones. *)
Lemma ensure_first_token_idempotent_witness :
  let runs := invocations ex_token_hex ex_token_urlsafe ex_isoformat 3 ex_cfg
                (ex_machine None) in
  map created_permanent runs = [true; false; false]
  /\ map (fun inv : Machine unit * Result TokenRuntime.t * Machine unit =>
            match snd (fst inv) with
            | Ok rt => TokenRuntime.temporary_id rt
            | Raise _ => None
            end) runs
     = [None; Some "tk_a1b2c3d4e5f6"; Some "tk_ffeeddccbbaa"]
  /\ (length (List.filter created_permanent runs) <= 1)%nat
  /\ Forall (fun inv => created_permanent inv = false) (tail runs).
Proof.
  intros runs. split; [vm_compute; reflexivity|]. split; [vm_compute; reflexivity|].
  destruct (ensure_first_token_idempotent ex_token_hex ex_token_urlsafe ex_isoformat
              ex_cfg 3 (ex_machine None)) as (H1 & H2 & _).
  split; [exact H1 | exact H2].
Defined.

(** Redeploying over [ex_store] in hashed mode: a temporary token is
    created by the bootstrap step and revoked by the cleanup. *)
Lemma run_deploy_revokes_temporary_token_witness :
  exists w',
    run_deploy ex_token_hex ex_token_urlsafe ex_isoformat ex_external ex_cfg ex_world
    = (Ok tt, w')
    /\ List.last (console (machine w')) INFO_logging_to = CLEANUP_revoked "tk_0123456789ab"
    /\ TokenStore.active_tokens (secrets (machine w'))
       = (Ok [ex_existing], secrets (machine w')).
Proof.
  set (w0 := snd (deploy_prelude ex_isoformat ex_external ex_cfg ex_world)).
  set (wb := snd (deploy_body ex_token_hex ex_token_urlsafe ex_isoformat ex_external
                    ex_cfg false w0)).
  assert (deploy_prelude ex_isoformat ex_external ex_cfg ex_world = (Ok false, w0)) as H1
    by (vm_compute; reflexivity).
  assert (deploy_body ex_token_hex ex_token_urlsafe ex_isoformat ex_external ex_cfg false w0
          = (Ok tt, wb)) as H2 by (vm_compute; reflexivity).
  destruct (run_deploy_revokes_temporary_token _ _ _ _ _ _ _ _ _ _ H1 H2)
    as (w' & Hrun & _ & _ & Hrev).
  exists w'. split; [exact Hrun|].
  destruct (Hrev (TokenRuntime.mk (Some ("sk-" +:+ ex_token_urlsafe 1))
                    (Some "tk_0123456789ab")) "tk_0123456789ab")
    as (r_rev & E & Hm); [vm_compute; reflexivity | reflexivity | discriminate |].
  destruct r_rev as [t'|e]; [|vm_compute in E; discriminate E].
  destruct Hm as (_ & Hc & _). rewrite Hc. split; [now rewrite last_last|].
  remember (secrets (machine w')) as fs' eqn:Hfs.
  vm_compute in E. injection E as _ <-. vm_compute. reflexivity.
Defined.

(* ===================================================================== *)
(** * Further worked instances *)
(* ===================================================================== *)

(** Plaintext mode, explicit value, on [ex_plain_store]. *)
Lemma create_token_plaintext_persists_value_witness :
  exists r fs',
    TokenStore.create_token PLAINTEXT "app" (Some "sk-explicit-token")
      "0123456789ab" "" ex_now ex_plain_store = (Ok r, fs')
    /\ TokenRecord.value r = Some "sk-explicit-token"
    /\ artifact_of PLAINTEXT fs'
       = Some (Keyfile ("sk-plain" +:+ newline +:+ "sk-explicit-token" +:+ newline)).
Proof.
  destruct (create_token_plaintext_persists_value "app" (Some "sk-explicit-token")
              "0123456789ab" "" ex_now ex_plain_store eq_refl)
    as (r & fs' & E & _ & V & _ & _ & A & _).
  exists r, fs'. split; [exact E|]. split; [exact V|]. rewrite A. reflexivity.
Defined.


(** Revoking the active record of [ex_store]: both records keep their
    place, the revoked one is untouched. *)
Lemma mutation_keeps_records_witness :
  let fs' := snd (TokenStore.revoke_token HASHED "tk_00000000aaaa" ex_now ex_store) in
  mutation HASHED ex_store fs'
  /\ (2 <= length (tokens_of fs'))%nat
  /\ (forall t', tokens_of fs' !! 1%nat = Some t' -> t' = ex_revoked).
Proof.
  intros fs'.
  assert (mutation HASHED ex_store fs') as Hm.
  { apply (by_revoke_token HASHED ex_store fs' "tk_00000000aaaa" ex_now
             (TokenRecord.set_revoked ex_now ex_existing)). reflexivity. }
  destruct (mutation_keeps_records HASHED ex_store fs' Hm) as (L & _ & K).
  split; [exact Hm|]. split; [exact L|].
  intros t' Ht'. now apply (K 1%nat ex_revoked t' eq_refl Ht').
Defined.

(** The same revocation: both records stay consistent. *)
Lemma mutation_keeps_revocation_consistent_witness :
  let fs' := snd (TokenStore.revoke_token HASHED "tk_00000000aaaa" ex_now ex_store) in
  Forall revocation_consistent (tokens_of ex_store)
  /\ mutation HASHED ex_store fs'
  /\ Forall revocation_consistent (tokens_of fs').
Proof.
  intros fs'.
  assert (Forall revocation_consistent (tokens_of ex_store)) as Hc.
  { repeat constructor; simpl; congruence. }
  assert (mutation HASHED ex_store fs') as Hm.
  { apply (by_revoke_token HASHED ex_store fs' "tk_00000000aaaa" ex_now
             (TokenRecord.set_revoked ex_now ex_existing)). reflexivity. }
  split; [exact Hc|]. split; [exact Hm|].
  exact (mutation_keeps_revocation_consistent HASHED ex_store fs' Hc Hm).
Defined.

(** Hashed mode, explicit value, on [ex_store]. *)
Lemma hashed_mode_persists_no_plaintext_witness :
  let fs' := snd (TokenStore.create_token HASHED "app" (Some "sk-secret-token")
                    "0123456789ab" "" ex_now ex_store) in
  Forall (fun t => TokenRecord.value t = None) (tokens_of ex_store)
  /\ mutation HASHED ex_store fs'
  /\ length (tokens_of fs') = 3%nat
  /\ Forall (fun t => TokenRecord.value t = None) (tokens_of fs').
Proof.
  intros fs'.
  assert (Forall (fun t => TokenRecord.value t = None) (tokens_of ex_store)) as Hv
    by (repeat constructor).
  assert (mutation HASHED ex_store fs') as Hm.
  { eapply (by_create_token HASHED ex_store fs' "app" (Some "sk-secret-token")
              "0123456789ab" "" ex_now).
    apply (create_token_accepted HASHED "app" (Some "sk-secret-token")). reflexivity. }
  split; [exact Hv|]. split; [exact Hm|]. split; [reflexivity|].
  exact (hashed_mode_persists_no_plaintext ex_store fs' Hv Hm).
Defined.

(** A plaintext-mode mutation of [ex_store] leaves its
    [token_hashes.json], now stale, as it is. *)
Lemma mutation_leaves_other_artifact_witness :
  let fs' := snd (TokenStore.revoke_token PLAINTEXT "tk_00000000aaaa" ex_now ex_store) in
  mutation PLAINTEXT ex_store fs'
  /\ artifact_of HASHED fs' = Some (Hashlist [sha256_hex "sk-old"])
  /\ artifact_of PLAINTEXT fs' = Some (Keyfile newline).
Proof.
  intros fs'.
  assert (mutation PLAINTEXT ex_store fs') as Hm.
  { apply (by_revoke_token PLAINTEXT ex_store fs' "tk_00000000aaaa" ex_now
             (TokenRecord.set_revoked ex_now ex_existing)). reflexivity. }
  split; [exact Hm|]. split; [|reflexivity].
  change HASHED with (other_mode PLAINTEXT).
  rewrite (mutation_leaves_other_artifact PLAINTEXT ex_store fs' Hm). reflexivity.
Defined.

(** Revoking the active record of [ex_store], then again in the other mode. *)
Lemma revoke_token_twice_witness :
  let fs' := snd (TokenStore.revoke_token HASHED "tk_00000000aaaa" ex_now ex_store) in
  TokenStore.revoke_token HASHED "tk_00000000aaaa" ex_now ex_store
  = (Ok (TokenRecord.set_revoked ex_now ex_existing), fs')
  /\ TokenStore.revoke_token PLAINTEXT "tk_00000000aaaa" ex_now fs'
     = (Raise (ValueError (Token_is_already_revoked "tk_00000000aaaa")), fs').
Proof.
  intros fs'.
  assert (TokenStore.revoke_token HASHED "tk_00000000aaaa" ex_now ex_store
          = (Ok (TokenRecord.set_revoked ex_now ex_existing), fs')) as E by reflexivity.
  split; [exact E|].
  exact (revoke_token_twice HASHED "tk_00000000aaaa" ex_now ex_store _ fs' E PLAINTEXT ex_now).
Defined.

(** Plaintext mode on [ex_plain_store]: the new token can be shown. *)
Lemma create_then_show_witness :
  exists r fs',
    TokenStore.create_token PLAINTEXT "app" None "0123456789ab" "URLSAFE" ex_now
      ex_plain_store = (Ok r, fs')
    /\ TokenStore.show_token PLAINTEXT "tk_0123456789ab" fs' = (Ok r, fs')
    /\ TokenRecord.value r = Some "sk-URLSAFE".
Proof.
  assert (Forall (fun t => has_id ("tk_" +:+ "0123456789ab") t = false)
            (tokens_of ex_plain_store)) as Hfresh by (repeat constructor).
  assert (exists r fs',
             TokenStore.create_token PLAINTEXT "app" None "0123456789ab" "URLSAFE" ex_now
               ex_plain_store = (Ok r, fs')
             /\ TokenRecord.id r = "tk_0123456789ab") as (r & fs' & Ec & Hid)
    by (eexists _, _; split; vm_compute; reflexivity).
  destruct (create_then_show PLAINTEXT "app" None "0123456789ab" "URLSAFE" ex_now
              ex_plain_store r fs' Hfresh Ec) as [Sh V].
  rewrite Hid in Sh. exists r, fs'. split; [exact Ec|]. split; [exact Sh | exact V].
Defined.

(** Hashed mode on [ex_store], whose [token_hashes.json] is in step with
    its records: create, then revoke. *)
Lemma create_then_revoke_witness :
  exists r fs' t' fs'',
    TokenStore.create_token HASHED "__deploy-smoke-test" None "0123456789ab" "URLSAFE"
      ex_now ex_store = (Ok r, fs')
    /\ TokenStore.revoke_token HASHED "tk_0123456789ab" ex_now fs' = (Ok t', fs'')
    /\ fst (TokenStore.active_tokens fs'') = Ok [ex_existing]
    /\ artifact_of HASHED fs'' = Some (Hashlist [sha256_hex "sk-old"])
    /\ artifact_of HASHED fs'' = artifact_of HASHED ex_store.
Proof.
  assert (Forall (fun t => has_id ("tk_" +:+ "0123456789ab") t = false) (tokens_of ex_store))
    as Hfresh by (repeat constructor).
  assert (exists r fs',
             TokenStore.create_token HASHED "__deploy-smoke-test" None "0123456789ab"
               "URLSAFE" ex_now ex_store = (Ok r, fs')
             /\ TokenRecord.id r = "tk_0123456789ab") as (r & fs' & Ec & Hid)
    by (eexists _, _; split; vm_compute; reflexivity).
  assert (artifact_of HASHED ex_store = Some (derived HASHED (tokens_of ex_store))) as Hsync
    by (vm_compute; reflexivity).
  destruct (create_then_revoke HASHED "__deploy-smoke-test" None "0123456789ab" "URLSAFE"
              ex_now ex_now ex_store r fs' Hfresh Ec)
    as (t' & fs'' & E & _ & _ & _ & A & D & Same).
  rewrite Hid in E.
  exists r, fs', t', fs''. split; [exact Ec|]. split; [exact E|].
  split; [rewrite A; vm_compute; reflexivity|].
  split; [rewrite D; vm_compute; reflexivity | exact (Same Hsync)].
Defined.

(** [ex_dict], then without its name, then with a foreign key. *)
Lemma from_dict_incomplete_witness :
  _from_dict ex_dict = Ok (instance_of (TokenRecord.mk "tk_00000000cccc" "default" ex_now
                                          false None None None))
  /\ _from_dict (delete "name" ex_dict) = Raise (KeyError (Text "name"))
  /\ _from_dict (<["status" := JStr "active"]> ex_dict) = _from_dict ex_dict.
Proof.
  destruct (from_dict_incomplete ex_dict) as (_ & _ & _ & Hd & Hk).
  destruct (from_dict_incomplete (delete "name" ex_dict)) as (_ & Hn & _).
  split; [apply Hd; reflexivity|]. split; [apply Hn; [discriminate | reflexivity]|].
  apply Hk. vm_compute. intros H.
  repeat (apply elem_of_cons in H as [H|H]; [discriminate H|]).
  now apply elem_of_nil in H.
Defined.

(** A document whose second record has no id. *)
Lemma load_document_bad_record_witness :
  load_document (JObj ∅) = Ok []
  /\ load_document (JObj {[ "tokens" := JArr [JObj ex_dict; JObj ∅; JObj ex_dict] ]})
     = Raise (KeyError (Text "id")).
Proof.
  split.
  - apply (load_document_bad_record ∅). reflexivity.
  - destruct (load_document_bad_record
                {[ "tokens" := JArr [JObj ex_dict; JObj ∅; JObj ex_dict] ]}) as [_ H].
    apply (H [JObj ex_dict] (JObj ∅) [JObj ex_dict] _ _ eq_refl eq_refl eq_refl).
Defined.

(** Three steps, the second of which raises: the bar stands at one. *)
Lemma run_steps_advances_progress_witness :
  Forall bar_free ex_failing_steps
  /\ exists w', run_steps ex_failing_steps ex_world
                = (Raise (OtherException "RuntimeError" (Text "boom")), w')
                /\ progress w' = 1%nat.
Proof.
  assert (Forall bar_free ex_failing_steps) as HF.
  { repeat constructor; intros w r w' [= _ <-]; reflexivity. }
  split; [exact HF|].
  set (w1 := snd (run_steps ex_failing_steps ex_world)).
  assert (run_steps ex_failing_steps ex_world
          = (Raise (OtherException "RuntimeError" (Text "boom")), w1)) as E
    by (vm_compute; reflexivity).
  exists w1. split; [exact E|].
  pose proof (run_steps_advances_progress ex_failing_steps ex_world _ _ HF E) as H.
  cbv beta iota in H. destruct H as (k & tr & _ & O & L & P).
  assert (List.last (snd (run_steps_observed 0 ex_failing_steps ex_world)) (Skipped 0)
          = Failed 1 (OtherException "RuntimeError" (Text "boom"))) as L1
    by (vm_compute; reflexivity).
  rewrite O in L1. cbn [snd] in L1. rewrite L in L1. injection L1 as ->. exact P.
Defined.

(** The pipeline over [ex_store], every collaborator succeeding. *)
Lemma deploy_body_fills_progress_bar_witness :
  exists w',
    deploy_body ex_token_hex ex_token_urlsafe ex_isoformat ex_external ex_cfg false ex_world
    = (Ok tt, w')
    /\ progress w' = 16%nat.
Proof.
  set (wb := snd (deploy_body ex_token_hex ex_token_urlsafe ex_isoformat ex_external
                    ex_cfg false ex_world)).
  assert (deploy_body ex_token_hex ex_token_urlsafe ex_isoformat ex_external ex_cfg false
            ex_world = (Ok tt, wb)) as H by (vm_compute; reflexivity).
  exists wb. split; [exact H|].
  exact (proj2 (deploy_body_fills_progress_bar _ _ _ _ _ _ _ _ H)).
Defined.

(** Hashed mode without TLS: the local proxy is set up, the TLS step is
    skipped. *)
Lemma local_proxy_and_tls_exclusive_witness :
  exists r w' tr,
    run_steps_observed 0 (service_steps ex_external ex_cfg) ex_world = (r, w', tr)
    /\ tr !! 3%nat = Some (Executed 3 VNone)
    /\ tr !! 4%nat = Some (Skipped 4)
    /\ auth_mode ex_cfg = HASHED /\ use_tls ex_cfg = false.
Proof.
  destruct (run_steps_observed 0 (service_steps ex_external ex_cfg) ex_world)
    as [[r w'] tr] eqn:E.
  exists r, w', tr. split; [reflexivity|].
  destruct (local_proxy_and_tls_exclusive ex_external ex_cfg ex_world r w' tr E)
    as (H3 & _ & _).
  assert (tr !! 3%nat = Some (Executed 3 VNone) /\ tr !! 4%nat = Some (Skipped 4))
    as [T3 T4] by (vm_compute in E; injection E as _ _ <-; split; reflexivity).
  split; [exact T3|]. split; [exact T4|]. exact (H3 VNone T3).
Defined.

(** Without [--skip-download]; with it and no file on disk; with it and
    only the LLM file on disk. *)
Lemma resolve_from_disk_outcomes_witness :
  _resolve_from_disk ex_disk_external ex_cfg ex_world = (Ok tt, ex_world)
  /\ (exists w', _resolve_from_disk ex_external ex_cfg_skip ex_world
                 = (Raise (SystemExit 1), w'))
  /\ (exists w', _resolve_from_disk ex_llm_only_external ex_cfg_skip ex_world
                 = (Raise (SystemExit 1), w')
                 /\ result_of llm_step_addr w' = VObject "llm").
Proof.
  destruct (resolve_from_disk_outcomes ex_disk_external ex_cfg ex_world) as (H1 & _ & _).
  destruct (resolve_from_disk_outcomes ex_external ex_cfg_skip ex_world) as (_ & H2 & _).
  destruct (resolve_from_disk_outcomes ex_llm_only_external ex_cfg_skip ex_world)
    as (_ & _ & H3).
  split; [exact (H1 eq_refl)|]. split.
  - destruct (H2 (machine ex_world) eq_refl eq_refl) as (w' & E & _). now exists w'.
  - destruct (H3 (VObject "llm") (machine ex_world)
                (snd (tqdm_write (SKIP_DL (VObject "llm")) (machine ex_world)))
                eq_refl eq_refl ltac:(discriminate) eq_refl) as (w' & E & R & _).
    exists w'. split; [exact E | exact R].
Defined.

(** [--skip-download] with both files on disk. *)
Lemma skip_download_uses_disk_witness :
  exists w',
    (_resolve_from_disk ex_disk_external ex_cfg_skip ;;;
     run_steps [llm_step ex_disk_external ex_cfg_skip;
                emb_step ex_disk_external ex_cfg_skip]) ex_world = (Ok tt, w')
    /\ result_of llm_step_addr w' = VObject "llm"
    /\ result_of emb_step_addr w' = VObject "emb"
    /\ progress w' = 2%nat.
Proof.
  destruct (skip_download_uses_disk ex_disk_external ex_cfg_skip ex_world
              (VObject "llm") (machine ex_world) (VObject "emb")
              (snd (tqdm_write (SKIP_DL (VObject "llm")) (machine ex_world)))
              eq_refl eq_refl ltac:(discriminate) eq_refl ltac:(discriminate))
    as (w' & E & R1 & R2 & P & _).
  exists w'. split; [exact E|]. split; [exact R1|]. split; [exact R2 | exact P].
Defined.

(** On a machine without secrets directory the token is new, and the
    bootstrap creates the permanent one; with a blank [--api-token] it
    raises instead. *)
Lemma is_new_token_agrees_with_bootstrap_witness :
  _is_new_token ex_cfg (ex_machine None) = (Ok true, ex_machine None)
  /\ (exists rt mc',
        _ensure_first_token ex_token_hex ex_token_urlsafe ex_isoformat ex_cfg
          (ex_machine None) = (Ok rt, mc')
        /\ created_permanent (ex_machine None, Ok rt, mc') = true
        /\ TokenRuntime.temporary_id rt = None)
  /\ rejected ex_cfg_blank
  /\ exists mc',
       _ensure_first_token ex_token_hex ex_token_urlsafe ex_isoformat ex_cfg_blank
         (ex_machine None) = (Raise (ValueError Token_value_must_not_be_empty), mc')
       /\ secrets mc' = None.
Proof.
  destruct (is_new_token_agrees_with_bootstrap ex_token_hex ex_token_urlsafe ex_isoformat
              ex_cfg (ex_machine None)) as [N H].
  destruct (is_new_token_agrees_with_bootstrap ex_token_hex ex_token_urlsafe ex_isoformat
              ex_cfg_blank (ex_machine None)) as [_ Hb].
  assert (~ rejected ex_cfg) as NR by (intros [T _]; discriminate T).
  assert (rejected ex_cfg_blank) as Rj by (split; reflexivity).
  split; [exact N|]. split; [|split; [exact Rj|]].
  - set (o := _ensure_first_token ex_token_hex ex_token_urlsafe ex_isoformat ex_cfg
                (ex_machine None)).
    destruct (H (fst o) (snd o) (surjective_pairing o)) as (_ & _ & Hp & _).
    destruct (Hp eq_refl NR) as (rt & E & C & T).
    exists rt, (snd o). split; [|split; [rewrite <- E; exact C | exact T]].
    rewrite <- E. apply surjective_pairing.
  - set (o := _ensure_first_token ex_token_hex ex_token_urlsafe ex_isoformat ex_cfg_blank
                (ex_machine None)).
    destruct (Hb (fst o) (snd o) (surjective_pairing o)) as (_ & _ & _ & Hr).
    destruct (Hr eq_refl Rj) as (E & S & _).
    exists (snd o). split; [|exact S]. rewrite <- E. apply surjective_pairing.
Defined.

(** First deployment in plaintext mode with [--api-token]. *)
Lemma bootstrap_honors_explicit_token_witness :
  exists mc' rec,
    _ensure_first_token ex_token_hex ex_token_urlsafe ex_isoformat ex_cfg_skip
      (ex_machine None)
    = (Ok (TokenRuntime.mk (Some "sk-explicit-token") None), mc')
    /\ fst (TokenStore.active_tokens (secrets mc')) = Ok [rec]
    /\ TokenRecord.value rec = Some "sk-explicit-token".
Proof.
  destruct (bootstrap_honors_explicit_token ex_token_hex ex_token_urlsafe ex_isoformat
              ex_cfg_skip (ex_machine None) "sk-explicit-token" eq_refl eq_refl eq_refl)
    as (mc' & rec & E & A & _ & _ & V & _).
  exists mc', rec. split; [exact E|]. split; [exact A | exact V].
Defined.

(** Redeployment over [ex_plain_store]. *)
Lemma bootstrap_reuses_plaintext_witness :
  exists mc',
    _ensure_first_token ex_token_hex ex_token_urlsafe ex_isoformat ex_cfg_skip
      (ex_machine ex_plain_store)
    = (Ok (TokenRuntime.mk (Some "sk-plain") None), mc')
    /\ secrets mc' = ex_plain_store.
Proof.
  destruct (bootstrap_reuses_plaintext ex_token_hex ex_token_urlsafe ex_isoformat
              ex_cfg_skip (ex_machine ex_plain_store) ex_plain [] eq_refl eq_refl)
    as (mc' & E & S & _).
  exists mc'. split; [exact E | exact S].
Defined.

(** Redeployment over [ex_store], whose active record has no plaintext
    and whose [token_hashes.json] is in step with its records. *)
Lemma bootstrap_temporary_token_is_reverted_witness :
  exists mc' mc'',
    _ensure_first_token ex_token_hex ex_token_urlsafe ex_isoformat ex_cfg
      (ex_machine ex_store)
    = (Ok (TokenRuntime.mk (Some ("sk-" +:+ ex_token_urlsafe 1)) (Some "tk_0123456789ab")),
       mc')
    /\ revoke_temporary ex_isoformat ex_cfg "tk_0123456789ab" mc' = (Ok tt, mc'')
    /\ fst (TokenStore.active_tokens (secrets mc'')) = Ok [ex_existing]
    /\ artifact_of HASHED (secrets mc'') = Some (Hashlist [sha256_hex "sk-old"])
    /\ artifact_of HASHED (secrets mc'') = artifact_of HASHED ex_store.
Proof.
  assert (Forall (fun t => has_id ("tk_" +:+ ex_token_hex (urandom (ex_machine ex_store))) t
                           = false) (tokens_of (secrets (ex_machine ex_store)))) as Hfresh
    by (repeat constructor).
  assert (artifact_of (auth_mode ex_cfg) (secrets (ex_machine ex_store))
          = Some (derived (auth_mode ex_cfg) (tokens_of (secrets (ex_machine ex_store)))))
    as Hsync by (vm_compute; reflexivity).
  destruct (bootstrap_temporary_token_is_reverted ex_token_hex ex_token_urlsafe ex_isoformat
              ex_cfg (ex_machine ex_store) ex_existing [] eq_refl eq_refl Hfresh)
    as (mc' & mc'' & E & _ & R & A & D & _ & Same).
  exists mc', mc''. split; [exact E|]. split; [exact R|].
  split; [rewrite A; vm_compute; reflexivity|].
  split; [change HASHED with (auth_mode ex_cfg); rewrite D; vm_compute; reflexivity|].
  exact (Same Hsync).
Defined.

(** After a redeployment over [ex_plain_store]: the cleanup only logs. *)
Lemma deploy_cleanup_spares_permanent_tokens_witness :
  let w := mkWorld (ex_machine ex_plain_store)
             {[ token_step_addr := VTokenRuntime (TokenRuntime.mk (Some "sk-plain") None) ]}
             16 in
  exists w',
    deploy_cleanup ex_isoformat ex_cfg_skip w = (Ok tt, w')
    /\ secrets (machine w') = ex_plain_store
    /\ console (machine w') = [].
Proof.
  intros w.
  assert (forall rt, result_of token_step_addr w = VTokenRuntime rt ->
                     truthy (TokenRuntime.temporary_id rt) = false) as H.
  { intros rt E. vm_compute in E. injection E as <-. reflexivity. }
  destruct (deploy_cleanup_spares_permanent_tokens ex_isoformat ex_cfg_skip w H)
    as (w' & E & S & C & _).
  exists w'. split; [exact E|]. split; [exact S | exact C].
Defined.
